(** * change-poller: state tracking and change detection of [main.py]

    A shallow embedding of the configuration merge ([parseArgs],
    [getConfig]), of the polling loop ([run]) with its per-page state
    files, and of the slug function ([getSafeFilename]), followed by the
    properties of the design document checked against them.

    Conventions of the embedding.
    - A Python [str] is a [string]; a character is an [ascii], read as a
      code point below 256.
    - A Python exception is a value of [exn]; code that can raise returns
      a [res].  Code that also touches the file system, the log or the
      loop variables of [run] lives in the monad [M].
    - The external collaborators (clock, browser, [re.search] on a
      user-supplied pattern, write faults of the disk) are fields of the
      record [World]; the process environment, with the directories, the
      log file and the configuration file, is the record [Env].
    - The data files are the map [fs] of the state.  What the program
      does to other files (directories made, log file opened,
      configuration written) is kept as the list [ops] of the state,
      and the environment says of each such operation whether it
      raises.
    - Messages sent to [_log] under [if _debug:] are not modelled
      ([_debug] is [False] unless [-vv] is given); every other call of
      [_log] is. *)

From Stdlib Require Import ZArith Ascii String Bool.
From stdpp Require Import base option list strings gmap fin_maps fin_sets.

Local Open Scope Z_scope.

(** ** Exceptions and results *)

(** The exception classes the modelled code raises or catches. *)
Inductive exn : Set :=
  | WebDriverException
  | NoSuchElementException      (* subclass of WebDriverException *)
  | TimeoutException            (* subclass of WebDriverException *)
  | LookupError
  | KeyError                    (* subclass of LookupError *)
  | NameError                   (* also stands for UnboundLocalError *)
  | TypeError
  | AttributeError
  | OSError                     (* also stands for its subclasses:
                                   FileNotFoundError, FileExistsError, ... *)
  | JSONDecodeError
  | ReError                     (* re.error *)
  | SystemExit.                 (* parser.error, sys.exit *)

#[global] Instance exn_eq_dec : EqDecision exn.
Proof. solve_decision. Defined.

(** [isinstance e c]: [e] is of class [c] or of one of its subclasses. *)
Definition isinstance (e c : exn) : bool :=
  match c, e with
  | WebDriverException, (WebDriverException | NoSuchElementException | TimeoutException) => true
  | LookupError, (LookupError | KeyError) => true
  | _, _ => bool_decide (e = c)
  end.

Inductive res (A : Type) : Type :=
  | Ret (a : A)
  | Raise (e : exn).
Arguments Ret {A} a.
Arguments Raise {A} e.

Definition res_bind {A B} (r : res A) (f : A -> res B) : res B :=
  match r with
  | Ret a => f a
  | Raise e => Raise e
  end.

(** ** Characters and strings *)

Definition LF : ascii := "010"%char.

Definition ascii_in_range (lo hi c : ascii) : bool :=
  (N.leb (N_of_ascii lo) (N_of_ascii c)) && (N.leb (N_of_ascii c) (N_of_ascii hi)).

Definition is_lower (c : ascii) : bool := ascii_in_range "a" "z" c.
Definition is_upper (c : ascii) : bool := ascii_in_range "A" "Z" c.
Definition is_digit (c : ascii) : bool := ascii_in_range "0" "9" c.

(** [\w] of Python 3 on [str]: alphanumeric or underscore.  Above 127
    these are the letters and numeric signs of Latin-1. *)
Definition is_word (c : ascii) : bool :=
  is_lower c || is_upper c || is_digit c || Ascii.eqb c "_"
  || (let n := N_of_ascii c in
      N.eqb n 170 || N.eqb n 178 || N.eqb n 179 || N.eqb n 181
      || N.eqb n 185 || N.eqb n 186 || N.eqb n 188 || N.eqb n 189
      || N.eqb n 190
      || (N.leb 192 n && N.leb n 214) || (N.leb 216 n && N.leb n 246)
      || (N.leb 248 n && N.leb n 255))%N.

Definition one_of (cs : string) (c : ascii) : bool :=
  existsb (Ascii.eqb c) (list_ascii_of_string cs).

Fixpoint str_map (f : ascii -> ascii) (s : string) : string :=
  match s with
  | EmptyString => EmptyString
  | String c s' => String (f c) (str_map f s')
  end.

Fixpoint str_rev_onto (s acc : string) : string :=
  match s with
  | EmptyString => acc
  | String c s' => str_rev_onto s' (String c acc)
  end.

Definition str_rev (s : string) : string := str_rev_onto s EmptyString.

Fixpoint lstrip (c : ascii) (s : string) : string :=
  match s with
  | EmptyString => EmptyString
  | String d s' => if Ascii.eqb d c then lstrip c s' else s
  end.

(** [s.strip(c)] for a one-character argument. *)
Definition strip (c : ascii) (s : string) : string :=
  str_rev (lstrip c (str_rev (lstrip c s))).

Fixpoint str_take (n : nat) (s : string) : string :=
  match n, s with
  | S n', String c s' => String c (str_take n' s')
  | _, _ => EmptyString
  end.

(** [c in s] for a character. *)
Fixpoint str_mem (c : ascii) (s : string) : bool :=
  match s with
  | EmptyString => false
  | String d s' => Ascii.eqb d c || str_mem c s'
  end.

(** ** Regular expressions

    The fragment of [re] that the literal patterns of [main.py] use.  A
    pattern is run in continuation-passing style: [run_re r k s] tries
    the ways [r] can match a prefix of [s] in the order of Python's
    backtracking matcher (greedy first) and returns the first result the
    continuation [k] accepts for the rest of the input. *)
Inductive regex : Type :=
  | Eps
  | Chr (p : ascii -> bool)           (* one character of a class *)
  | Seq (r1 r2 : regex)
  | Opt (r : regex)                   (* r? *)
  | Rep (r : regex) (lo hi : nat)     (* r{lo,hi} *)
  | Star (p : ascii -> bool)          (* [class]* *)
  | Eol.                              (* $ without re.MULTILINE *)

Definition orelse {A} (x y : option A) : option A :=
  match x with
  | Some a => Some a
  | None => y
  end.

Section Matcher.
Context {A : Type}.
Abbreviation cont := (string -> option A).

Fixpoint exactly (m : cont -> cont) (n : nat) (k : cont) : cont :=
  match n with
  | O => k
  | S n' => m (exactly m n' k)
  end.

Fixpoint at_most (m : cont -> cont) (n : nat) (k : cont) (s : string) : option A :=
  match n with
  | O => k s
  | S n' => orelse (m (at_most m n' k) s) (k s)
  end.

Fixpoint star (p : ascii -> bool) (k : cont) (s : string) : option A :=
  match s with
  | String c s' => if p c then orelse (star p k s') (k s) else k s
  | EmptyString => k s
  end.

Definition at_eol (k : cont) (s : string) : option A :=
  match s with
  | EmptyString => k s
  | String c EmptyString => if Ascii.eqb c LF then k s else None
  | _ => None
  end.

Fixpoint run_re (r : regex) (k : cont) (s : string) : option A :=
  match r with
  | Eps => k s
  | Chr p =>
      match s with
      | String c s' => if p c then k s' else None
      | EmptyString => None
      end
  | Seq r1 r2 => run_re r1 (run_re r2 k) s
  | Opt r1 => orelse (run_re r1 k s) (k s)
  | Rep r1 lo hi => exactly (run_re r1) lo (at_most (run_re r1) (hi - lo) k) s
  | Star p => star p k s
  | Eol => at_eol k s
  end.

(** [pattern.search]: the leftmost position at which the match succeeds. *)
Fixpoint search_from (m : cont) (s : string) : option A :=
  match m s with
  | Some a => Some a
  | None =>
      match s with
      | EmptyString => None
      | String _ s' => search_from m s'
      end
  end.
End Matcher.

Fixpoint lit (s : string) : regex :=
  match s with
  | EmptyString => Eps
  | String c s' => Seq (Chr (Ascii.eqb c)) (lit s')
  end.

(** [pattern.match(s) != None]: some prefix of [s] matches. *)
Definition re_match (r : regex) (s : string) : bool :=
  bool_decide (is_Some (run_re r (fun rest => Some rest) s)).

(** The text of a group that starts where [s] starts and ends where
    [rest], a suffix of [s], starts. *)
Definition captured (s rest : string) : string :=
  str_take (String.length s - String.length rest) s.

(** [pattern.search(s).group(1)] for a pattern [pre(body)post] with one
    group; [None] when [search] returns [None]. *)
Definition search_group1 (pre body post : regex) (s : string) : option string :=
  search_from
    (run_re pre (fun s1 =>
       run_re body (fun s2 =>
         run_re post (fun _ => Some (captured s1 s2)) s2) s1))
    s.

Definition dot (c : ascii) : bool := negb (Ascii.eqb c LF).

(** [url_regex] of [parseArgs]:
    https?://[-a-zA-Z0-9@:%._\+~#=]{2,256}\.[a-z]{2,63}/?[-a-zA-Z0-9@:%_\+.~#?&//=]* *)
Definition url_host_class (c : ascii) : bool :=
  is_lower c || is_upper c || is_digit c || one_of "-@:%._+~#=" c.

Definition url_path_class (c : ascii) : bool :=
  is_lower c || is_upper c || is_digit c || one_of "-@:%_+.~#?&/=" c.

Definition url_regex : regex :=
  Seq (lit "http") (Seq (Opt (Chr (Ascii.eqb "s"))) (Seq (lit "://")
    (Seq (Rep (Chr url_host_class) 2 256) (Seq (Chr (Ascii.eqb "."))
      (Seq (Rep (Chr is_lower) 2 63) (Seq (Opt (Chr (Ascii.eqb "/")))
        (Star url_path_class))))))).

(** [domain_regex] of [run]: ://(.[^/]+) and its [.search(u).group(1)]. *)
Definition not_slash (c : ascii) : bool := negb (Ascii.eqb c "/").

Definition domain_of (u : string) : res string :=
  match search_group1 (lit "://")
          (Seq (Chr dot) (Seq (Chr not_slash) (Star not_slash))) Eps u with
  | Some g => Ret g
  | None => Raise AttributeError      (* None.group *)
  end.

(** ** getSafeFilename *)

(** [remove_protocol]: the separator [://], then a group holding any
    run of characters other than line feed, then [$]. *)
Definition remove_protocol_search (s : string) : option string :=
  search_group1 (lit "://") (Star dot) Eol s.

(** The class [^\w\-_\. ] of the substitution. *)
Definition suspicious (c : ascii) : bool :=
  negb (is_word c || one_of "-_. " c).

Definition re_sub_suspicious (s : string) : string :=
  str_map (fun c => if suspicious c then "_"%char else c) s.

Definition getSafeFilename (s : string) : res string :=
  match remove_protocol_search s with
  | None => Raise AttributeError      (* None.group *)
  | Some g => Ret (strip "_" (re_sub_suspicious g))
  end.

(** ** Data model *)

(** One text fragment of a page: a group of [match.groups()] is a [str],
    or [None] for a group that did not take part in the match. *)
Definition Fragment : Type := option string.

(** An entry of [conf['pages']]: keys [url], [selector] and, when a
    pattern was given, [regex]. *)
Module Page.
Record t : Type := mk {
  url : string;
  selector : string;
  regex : option string
}.
#[global] Instance eq_dec : EqDecision t.
Proof. solve_decision. Defined.
End Page.

(** The dictionary [file_data] kept in a page's data file.  The keys
    [error_description] and [new_url] may be absent. *)
Module State.
Record t : Type := mk {
  last_content_change : Z;
  last_check : Z;
  title : string;
  url : string;
  domain : string;
  content : list Fragment;
  error : bool;
  error_description : option string;
  new_url : option string
}.
#[global] Instance eq_dec : EqDecision t.
Proof. solve_decision. Defined.

Definition set_error (b : bool) (d : t) : t :=
  mk (last_content_change d) (last_check d) (title d) (url d) (domain d)
     (content d) b (error_description d) (new_url d).
Definition set_error_description (o : option string) (d : t) : t :=
  mk (last_content_change d) (last_check d) (title d) (url d) (domain d)
     (content d) (error d) o (new_url d).
Definition set_last_check (ts : Z) (d : t) : t :=
  mk (last_content_change d) ts (title d) (url d) (domain d)
     (content d) (error d) (error_description d) (new_url d).
Definition set_url (u : string) (d : t) : t :=
  mk (last_content_change d) (last_check d) (title d) u (domain d)
     (content d) (error d) (error_description d) (new_url d).
Definition set_domain (u : string) (d : t) : t :=
  mk (last_content_change d) (last_check d) (title d) (url d) u
     (content d) (error d) (error_description d) (new_url d).
Definition del_new_url (d : t) : t :=
  mk (last_content_change d) (last_check d) (title d) (url d) (domain d)
     (content d) (error d) (error_description d) None.
(** The three assignments made when a change is detected. *)
Definition set_changed (c : list Fragment) (ti : string) (ts : Z) (d : t) : t :=
  mk ts (last_check d) ti (url d) (domain d)
     c (error d) (error_description d) (new_url d).
End State.

(** An entry of [allChanges]. *)
Module Change.
Record t : Type := mk {
  added : list Fragment;
  removed : list Fragment;
  title : string;
  url : string;
  domain : string
}.
#[global] Instance eq_dec : EqDecision t.
Proof. solve_decision. Defined.
End Change.

(** ** Configuration values *)

(** The values found in [conf] and in the configuration file: strings,
    numbers, booleans and page dictionaries, and lists of them. *)
Inductive item : Type :=
  | IStr (s : string)
  | INum (z : Z)
  | IBool (b : bool)
  | IPage (p : Page.t).

Inductive value : Type :=
  | VItem (a : item)
  | VList (l : list item).

#[global] Instance item_eq_dec : EqDecision item.
Proof. solve_decision. Defined.
#[global] Instance value_eq_dec : EqDecision value.
Proof. solve_decision. Defined.

(** What the program does to the file system outside its data files. *)
Inductive fs_op : Type :=
  | Makedirs (path : string)          (* os.makedirs(path, mode=0o700) *)
  | OpenLog (path : string)           (* RotatingFileHandler(path, ...) opens the file *)
  | WriteConfig (path : string) (conf : gmap string value)
                                      (* open(path, 'w'), then f.write(formatJSON(conf)) *)
  | WriteConfigFd (fd : Z) (conf : gmap string value).
                                      (* the same on a file descriptor *)

#[global] Instance fs_op_eq_dec : EqDecision fs_op.
Proof. solve_decision. Defined.

(** What a file holds.  A file that holds [formatJSON(d)] for a state
    dictionary [d] is represented by [FState d], and [json.load] gives
    [d] back; [FText] is text that [json.load] rejects. *)
Inductive file : Type :=
  | FState (d : State.t)
  | FText (s : string).

#[global] Instance file_eq_dec : EqDecision file.
Proof. solve_decision. Defined.

Inductive level : Set := DEBUG | INFO | WARNING | CRITICAL.

#[global] Instance level_eq_dec : EqDecision level.
Proof. solve_decision. Defined.

(** ** The outside world *)

(** The collaborators of one run.  The index [i] is the position of the
    page in [conf['pages']]; [n] counts the attempts to open a file for
    writing since the start of the run. *)
Record World : Type := {
  clock : nat -> Z;                              (* int(time.time()) *)
  browser_get : nat -> string -> option exn;     (* browser.get(url) raises *)
  find_text : nat -> string -> res string;       (* find_element_by_css_selector(sel).text *)
  browser_title : nat -> string;                 (* browser.title *)
  re_search : string -> string -> res (option (list Fragment));
                                                 (* re.search(pattern, text), then .groups() *)
  disk_fault : nat -> string -> bool;            (* open(path, 'w') raises OSError *)
  sinks_raise : option exn                       (* the notification events raise *)
}.

(** ** The monad of [run] *)

Record St : Type := MkSt {
  fs : gmap string file;            (* the data files, by path *)
  log : list (level * string);      (* the calls of _log, oldest first *)
  writes : nat;                     (* attempts to open a data file for writing *)
  has_handlers : bool;              (* logger.hasHandlers() *)
  ops : list fs_op                  (* what was done to other files, oldest first *)
}.

(** A state in which nothing has been done to other files yet. *)
Definition mkSt (fs : gmap string file) (log : list (level * string)) (writes : nat)
    (has_handlers : bool) : St :=
  MkSt fs log writes has_handlers [].

Definition M (A : Type) : Type := St -> res A * St.

Definition ret {A} (a : A) : M A := fun st => (Ret a, st).
Definition raise {A} (e : exn) : M A := fun st => (Raise e, st).
Definition bind {A B} (m : M A) (f : A -> M B) : M B :=
  fun st =>
    match m st with
    | (Ret a, st') => f a st'
    | (Raise e, st') => (Raise e, st')
    end.
Definition lift {A} (r : res A) : M A := fun st => (r, st).

Notation "x <- m ;; k" := (bind m (fun x => k))
  (at level 100, m at next level, right associativity).
Notation "m ;;; k" := (bind m (fun _ => k))
  (at level 100, right associativity).

(** [try: m  except ...: h e]: the handler [h] says for each exception
    whether a clause catches it, and what the clause does. *)
Definition try_except {A} (m : M A) (h : exn -> option (M A)) : M A :=
  fun st =>
    match m st with
    | (Ret a, st') => (Ret a, st')
    | (Raise e, st') =>
        match h e with
        | Some k => k st'
        | None => (Raise e, st')
        end
    end.

(** [try: m  finally: f]. *)
Definition try_finally {A} (m : M A) (f : M unit) : M A :=
  fun st =>
    match m st with
    | (r, st') =>
        match f st' with
        | (Ret _, st'') => (r, st'')
        | (Raise e, st'') => (Raise e, st'')
        end
    end.

(** [_log(levelName, msg, **kwargs)].  With handlers installed the call
    is passed on as [logger._log(level, msg, args, **kwargs)], which
    knows no keyword [file]; the fallback logger ignores keywords. *)
Definition _log (lv : level) (msg : string) (file_kw : bool) : M unit :=
  fun st =>
    if has_handlers st && file_kw then (Raise TypeError, st)
    else (Ret tt, MkSt (fs st) (log st ++ [(lv, msg)]) (writes st) (has_handlers st) (ops st)).

(** [_log(x)] with one positional argument: [msg] is missing. *)
Definition _log_without_msg (levelName : string) : M unit := raise TypeError.

(** [with open(path) as f: json.load(f)]. *)
Definition read_state (path : string) : M State.t :=
  fun st =>
    match fs st !! path with
    | None => (Raise OSError, st)
    | Some (FText _) => (Raise JSONDecodeError, st)
    | Some (FState d) => (Ret d, st)
    end.

(** [with open(path, 'w') as f: f.write(payload)]. *)
Definition write_file (w : World) (path : string) (payload : file) : M unit :=
  fun st =>
    if disk_fault w (writes st) path
    then (Raise OSError, MkSt (fs st) (log st) (S (writes st)) (has_handlers st) (ops st))
    else (Ret tt, MkSt (<[path := payload]> (fs st)) (log st) (S (writes st)) (has_handlers st)
                    (ops st)).

(** [os.remove(path)]. *)
Definition os_remove (path : string) : M unit :=
  fun st =>
    match fs st !! path with
    | None => (Raise OSError, st)
    | Some _ => (Ret tt, MkSt (delete path (fs st)) (log st) (writes st) (has_handlers st)
                           (ops st))
    end.

(** ** The change detector: lines 494 to 578 of [run] *)

(** The body of the [try] of line 495: load the page, find the element,
    refine its text. *)
Definition fetch (w : World) (i : nat) (page : Page.t) : res (list Fragment) :=
  match browser_get w i (Page.url page) with
  | Some e => Raise e
  | None =>
      res_bind (find_text w i (Page.selector page)) (fun text =>
        match Page.regex page with
        | Some rx =>
            res_bind (re_search w rx text) (fun m =>
              match m with
              | None => Raise LookupError
              | Some groups => Ret groups
              end)
        | None =>
            if decide (text = "") then Raise LookupError
            else Ret [Some text]
        end)
  end.

(** The [except] clause of line 525 catches these. *)
Definition caught (e : exn) : bool :=
  isinstance e WebDriverException || isinstance e NoSuchElementException
  || isinstance e LookupError.

Definition describe (err_type : exn) : string :=
  if decide (err_type = WebDriverException) then "server cannot be contacted"
  else if decide (err_type = NoSuchElementException) then "element cannot be found"
  else if decide (err_type = LookupError) then "couldn't find what we were looking for"
  else "???".

(** Lines 525 to 544. *)
Definition on_fetch_error (err_type : exn) (file_data : State.t) : M State.t :=
  let description := describe err_type in
  file_data <-
    (if negb (State.error file_data) then
       _log WARNING "Query erroring out!" false ;;;
       ret (State.set_error true file_data)
     else
       _log INFO "Query is still erroring out." false ;;;
       ret file_data) ;;
  ret (State.set_error_description (Some description) file_data).

(** Lines 550 to 554. *)
Definition clear_error (file_data : State.t) : M State.t :=
  if State.error file_data then
    _log INFO "Server is now responding, previously it was not" false ;;;
    let file_data := State.set_error false file_data in
    match State.error_description file_data with
    | Some _ => ret (State.set_error_description None file_data)
    | None => raise KeyError      (* del of an absent key *)
    end
  else ret file_data.

(** Lines 556 to 575.  Iterating over a Python set visits each element
    once in an order of its own, here that of [elements]. *)
Definition diff_content (w : World) (i : nat) (timestamp : Z)
    (content : list Fragment) (file_data : State.t)
  : State.t * option Change.t :=
  let old : gset Fragment := list_to_set (State.content file_data) in
  let new : gset Fragment := list_to_set content in
  if decide (old = new) then (file_data, None)
  else
    let file_data' :=
      State.set_changed content (browser_title w i) timestamp file_data in
    (file_data',
     Some (Change.mk
             (filter (fun x => x ∉ old) (elements new))
             (filter (fun x => x ∉ new) (elements old))
             (browser_title w i)
             (State.url file_data')
             (State.domain file_data'))).

(** Lines 494 to 578: [try] / [except] / [else], then [last_check]. *)
Definition detect (w : World) (i : nat) (page : Page.t) (file_data : State.t)
  : M (State.t * option Change.t) :=
  let timestamp := clock w i in
  r <-
    (match fetch w i page with
     | Raise err =>
         if caught err then
           file_data <- on_fetch_error err file_data ;;
           ret (file_data, None)
         else raise err
     | Ret content =>
         file_data <- clear_error file_data ;;
         ret (diff_content w i timestamp content file_data)
     end) ;;
  ret (State.set_last_check timestamp (fst r), snd r).

(** ** The polling loop [run] *)

(** The local variables of [run] that live across iterations;
    [old_data_file] is unbound until a url change assigns it. *)
Record Loop : Type := mkLoop {
  allChanges : list Change.t;
  tryAgain : list (string * file);
  old_data_file : option string
}.

(** [d[k] = v] on a dictionary kept in insertion order. *)
Fixpoint dict_set {V} (k : string) (v : V) (d : list (string * V)) : list (string * V) :=
  match d with
  | [] => [(k, v)]
  | (k', v') :: d' => if decide (k' = k) then (k, v) :: d' else (k', v') :: dict_set k v d'
  end.

Definition path_join (dir name : string) : string := dir +:+ "/" +:+ name.

(** Lines 456 to 478. *)
Definition load_state (addedPageUrls : list string) (page : Page.t)
    (data_file : string) : M State.t :=
  try_except (read_state data_file)
    (fun err =>
       if isinstance err OSError || isinstance err JSONDecodeError then
         Some ((if decide (Page.url page ∈ addedPageUrls) then ret tt
                else _log WARNING "Data file load failed, please fix your configuration! Using defaults." false) ;;;
               domain <- lift (domain_of (Page.url page)) ;;
               ret (State.mk 0 0 "" (Page.url page) domain [] false None None))
       else None).

(** Lines 484 to 492: the url change itself. *)
Definition apply_url_change (data_dir : string) (page : Page.t)
    (new_url : string) (file_data : State.t) (data_file : string)
  : M (State.t * string * option string) :=
  let file_data := State.del_new_url (State.set_url new_url file_data) in
  domain <- lift (domain_of (Page.url page)) ;;
  let file_data := State.set_domain domain file_data in
  let old_data_file := Some data_file in
  name <- lift (getSafeFilename (Page.url page)) ;;
  ret (file_data, path_join data_dir name, old_data_file).

(** Lines 480 to 492.  The two string literals of line 482 are joined
    into one argument, so [_log] is called without [msg]. *)
Definition react_to_url_change (data_dir : string) (page : Page.t)
    (file_data : State.t) (data_file : string) (old : option string)
  : M (State.t * string * option string) :=
  match State.new_url file_data with
  | Some new_url =>
      _log_without_msg ("debugUpdating url to " +:+ new_url) ;;;
      apply_url_change data_dir page new_url file_data data_file
  | None => ret (file_data, data_file, old)
  end.

(** [change_data] is a local name of [main]; [run] and the module have
    no such name. *)
Definition change_data_in_run : M file := raise NameError.

Definition formatJSON (data : file) : file := data.

(** Lines 580 to 599. *)
Definition save_state (w : World) (data_file : string) (old : option string)
    (file_data : State.t) (tryAgain : list (string * file))
  : M (list (string * file)) :=
  try_except
    (write_file w data_file (formatJSON (FState file_data)) ;;;
     match old with
     | None => raise NameError           (* old_data_file is unbound *)
     | Some old_data_file => os_remove old_data_file
     end ;;;
     ret tryAgain)
    (fun err =>
       if isinstance err NameError then Some (ret tryAgain)
       else if isinstance err OSError then
         Some (_log INFO "Couldn't update data file! Trying again later." true ;;;
               change_data <- change_data_in_run ;;
               ret (dict_set data_file (formatJSON change_data) tryAgain))
       else None).

(** One iteration of the loop of line 445. *)
Definition poll_page (w : World) (data_dir : string) (addedPageUrls : list string)
    (i : nat) (page : Page.t) (lp : Loop) : M Loop :=
  name <- lift (getSafeFilename (Page.url page)) ;;
  let data_file := path_join data_dir name in
  file_data <- load_state addedPageUrls page data_file ;;
  r <- react_to_url_change data_dir page file_data data_file (old_data_file lp) ;;
  let '(file_data, data_file, old) := r in
  r <- detect w i page file_data ;;
  let '(file_data, change) := r in
  let allChanges :=
    match change with
    | Some c => allChanges lp ++ [c]
    | None => allChanges lp
    end in
  tryAgain <- save_state w data_file old file_data (tryAgain lp) ;;
  ret (mkLoop allChanges tryAgain old).

Fixpoint poll_pages (w : World) (data_dir : string) (addedPageUrls : list string)
    (i : nat) (pages : list Page.t) (lp : Loop) : M Loop :=
  match pages with
  | [] => ret lp
  | page :: rest =>
      lp' <- poll_page w data_dir addedPageUrls i page lp ;;
      poll_pages w data_dir addedPageUrls (S i) rest lp'
  end.

(** [run(conf, addedPageUrls)], with [conf['pages']] and
    [conf['data_dir']] taken out of [conf]; [getBrowser] is taken to
    succeed. *)
Definition run (w : World) (pages : list Page.t) (data_dir : string)
    (addedPageUrls : list string) : M (list Change.t * list (string * file)) :=
  match pages with
  | [] =>
      _log WARNING "No pages specified!" false ;;;
      ret ([], [])
  | _ =>
      lp <- poll_pages w data_dir addedPageUrls 0 pages (mkLoop [] [] None) ;;
      ret (allChanges lp, tryAgain lp)
  end.

(** ** The end of [main]: notification and the second attempt *)

(** The [finally] block, lines 139 to 151. *)
Fixpoint retry_each (w : World) (tryAgain : list (string * file)) : M unit :=
  match tryAgain with
  | [] => ret tt
  | (data_file, payload) :: rest =>
      try_except
        (write_file w data_file payload ;;;
         _log INFO "Previously errored file saved now happily." false)
        (fun err =>
           if isinstance err OSError
           then Some (_log WARNING "Cannot save data file!" false)
           else None) ;;;
      retry_each w rest
  end.

Definition retry_pass (w : World) (tryAgain : list (string * file)) : M unit :=
  match tryAgain with
  | [] => ret tt
  | _ =>
      _log INFO "Now trying to save unsaved changes again" false ;;;
      retry_each w tryAgain
  end.

(** The [try] block, lines 65 to 137; the events themselves are outside
    the model, only whether they raise. *)
Definition notify (w : World) (changes : list Change.t) : M unit :=
  match changes with
  | [] => _log INFO "No changes detected" false
  | _ =>
      _log INFO "Changes detected" false ;;;
      match sinks_raise w with
      | Some e => raise e
      | None => ret tt
      end
  end.

(** The branch [if 'run' in whatToDo:] of [main], lines 59 to 151. *)
Definition main_run (w : World) (pages : list Page.t) (data_dir : string)
    (addedPageUrls : list string) : M unit :=
  r <- run w pages data_dir addedPageUrls ;;
  let '(changes, tryAgain) := r in
  try_finally (notify w changes) (retry_pass w tryAgain).

(** [a == b] of Python: [True == 1] and [False == 0]. *)
Definition py_eq (a b : item) : bool :=
  match a, b with
  | IBool x, INum z | INum z, IBool x => Z.eqb (if x then 1 else 0) z
  | _, _ => bool_decide (a = b)
  end.

(** [a in l]. *)
Definition py_in (a : item) (l : list item) : bool := existsb (py_eq a) l.

Fixpoint chars (s : string) : list item :=
  match s with
  | EmptyString => []
  | String c s' => IStr (String c EmptyString) :: chars s'
  end.

(** [for i in v]: the elements of a list, the characters of a string,
    the keys of a dictionary. *)
Definition py_iter (v : value) : res (list item) :=
  match v with
  | VList l => Ret l
  | VItem (IStr s) => Ret (chars s)
  | VItem (IPage p) =>
      Ret ([IStr "url"; IStr "selector"]
           ++ match Page.regex p with Some _ => [IStr "regex"] | None => [] end)
  | VItem (INum _) | VItem (IBool _) => Raise TypeError
  end.

(** [i['url']]. *)
Definition item_url (i : item) : res string :=
  match i with
  | IPage p => Ret (Page.url p)
  | _ => Raise TypeError
  end.

(** [v] as a path given to [open] or [os.path]. *)
Definition as_str (v : value) : res string :=
  match v with
  | VItem (IStr s) => Ret s
  | _ => Raise TypeError
  end.

(** ** parseArgs *)

(** The namespace returned by [parser.parse_args()]. *)
Module Args.
Record t : Type := mk {
  page : option (list (list string));
  browser : option string;
  use_xvfb : bool;
  event_list : option (list string);
  log_path : option string;
  save_config : bool;
  print_config : bool;
  config_file : option string;
  data_dir : option string;
  no_run : bool;
  verbose : nat;
  quiet : bool
}.
(** No option given. *)
Definition empty : t :=
  mk None None false None None false false None None false 0 false.
End Args.

(** The process environment. *)
Record Env : Type := {
  home : string;                          (* os.path.expanduser('~') *)
  XDG_CONFIG_HOME : option string;
  XDG_DATA_HOME : option string;
  webdriver_has : string -> bool;         (* hasattr(webdriver, name) *)
  re_compiles : string -> bool;           (* re.compile(pattern) succeeds *)
  read_config : string -> res (gmap string value);
                                          (* open(path), then json.load *)
  isdir : list fs_op -> string -> bool;   (* os.path.isdir(path), after the listed
                                             operations *)
  fs_fault : list fs_op -> fs_op -> option exn
                                          (* the operation raises, after the listed
                                             ones; for a write it is open that raises,
                                             as for the data files *)
}.

(** One operation on a file other than a data file: it raises as the
    environment says, or is done and recorded. *)
Definition perform (env : Env) (op : fs_op) : M unit :=
  fun st =>
    match fs_fault env (ops st) op with
    | Some e => (Raise e, st)
    | None => (Ret tt, MkSt (fs st) (log st) (writes st) (has_handlers st) (ops st ++ [op]))
    end.

Definition _valid_notification_events : list string := ["notify"; "log"; "print"].
Definition _default_browser : string := "Firefox".

(** Truth value of an optional string or list. *)
Definition truthy_str (o : option string) : option string :=
  match o with
  | Some s => if decide (s = "") then None else Some s
  | None => None
  end.

Definition truthy_list {A} (o : option (list A)) : option (list A) :=
  match o with
  | Some (x :: l) => Some (x :: l)
  | _ => None
  end.

(** [parser.error(...)] leaves the program. *)
Definition parser_error {A} : res A := Raise SystemExit.

(** The body of the loop of line 213 for one [--page] argument [p];
    [pages] is [argConf['pages']] so far. *)
Definition parse_page (env : Env) (p : list string) (pages : list Page.t)
  : res (list Page.t) :=
  match p with
  | [] | [_] => parser_error                               (* len(p) < 2 *)
  | url :: sel :: more =>
      if (3 <? length p)%nat then parser_error             (* len(p) > 3 *)
      else if negb (re_match url_regex url) then parser_error
      else if existsb (fun i => bool_decide (Page.url i = url)) pages then parser_error
      else
        match more with
        | [rx] =>
            if re_compiles env rx
            then Ret (pages ++ [Page.mk url sel (Some rx)])
            else parser_error
        | _ => Ret (pages ++ [Page.mk url sel None])
        end
  end.

Fixpoint parse_pages (env : Env) (ps : list (list string))
    (pages : list Page.t) (setParams : list string)
  : res (list Page.t * list string) :=
  match ps with
  | [] => Ret (pages, setParams)
  | p :: rest =>
      res_bind (parse_page env p pages) (fun pages' =>
        parse_pages env rest pages' (setParams ++ ["pages"]))
  end.

Fixpoint check_events (es : list string) : res (list item) :=
  match es with
  | [] => Ret []
  | e :: rest =>
      if bool_decide (e ∈ _valid_notification_events)
      then res_bind (check_events rest) (fun l => Ret (IStr e :: l))
      else parser_error
  end.

(** [parseArgs()]: the dictionary [argConf], [whatToDo] and [setParams]. *)
Definition parseArgs (env : Env) (args : Args.t)
  : res (gmap string value * list string * list string) :=
  let argConf : gmap string value := {[ "pages" := VList [] ]} in
  let setParams : list string := [] in
  let argConf :=
    if Args.quiet args then <["verbosity" := VItem (INum (-1))]> argConf
    else <["verbosity" := VItem (INum (Z.of_nat (Args.verbose args)))]> argConf in
  res_bind
    (match truthy_list (Args.page args) with
     | Some ps =>
         res_bind (parse_pages env ps [] (setParams ++ ["pages"])) (fun '(pages, setParams) =>
           Ret (<["pages" := VList (IPage <$> pages)]> argConf, setParams))
     | None => Ret (argConf, setParams)
     end) (fun '(argConf, setParams) =>
  let '(argConf, setParams) :=
    match truthy_str (Args.browser args) with
    | Some b => (<["browser" := VItem (IStr b)]> argConf, setParams ++ ["browser"])
    | None => (<["browser" := VItem (IStr _default_browser)]> argConf, setParams)
    end in
  let setParams := if Args.use_xvfb args then setParams ++ ["use_xvfb"] else setParams in
  let argConf := <["use_xvfb" := VItem (IBool (Args.use_xvfb args))]> argConf in
  res_bind
    (match truthy_list (Args.event_list args) with
     | Some es =>
         res_bind (check_events es) (fun l =>
           Ret (<["event_list" := VList l]> argConf, setParams ++ ["event_list"]))
     | None =>
         Ret (<["event_list" := VList (IStr <$> _valid_notification_events)]> argConf,
              setParams)
     end) (fun '(argConf, setParams) =>
  let '(argConf, setParams) :=
    match truthy_str (Args.log_path args) with
    | Some l => (<["log_path" := VItem (IStr l)]> argConf, setParams ++ ["log_path"])
    | None =>
        (<["log_path" := VItem (IStr (home env +:+ "/" +:+ ".change-poller.log"))]> argConf,
         setParams)
    end in
  let whatToDo : list string := [] in
  let whatToDo := if Args.save_config args then whatToDo ++ ["save-config"] else whatToDo in
  let whatToDo := if Args.print_config args then whatToDo ++ ["print-config"] else whatToDo in
  let '(argConf, setParams) :=
    match truthy_str (Args.config_file args) with
    | Some c => (<["data_dir" := VItem (IStr c)]> argConf, setParams ++ ["config_file"])
    | None => (argConf, setParams)
    end in
  let '(argConf, setParams) :=
    match truthy_str (Args.data_dir args) with
    | Some d => (<["data_dir" := VItem (IStr d)]> argConf, setParams ++ ["data_dir"])
    | None => (argConf, setParams)
    end in
  let whatToDo :=
    if bool_decide (whatToDo = []) && negb (Args.no_run args)
    then whatToDo ++ ["run"] else whatToDo in
  if bool_decide ("run" ∈ whatToDo)
     && negb (match argConf !! "browser" with
              | Some (VItem (IStr b)) => webdriver_has env b
              | _ => false
              end)
  then parser_error
  else Ret (argConf, whatToDo, setParams))).

(** ** getConfig *)

(** [os.path.sep.join(parts)]. *)
Fixpoint sep_join (parts : list string) : string :=
  match parts with
  | [] => ""
  | [p] => p
  | p :: rest => p +:+ "/" +:+ sep_join rest
  end.

(** Lines 336 to 347: the guessed configuration file. *)
Definition default_config_file (env : Env) : string :=
  let config_dir :=
    match XDG_CONFIG_HOME env with
    | None => sep_join [home env; ".config"]
    | Some d => d
    end in
  sep_join [config_dir; "change-poller"; "config"].

(** Lines 401 to 409: the guessed data directory. *)
Definition default_data_dir (env : Env) : string :=
  let data_dir :=
    match XDG_DATA_HOME env with
    | None => sep_join [home env; ".local"; "share"]
    | Some d => d
    end in
  data_dir +:+ "/" +:+ "change-poller".

(** Lines 372 to 381: the loop over [conf[k]]; [stored] is
    [fileConf[k]], which grows while the loop runs. *)
Fixpoint merge_list (k : string) (cli stored : list item) (addedPageUrls : list string)
  : res (list item * list string) :=
  match cli with
  | [] => Ret (stored, addedPageUrls)
  | i :: rest =>
      if py_in i stored then merge_list k rest stored addedPageUrls
      else
        res_bind
          (if decide (k = "pages")
           then res_bind (item_url i) (fun u => Ret (addedPageUrls ++ [u]))
           else Ret addedPageUrls)
          (fun addedPageUrls' => merge_list k rest (stored ++ [i]) addedPageUrls')
  end.

(** Lines 366 to 384: the body of the loop over the keys of [fileConf]. *)
Definition merge_key (setParams : list string) (k : string) (fv : value)
    (conf : gmap string value) (addedPageUrls : list string)
  : res (gmap string value * list string) :=
  match conf !! k with
  | Some cv =>
      if bool_decide (k ∈ setParams) then
        match fv with
        | VList stored =>
            res_bind (py_iter cv) (fun cli =>
              res_bind (merge_list k cli stored addedPageUrls) (fun '(merged, added) =>
                Ret (<[k := VList merged]> conf, added)))
        | VItem _ => Ret (conf, addedPageUrls)
        end
      else Ret (<[k := fv]> conf, addedPageUrls)
  | None => Ret (<[k := fv]> conf, addedPageUrls)
  end.

Fixpoint merge_keys (setParams : list string) (kvs : list (string * value))
    (conf : gmap string value) (addedPageUrls : list string)
  : res (gmap string value * list string) :=
  match kvs with
  | [] => Ret (conf, addedPageUrls)
  | (k, fv) :: rest =>
      res_bind (merge_key setParams k fv conf addedPageUrls) (fun '(conf', added') =>
        merge_keys setParams rest conf' added')
  end.

(** Lines 364 to 384: [for k in fileConf]. *)
Definition merge_config (setParams : list string) (fileConf conf : gmap string value)
  : res (gmap string value * list string) :=
  merge_keys setParams (map_to_list fileConf) conf [].

(** [p[:p.rfind('/') + 1]]. *)
Fixpoint upto_last_slash (p : string) : string :=
  match p with
  | EmptyString => EmptyString
  | String c p' => if str_mem "/" p then String c (upto_last_slash p') else EmptyString
  end.

Definition rstrip (c : ascii) (s : string) : string := str_rev (lstrip c (str_rev s)).

(** [os.path.dirname(p)] of [posixpath]: the head up to the last slash,
    without its trailing slashes unless it consists of slashes only. *)
Definition dirname (p : string) : string :=
  let head := upto_last_slash p in
  if decide (lstrip "/" head = "") then head else rstrip "/" head.

(** [if not os.path.isdir(d): os.makedirs(d, mode=0o700)], lines 354 to
    356 and 414 to 416. *)
Definition ensure_dir (env : Env) (d : string) : M unit :=
  fun st =>
    if isdir env (ops st) d then (Ret tt, st)
    else perform env (Makedirs d) st.

(** [with open(v, 'w') as f: f.write(formatJSON(conf))]: [open] takes a
    [str] for a path and an [int] for a file descriptor. *)
Definition write_config (env : Env) (v : value) (conf : gmap string value) : M unit :=
  match v with
  | VItem (IStr path) => perform env (WriteConfig path conf)
  | VItem (INum fd) => perform env (WriteConfigFd fd conf)
  | VItem (IBool b) => perform env (WriteConfigFd (if b then 1 else 0) conf)
  | VItem (IPage _) | VList _ => raise TypeError
  end.

(** [getConfig(conf, setParams)].  The result is [conf], [addedPageUrls]
    and the local flag [save_default_config].  A [conf['data_dir']] that
    is not a [str] makes [os.path.isdir] or [os.makedirs] raise
    [TypeError] (an [int] is read as a file descriptor, taken not to be
    an open directory). *)
Definition getConfig (env : Env) (conf : gmap string value) (setParams : list string)
  : M (gmap string value * list string * bool) :=
  let conf :=
    match conf !! "config_file" with
    | Some _ => conf
    | None => <["config_file" := VItem (IStr (default_config_file env))]> conf
    end in
  path <- lift (match conf !! "config_file" with
                | Some v => as_str v
                | None => Raise KeyError
                end) ;;
  ensure_dir env (dirname path) ;;;
  r <-
    (match read_config env path with
     | Ret fileConf =>
         r <- lift (merge_config setParams fileConf conf) ;;
         ret (r, false)
     | Raise err =>
         if isinstance err OSError || isinstance err JSONDecodeError then
           _log WARNING "Failed to load config file, is this first time running? Using defaults and trying to save afterwards." false ;;;
           ret ((conf, []), true)
         else raise err
     end) ;;
  let '((conf, addedPageUrls), save_default_config) := r in
  let conf :=
    match conf !! "data_dir" with
    | Some _ => conf
    | None => <["data_dir" := VItem (IStr (default_data_dir env))]> conf
    end in
  data_dir <- lift (match conf !! "data_dir" with
                    | Some v => as_str v
                    | None => Raise KeyError
                    end) ;;
  ensure_dir env data_dir ;;;
  (if save_default_config then
     target <- lift (match conf !! "config_file" with
                     | Some v => Ret v
                     | None => Raise KeyError
                     end) ;;
     write_config env target conf
   else ret tt) ;;;
  ret (conf, addedPageUrls, save_default_config).

(** [logger.addHandler(ch)] and [logger.addHandler(fh)]. *)
Definition add_handlers : M unit :=
  fun st => (Ret tt, MkSt (fs st) (log st) (writes st) true (ops st)).

(** [setupLogger(conf)], lines 604 to 648: a verbosity outside
    [_verbosityToLevel] leaves the program; otherwise the file handler
    opens [conf['log_path']] and the two handlers are added. *)
Definition setupLogger (env : Env) (conf : gmap string value) : M unit :=
  fun st =>
    if has_handlers st then (Ret tt, st)
    else
      match conf !! "verbosity" with
      | Some (VItem (IPage _)) | Some (VList _) => (Raise TypeError, st)   (* unhashable *)
      | Some (VItem v) =>
          if py_in v [INum (-1); INum 0; INum 1; INum 2]
          then
            (path <- lift (match conf !! "log_path" with
                           | Some v => as_str v
                           | None => Raise KeyError
                           end) ;;
             perform env (OpenLog path) ;;;
             add_handlers) st
          else (Raise SystemExit, st)
      | None => (Raise KeyError, st)
      end.

(** The first lines of [main], 38 to 43: the configuration of the run,
    with [whatToDo], [addedPageUrls] and [save_default_config]. *)
Definition main_config (env : Env) (args : Args.t)
  : M (gmap string value * list string * list string * bool) :=
  r <- lift (parseArgs env args) ;;
  let '(argConf, whatToDo, setParams) := r in
  setupLogger env argConf ;;;
  r <- getConfig env argConf setParams ;;
  let '(conf, addedPageUrls, save_default_config) := r in
  ret (conf, whatToDo, addedPageUrls, save_default_config).

(** [conf['pages']] as the loop of [run] reads it. *)
Fixpoint pages_of_items (l : list item) : res (list Page.t) :=
  match l with
  | [] => Ret []
  | IPage p :: rest => res_bind (pages_of_items rest) (fun ps => Ret (p :: ps))
  | _ :: _ => Raise TypeError
  end.

Definition conf_pages (conf : gmap string value) : res (list Page.t) :=
  match conf !! "pages" with
  | Some (VList l) => pages_of_items l
  | Some (VItem _) => Raise TypeError
  | None => Raise KeyError
  end.

(** [main()].  Printing the configuration is reduced to its log
    record. *)
Definition main (env : Env) (w : World) (args : Args.t) : M unit :=
  r <- main_config env args ;;
  let '(conf, whatToDo, addedPageUrls, _) := r in
  (if bool_decide ("print-config" ∈ whatToDo)
   then _log INFO "Printing out configuration" false
   else ret tt) ;;;
  (if bool_decide ("save-config" ∈ whatToDo)
   then
     target <- lift (match conf !! "config_file" with
                     | Some v => Ret v
                     | None => Raise KeyError
                     end) ;;
     _log INFO "Saving configuration" false ;;;
     write_config env target conf
   else ret tt) ;;;
  if bool_decide ("run" ∈ whatToDo) then
    pages <- lift (conf_pages conf) ;;
    data_dir <- lift (match conf !! "data_dir" with
                      | Some v => as_str v
                      | None => Raise KeyError
                      end) ;;
    main_run w pages data_dir addedPageUrls
  else ret tt.

(** The page list of a configuration, for statements: the entries of
    [conf['pages']], none when the key is absent or not a list. *)
Definition page_items (conf : gmap string value) : list item :=
  match conf !! "pages" with
  | Some (VList l) => l
  | _ => []
  end.

(** * Definitions used in the statements *)

Definition nl : string := String LF EmptyString.

(** [strip_prefix p s]: [s] without its prefix [p], if it has it. *)
Fixpoint strip_prefix (p s : string) : option string :=
  match p, s with
  | EmptyString, _ => Some s
  | String a p', String b s' => if Ascii.eqb a b then strip_prefix p' s' else None
  | String _ _, EmptyString => None
  end.

(** What follows the first occurrence of the separator [://] in [s];
    [None] when [s] does not contain it. *)
Fixpoint after_sep (s : string) : option string :=
  match strip_prefix "://" s with
  | Some rest => Some rest
  | None =>
      match s with
      | EmptyString => None
      | String _ s' => after_sep s'
      end
  end.

Fixpoint underscores (n : nat) : string :=
  match n with
  | O => EmptyString
  | S n' => String "_" (underscores n')
  end.

Definition starts_with (c : ascii) (s : string) : bool :=
  match s with
  | String d _ => Ascii.eqb d c
  | EmptyString => false
  end.

Definition ends_with (c : ascii) (s : string) : bool := starts_with c (str_rev s).


(** The state [st] with the records [l] added to its log. *)
Definition logged (l : list (level * string)) (st : St) : St :=
  MkSt (fs st) (log st ++ l) (writes st) (has_handlers st) (ops st).

(** In a state dictionary kept by the program a set [error] comes with
    its [error_description]. *)
Definition described (d : State.t) : Prop :=
  State.error d = true -> is_Some (State.error_description d).

(** ** Sample data *)

(** A world whose browser shows [text] under title [Example], whose
    [re.search] yields [groups], and whose disk fails as [fault] says. *)
Definition sample_world (text : res string) (groups : res (option (list Fragment)))
    (fault : nat -> string -> bool) : World :=
  {| clock := fun i => 1700000000 + Z.of_nat i;
     browser_get := fun _ _ => None;
     find_text := fun _ _ => text;
     browser_title := fun _ => "Example";
     re_search := fun _ _ => groups;
     disk_fault := fault;
     sinks_raise := None |}.

Definition no_fault : nat -> string -> bool := fun _ _ => false.

Definition sample_page : Page.t := Page.mk "http://a.example.com/news" "h1" None.
Definition sample_page_rx : Page.t :=
  Page.mk "http://a.example.com/news" "h1" (Some "(\d+) of (\d+)").

Definition sample_state (content : list Fragment) : State.t :=
  State.mk 1600000000 1650000000 "Example" "http://a.example.com/news"
    "a.example.com" content false None None.

Definition sample_st (files : gmap string file) : St := mkSt files [] 0 true.

Definition url_A : string := "http://a.example.com/news".
Definition url_B : string := "http://b.example.org/news".
Definition file_A : string := "/data/a.example.com_news".
Definition file_B : string := "/data/b.example.org_news".

(** The state of [url_A] with a move to [url_B] pending. *)
Definition moving_state : State.t :=
  State.mk 1600000000 1650000000 "Example" url_A "a.example.com"
    [Some "v1"] false None (Some url_B).

(** The disk refuses the first attempt to write and no later one. *)
Definition first_write_fails : nat -> string -> bool :=
  fun n _ => Nat.eqb n 0.

(** [d] is the path [p] or one of the directories above it. *)
Definition is_above (d p : string) : bool :=
  bool_decide (d = p)
  || match strip_prefix (d +:+ "/") p with Some _ => true | None => false end.

(** The directories made by the operations [hist]. *)
Definition made_dirs (hist : list fs_op) : list string :=
  omap (fun op => match op with Makedirs p => Some p | _ => None end) hist.

(** The paths to which the operations [hist] have written a
    configuration. *)
Definition written_configs (hist : list fs_op) : list string :=
  omap (fun op => match op with WriteConfig p _ => Some p | _ => None end) hist.

(** An environment without XDG variables in which the regular file
    [cfg_path] holds the configuration [stored] and no other file can be
    read.  The directories are those above [cfg_path], the home
    directory with those above it, and the ones made since; a directory
    can be made unless the file [cfg_path] is in the way; the log file
    and the configuration file can be written. *)
Definition sample_env (cfg_path : string) (stored : gmap string value) : Env :=
  {| home := "/home/u";
     XDG_CONFIG_HOME := None;
     XDG_DATA_HOME := None;
     webdriver_has := fun b => bool_decide (b = "Firefox");
     re_compiles := fun _ => true;
     read_config := fun p => if decide (p = cfg_path) then Ret stored else Raise OSError;
     isdir := fun hist d =>
                existsb (is_above d) (dirname cfg_path :: "/home/u" :: made_dirs hist);
     fs_fault := fun _ op =>
                   match op with
                   | Makedirs p => if is_above cfg_path p then Some OSError else None
                   | _ => None
                   end |}.

Definition default_path : string := "/home/u/.config/change-poller/config".


Definition res_map {A B} (f : A -> B) (r : res A) : res B :=
  match r with
  | Ret a => Ret (f a)
  | Raise e => Raise e
  end.

(** What the statements look at in the result of [parseArgs]: the
    entries [config_file] and [data_dir] of [argConf], its pages,
    [whatToDo] and [setParams]. *)
Definition args_view (r : res (gmap string value * list string * list string))
  : res (option value * option value * list item * list string * list string) :=
  res_map (fun '(argConf, whatToDo, setParams) =>
             (argConf !! "config_file", argConf !! "data_dir", page_items argConf,
              whatToDo, setParams)) r.

(** What the statements look at in the result of [main_config]: the
    entries [config_file] and [data_dir] of [conf], its pages,
    [addedPageUrls], [save_default_config] and the log. *)
Definition config_view
    (r : res (gmap string value * list string * list string * bool) * St)
  : res (option value * option value * list item * list string * bool)
    * list (level * string) :=
  (res_map (fun '(conf, _, addedPageUrls, save_default_config) =>
              (conf !! "config_file", conf !! "data_dir", page_items conf,
               addedPageUrls, save_default_config)) (fst r),
   log (snd r)).

(** The directory [d] is there or can be made, whatever was done
    before. *)
Definition dir_ready (env : Env) (d : string) : Prop :=
  forall hist, isdir env hist d = true \/ fs_fault env hist (Makedirs d) = None.

(** The log file [p] can be opened, whatever was done before. *)
Definition log_ready (env : Env) (p : string) : Prop :=
  forall hist, fs_fault env hist (OpenLog p) = None.

(** The urls of a list of page entries. *)
Definition urls_of (l : list item) : list string :=
  omap (fun i => match i with IPage p => Some (Page.url p) | _ => None end) l.

(** The state in which a program starts: files as given, empty log,
    no handler on the logger. *)
Definition start (files : gmap string file) : St := mkSt files [] 0 false.

(** * Further definitions used in the statements *)

(** The characters the substitution of [getSafeFilename] lets through. *)
Definition safe_char (c : ascii) : bool := is_word c || one_of "-_. " c.

(** [all_chars p s]: every character of [s] satisfies [p]. *)
Fixpoint all_chars (p : ascii -> bool) (s : string) : bool :=
  match s with
  | EmptyString => true
  | String c s' => p c && all_chars p s'
  end.

(** A pattern without [$]. *)
Fixpoint no_eol (r : regex) : bool :=
  match r with
  | Eps | Chr _ | Star _ => true
  | Seq r1 r2 => no_eol r1 && no_eol r2
  | Opt r1 | Rep r1 _ _ => no_eol r1
  | Eol => false
  end.

(** [ext t k k']: where the continuation [k] accepts a rest of the
    input, [k'] accepts that rest followed by [t]. *)
Definition ext {A} (t : string) (k k' : string -> option A) : Prop :=
  forall x, is_Some (k x) -> is_Some (k' (x +:+ t)).

(** The state from which a page without usable data file is polled. *)
Definition default_state (url domain : string) : State.t :=
  State.mk 0 0 "" url domain [] false None None.

(** The entries that [poll_page] adds to [allChanges]. *)
Definition change_list (change : option Change.t) : list Change.t :=
  match change with
  | Some c => [c]
  | None => []
  end.

(** [p] is the data file of one of [pages] under [data_dir]. *)
Definition data_file_of (data_dir : string) (pages : list Page.t) (p : string) : Prop :=
  exists page name,
    page ∈ pages /\ getSafeFilename (Page.url page) = Ret name
    /\ p = path_join data_dir name.

(** How the merge treats a key [k] that the stored configuration holds
    with value [fv]: [conf'] is the merged configuration, [conf] the one
    of the command line. *)
Definition key_merged (setParams : list string) (conf : gmap string value)
    (k : string) (fv : value) (conf' : gmap string value) : Prop :=
  match conf !! k with
  | Some cv =>
      if bool_decide (k ∈ setParams) then
        match fv with
        | VItem _ => conf' !! k = Some cv
        | VList stored =>
            exists merged, conf' !! k = Some (VList merged) /\ stored `prefix_of` merged
        end
      else conf' !! k = Some fv
  | None => conf' !! k = Some fv
  end.

(** A page that passed the checks of lines 223 to 238. *)
Definition good_page (env : Env) (p : Page.t) : Prop :=
  re_match url_regex (Page.url p) = true
  /\ forall rx, Page.regex p = Some rx -> re_compiles env rx = true.

(** The loop of lines 119 to 126 of [main]; [None] when the fuel runs
    out, [LookupError] for the [IndexError] of [changes[i]]. *)
Fixpoint sites_loop (fuel : nat) (changes : list Change.t) (m i : nat)
    (sites : list string) : option (res (list string)) :=
  match fuel with
  | O => None
  | S fuel' =>
      if (length sites <? m)%nat then
        match changes !! i with
        | None => Some (Raise LookupError)
        | Some c =>
            let sites :=
              if bool_decide (Change.domain c ∈ sites) then sites
              else sites ++ [Change.domain c] in
            let i := S i in
            if (length changes <=? i)%nat then Some (Ret sites)
            else sites_loop fuel' changes m i sites
        end
      else Some (Ret sites)
  end.

(** Lines 113 to 129 of [main]: the sites named in the notification. *)
Definition notify_sites (changes : list Change.t) : option (res (list string)) :=
  let changed_count := length changes in
  let m := Nat.min changed_count 3 in
  match sites_loop (S changed_count) changes m 0 [] with
  | Some (Ret sites) =>
      Some (Ret (if (length sites <? changed_count)%nat then sites ++ ["..."] else sites))
  | other => other
  end.

(** * Properties *)

(** ** Regular expressions and the slug function *)


Example slug_ex1 : getSafeFilename "https://example.com/a?b=1" = Ret "example.com_a_b_1".
Proof. vm_compute. reflexivity. Qed.
Example slug_ex2 : getSafeFilename ("http://ab.cd" +:+ nl +:+ "x") = Raise AttributeError.
Proof. vm_compute. reflexivity. Qed.
Example slug_ex3 : getSafeFilename ("a://b" +:+ nl +:+ "c://d") = Ret "d".
Proof. vm_compute. reflexivity. Qed.
Example url_ex1 : re_match url_regex "https://example.com/a?b=1" = true.
Proof. vm_compute. reflexivity. Qed.
Example url_ex2 : re_match url_regex ("http://ab.cd" +:+ nl +:+ "x") = true.
Proof. vm_compute. reflexivity. Qed.
Example url_ex3 : re_match url_regex "ftp://ab.cd" = false.
Proof. vm_compute. reflexivity. Qed.
Example dom_ex1 : domain_of "https://example.com/a?b=1" = Ret "example.com".
Proof. vm_compute. reflexivity. Qed.

Section Slug.

Lemma run_lit {A} (p : string) (k : string -> option A) (s : string) :
  run_re (lit p) k s =
    match strip_prefix p s with
    | Some rest => k rest
    | None => None
    end.
Proof.
  revert s. induction p as [|a p IH]; intros s; simpl; [reflexivity|].
  destruct s as [|b s]; [reflexivity|].
  destruct (Ascii.eqb a b); [apply IH | reflexivity].
Qed.

Lemma strip_prefix_app (p s rest : string) :
  strip_prefix p s = Some rest -> s = p +:+ rest.
Proof.
  revert s. induction p as [|a p IH]; intros s H.
  - injection H as <-. reflexivity.
  - destruct s as [|b s]; [discriminate|]. cbn [strip_prefix] in H.
    destruct (Ascii.eqb_spec a b) as [->|]; [|discriminate].
    change (String b s = String b (p +:+ rest)). f_equal. apply IH, H.
Qed.

Lemma str_take_all (s : string) : str_take (String.length s) s = s.
Proof. induction s as [|c s IH]; simpl; [reflexivity | now rewrite IH]. Qed.

Lemma captured_all (s : string) : captured s "" = s.
Proof. unfold captured. simpl. rewrite Nat.sub_0_r. apply str_take_all. Qed.

(** On text without line feed, the group of [remove_protocol] takes
    all of it. *)
Lemma star_dot_eol {A} (f : string -> A) (t : string) :
  str_mem LF t = false ->
  star dot (fun s2 => at_eol (fun _ => Some (f s2)) s2) t = Some (f "").
Proof.
  induction t as [|c t IH]; simpl; intros H; [reflexivity|].
  apply orb_false_elim in H as [Hc Ht].
  unfold dot at 1. rewrite Hc. simpl. now rewrite (IH Ht).
Qed.

Lemma remove_protocol_at (s rest : string) :
  strip_prefix "://" s = Some rest -> str_mem LF rest = false ->
  remove_protocol_search s = Some rest.
Proof.
  intros Hp Hnl. unfold remove_protocol_search, search_group1.
  destruct s as [|c s].
  - discriminate.
  - cbn [search_from]. rewrite run_lit, Hp. cbn [run_re].
    rewrite (star_dot_eol (captured rest) rest Hnl), captured_all.
    reflexivity.
Qed.

Lemma remove_protocol_skip {A} (k : string -> option A) (c : ascii) (s : string) :
  strip_prefix "://" (String c s) = None ->
  search_from (run_re (lit "://") k) (String c s) = search_from (run_re (lit "://") k) s.
Proof.
  intros Hp. cbn [search_from]. rewrite run_lit, Hp. reflexivity.
Qed.

Lemma remove_protocol_found (s rest : string) :
  after_sep s = Some rest -> str_mem LF rest = false ->
  remove_protocol_search s = Some rest.
Proof.
  induction s as [|c s IH]; intros Ha Hnl.
  - discriminate.
  - cbn [after_sep] in Ha.
    destruct (strip_prefix "://" (String c s)) as [r|] eqn:Hp.
    + injection Ha as ->. now apply remove_protocol_at.
    + unfold remove_protocol_search, search_group1.
      rewrite remove_protocol_skip by exact Hp. now apply IH.
Qed.

Lemma remove_protocol_absent (s : string) :
  after_sep s = None -> remove_protocol_search s = None.
Proof.
  unfold remove_protocol_search, search_group1.
  induction s as [|c s IH]; intros Ha.
  - reflexivity.
  - cbn [after_sep] in Ha.
    destruct (strip_prefix "://" (String c s)) as [r|] eqn:Hp; [discriminate|].
    rewrite remove_protocol_skip by exact Hp. now apply IH.
Qed.


Lemma after_sep_here (s rest : string) :
  strip_prefix "://" s = Some rest -> after_sep s = Some rest.
Proof. intros H. destruct s; cbn [after_sep]; now rewrite H. Qed.

Lemma orelse_is_Some {A} (x y : option A) :
  is_Some (orelse x y) -> is_Some x \/ is_Some y.
Proof. destruct x; simpl; eauto. Qed.

(** A string accepted by [url_regex] starts with [http://] or
    [https://]. *)
Lemma url_regex_has_sep (s : string) :
  re_match url_regex s = true -> is_Some (after_sep s).
Proof.
  unfold re_match, url_regex. intros H. apply bool_decide_eq_true in H.
  cbn [run_re] in H. rewrite run_lit in H.
  destruct (strip_prefix "http" s) as [r1|] eqn:Hh; [|now destruct H].
  apply strip_prefix_app in Hh. subst s.
  apply orelse_is_Some in H as [H|H].
  - destruct r1 as [|c r2]; [now destruct H|].
    destruct (Ascii.eqb_spec "s" c) as [<-|]; [|now destruct H].
    rewrite run_lit in H.
    destruct (strip_prefix "://" r2) as [r3|] eqn:Hs; [|now destruct H].
    exists r3. apply after_sep_here in Hs. exact Hs.
  - rewrite run_lit in H.
    destruct (strip_prefix "://" r1) as [r3|] eqn:Hs; [|now destruct H].
    exists r3. apply after_sep_here in Hs. exact Hs.
Qed.

Lemma str_app_cons (c : ascii) (s t : string) :
  String c s +:+ t = String c (s +:+ t).
Proof. reflexivity. Qed.

Lemma str_app_nil_l (t : string) : "" +:+ t = t.
Proof. reflexivity. Qed.

Lemma str_app_nil_r (s : string) : s +:+ "" = s.
Proof.
  induction s as [|c s IH]; [reflexivity|].
  now rewrite str_app_cons, IH.
Qed.

Lemma str_app_assoc (a b c : string) : (a +:+ b) +:+ c = a +:+ (b +:+ c).
Proof.
  induction a as [|x a IH]; [reflexivity|].
  now rewrite !str_app_cons, IH.
Qed.

Lemma str_rev_onto_app (s acc : string) :
  str_rev_onto s acc = str_rev s +:+ acc.
Proof.
  unfold str_rev. revert acc.
  induction s as [|c s IH]; intros acc; simpl; [reflexivity|].
  rewrite (IH (String c acc)), (IH (String c EmptyString)).
  now rewrite str_app_assoc.
Qed.

Lemma str_rev_app (a b : string) : str_rev (a +:+ b) = str_rev b +:+ str_rev a.
Proof.
  induction a as [|x a IH].
  - now rewrite str_app_nil_l, str_app_nil_r.
  - rewrite str_app_cons. unfold str_rev at 1 3. cbn [str_rev_onto].
    rewrite !str_rev_onto_app, IH.
    now rewrite str_app_assoc.
Qed.

Lemma str_rev_involutive (s : string) : str_rev (str_rev s) = s.
Proof.
  induction s as [|c s IH]; [reflexivity|].
  unfold str_rev at 2. cbn [str_rev_onto].
  rewrite str_rev_onto_app, str_rev_app, IH.
  reflexivity.
Qed.

Lemma underscores_snoc (n : nat) :
  underscores n +:+ "_" = String "_" (underscores n).
Proof.
  induction n as [|n IH]; [reflexivity|].
  cbn [underscores]. now rewrite str_app_cons, IH.
Qed.

Lemma str_rev_underscores (n : nat) : str_rev (underscores n) = underscores n.
Proof.
  induction n as [|n IH]; [reflexivity|].
  unfold str_rev. cbn [underscores str_rev_onto].
  rewrite str_rev_onto_app, IH. apply underscores_snoc.
Qed.

Lemma lstrip_spec (s : string) :
  exists n, s = underscores n +:+ lstrip "_" s /\ starts_with "_" (lstrip "_" s) = false.
Proof.
  induction s as [|c s (n & Hs & Hn)].
  - exists O. split; reflexivity.
  - cbn [lstrip]. destruct (Ascii.eqb_spec c "_") as [->|Hc].
    + exists (S n). cbn [underscores]. rewrite str_app_cons.
      split; [now f_equal | exact Hn].
    + exists O. split; [reflexivity|].
      now apply Ascii.eqb_neq.
Qed.

(** [strip] removes a run of underscores at each end and leaves none
    there. *)
Lemma strip_spec (t : string) :
  exists a b,
    t = underscores a +:+ strip "_" t +:+ underscores b
    /\ starts_with "_" (strip "_" t) = false
    /\ ends_with "_" (strip "_" t) = false.
Proof.
  unfold strip, ends_with.
  destruct (lstrip_spec t) as (a & Ht & Ha).
  destruct (lstrip_spec (str_rev (lstrip "_" t))) as (b & Hr & Hb).
  set (t' := lstrip "_" t) in *. set (r1 := lstrip "_" (str_rev t')) in *.
  assert (Ht' : t' = str_rev r1 +:+ underscores b).
  { rewrite <- (str_rev_involutive t'), Hr, str_rev_app, str_rev_underscores.
    reflexivity. }
  exists a, b. repeat split.
  - rewrite Ht at 1. now rewrite Ht' at 1.
  - rewrite Ht' in Ha. destruct (str_rev r1); [reflexivity | exact Ha].
  - now rewrite str_rev_involutive.
Qed.

End Slug.

(** C10, as amended.  For an input that contains the separator [://]
    and has no line feed after its first occurrence, [getSafeFilename]
    returns a result: the text after the first separator, each character
    outside word characters, hyphen, underscore, dot and space replaced
    by an underscore, without the underscores at both ends.  For an input
    without the separator it fails.  Every url accepted by the url
    grammar of the command line contains the separator. *)
Theorem getSafeFilename_spec (s : string) :
  (forall rest, after_sep s = Some rest -> str_mem LF rest = false ->
     exists a b slug,
       getSafeFilename s = Ret slug
       /\ str_map (fun c => if is_word c || one_of "-_. " c then c else "_"%char) rest
          = underscores a +:+ slug +:+ underscores b
       /\ starts_with "_" slug = false /\ ends_with "_" slug = false)
  /\ (after_sep s = None -> getSafeFilename s = Raise AttributeError)
  /\ (re_match url_regex s = true -> is_Some (after_sep s)).
Proof.
  split; [|split].
  - intros rest Ha Hnl. unfold getSafeFilename.
    rewrite (remove_protocol_found s rest Ha Hnl).
    destruct (strip_spec (re_sub_suspicious rest)) as (a & b & Heq & Hs & He).
    exists a, b, (strip "_" (re_sub_suspicious rest)). repeat split; try assumption.
    rewrite <- Heq. unfold re_sub_suspicious, suspicious.
    clear. induction rest as [|c r IH]; simpl; [reflexivity|].
    rewrite IH. now destruct (is_word c || one_of "-_. " c).
  - intros Ha. unfold getSafeFilename. now rewrite (remove_protocol_absent s Ha).
  - apply url_regex_has_sep.
Qed.

Lemma getSafeFilename_spec_witness :
  after_sep "https://example.com/a?b=1" = Some "example.com/a?b=1"
  /\ str_mem LF "example.com/a?b=1" = false
  /\ exists a b slug,
       getSafeFilename "https://example.com/a?b=1" = Ret slug
       /\ str_map (fun c => if is_word c || one_of "-_. " c then c else "_"%char)
            "example.com/a?b=1"
          = underscores a +:+ slug +:+ underscores b
       /\ starts_with "_" slug = false /\ ends_with "_" slug = false.
Proof.
  split; [reflexivity|]. split; [reflexivity|].
  apply (proj1 (getSafeFilename_spec "https://example.com/a?b=1")); reflexivity.
Defined.

(** C10, as stated, fails: this string is accepted by the url grammar
    and contains the separator, and the slug function raises on it. *)
Lemma getSafeFilename_line_feed :
  re_match url_regex ("http://ab.cd" +:+ nl +:+ "x") = true
  /\ after_sep ("http://ab.cd" +:+ nl +:+ "x") = Some ("ab.cd" +:+ nl +:+ "x")
  /\ getSafeFilename ("http://ab.cd" +:+ nl +:+ "x") = Raise AttributeError.
Proof. repeat split; vm_compute; reflexivity. Qed.

(** ** The change detector *)

Section Detect.

Lemma _log_plain (lv : level) (msg : string) (st : St) :
  _log lv msg false st = (Ret tt, logged [(lv, msg)] st).
Proof. unfold _log. now rewrite andb_false_r. Qed.

Lemma clear_error_described (fd : State.t) (st : St) :
  described fd ->
  exists st',
    clear_error fd st
      = (Ret (State.mk (State.last_content_change fd) (State.last_check fd)
                (State.title fd) (State.url fd) (State.domain fd)
                (State.content fd) false
                (if State.error fd then None else State.error_description fd)
                (State.new_url fd)), st')
    /\ fs st' = fs st
    /\ (State.error fd = false -> st' = st).
Proof.
  intros Hwf. destruct fd as [lcc lc ti u dom c e ed nu].
  unfold described, clear_error in *. cbn in *. destruct e.
  - destruct (Hwf eq_refl) as [d ->]. unfold bind. rewrite _log_plain.
    eexists. split; [reflexivity|]. split; [reflexivity | discriminate].
  - eexists. split; [reflexivity|]. split; reflexivity.
Qed.

Lemma added_is_difference (old new : gset Fragment) :
  list_to_set (filter (fun x => x ∉ old) (elements new)) = new ∖ old.
Proof.
  apply set_eq. intros x.
  rewrite elem_of_list_to_set, list_elem_of_filter, elem_of_elements, elem_of_difference.
  tauto.
Qed.

Lemma added_NoDup (old new : gset Fragment) :
  NoDup (filter (fun x => x ∉ old) (elements new)).
Proof. apply NoDup_filter, NoDup_elements. Qed.

(** A failing fetch that the [except] clause catches. *)
Lemma detect_failure (w : World) (i : nat) (page : Page.t) (fd : State.t)
    (e : exn) (st : St) :
  fetch w i page = Raise e -> caught e = true ->
  detect w i page fd st
    = (Ret (State.mk (State.last_content_change fd) (clock w i)
              (State.title fd) (State.url fd) (State.domain fd)
              (State.content fd) true (Some (describe e)) (State.new_url fd),
            None),
       logged [if State.error fd
               then (INFO, "Query is still erroring out.")
               else (WARNING, "Query erroring out!")] st).
Proof.
  intros Hf Hc. unfold detect. rewrite Hf, Hc.
  destruct fd as [lcc lc ti u dom c e0 ed nu].
  unfold on_fetch_error. cbn [State.error negb].
  destruct e0; cbn [negb]; unfold bind; rewrite _log_plain; reflexivity.
Qed.

End Detect.

(** C1.  When a fetch succeeds with fragments that form the same set as
    the stored content, in whatever order, [detect] yields no change
    record and leaves [content], [title] and [last_content_change] as
    they were; [last_check] becomes the time of the poll.  Nothing else
    changes but the error flag, which the success clears; for a page that
    was not in error the new state is the old one with [last_check]
    updated. *)
Theorem detect_same_set (w : World) (i : nat) (page : Page.t) (fd : State.t)
    (content : list Fragment) (st : St) :
  fetch w i page = Ret content ->
  list_to_set content =@{gset Fragment} list_to_set (State.content fd) ->
  described fd ->
  exists fd' st',
    detect w i page fd st = (Ret (fd', None), st')
    /\ State.content fd' = State.content fd
    /\ State.title fd' = State.title fd
    /\ State.last_content_change fd' = State.last_content_change fd
    /\ State.last_check fd' = clock w i
    /\ State.url fd' = State.url fd
    /\ State.domain fd' = State.domain fd
    /\ State.new_url fd' = State.new_url fd
    /\ State.error fd' = false
    /\ (State.error fd = false -> fd' = State.set_last_check (clock w i) fd)
    /\ fs st' = fs st.
Proof.
  intros Hf Hset Hwf. unfold detect. rewrite Hf.
  destruct (clear_error_described fd st Hwf) as (st' & Hc & Hfs & _).
  unfold bind at 1 2. rewrite Hc. unfold ret at 1.
  unfold diff_content. cbn [State.content].
  rewrite decide_True by (symmetry; exact Hset).
  eexists _, st'. split; [reflexivity|]. cbn.
  repeat split; try assumption.
  intros He. destruct fd; cbn in *; subst. reflexivity.
Qed.

Lemma detect_same_set_witness :
  let w := sample_world (Ret "2 of 1") (Ret (Some [Some "2"; Some "1"])) no_fault in
  let fd := sample_state [Some "1"; Some "2"] in
  exists fd' st',
    detect w 0 sample_page_rx fd (sample_st ∅) = (Ret (fd', None), st')
    /\ State.content fd' = State.content fd
    /\ State.title fd' = State.title fd
    /\ State.last_content_change fd' = State.last_content_change fd
    /\ State.last_check fd' = clock w 0
    /\ State.url fd' = State.url fd
    /\ State.domain fd' = State.domain fd
    /\ State.new_url fd' = State.new_url fd
    /\ State.error fd' = false
    /\ (State.error fd = false -> fd' = State.set_last_check (clock w 0) fd)
    /\ fs st' = fs (sample_st ∅).
Proof.
  intros w fd.
  apply (detect_same_set w 0 sample_page_rx fd [Some "2"; Some "1"]).
  - reflexivity.
  - vm_compute. reflexivity.
  - discriminate.
Defined.

(** C2.  When a fetch succeeds with fragments whose set differs from
    that of the stored content, [detect] yields a change record whose
    [added] is the new set minus the old one and whose [removed] is the
    old set minus the new one, each without repetition, and the two have
    no element in common; [content] becomes the fetched fragments in the
    order of the fetch, [title] the title of the page, and
    [last_content_change] the time of the poll. *)
Theorem detect_changed_set (w : World) (i : nat) (page : Page.t) (fd : State.t)
    (content : list Fragment) (st : St) :
  fetch w i page = Ret content ->
  list_to_set content ≠@{gset Fragment} list_to_set (State.content fd) ->
  described fd ->
  exists fd' c st',
    detect w i page fd st = (Ret (fd', Some c), st')
    /\ list_to_set (Change.added c)
         =@{gset Fragment} list_to_set content ∖ list_to_set (State.content fd)
    /\ list_to_set (Change.removed c)
         =@{gset Fragment} list_to_set (State.content fd) ∖ list_to_set content
    /\ NoDup (Change.added c) /\ NoDup (Change.removed c)
    /\ (forall x, x ∈ Change.added c -> x ∉ Change.removed c)
    /\ State.content fd' = content
    /\ State.title fd' = browser_title w i
    /\ State.last_content_change fd' = clock w i
    /\ State.last_check fd' = clock w i
    /\ Change.title c = browser_title w i
    /\ Change.url c = State.url fd
    /\ Change.domain c = State.domain fd.
Proof.
  intros Hf Hset Hwf. unfold detect. rewrite Hf.
  destruct (clear_error_described fd st Hwf) as (st' & Hc & Hfs & _).
  unfold bind at 1 2. rewrite Hc. unfold ret at 1.
  unfold diff_content. cbn [State.content].
  rewrite decide_False by (intros Heq; apply Hset; symmetry; exact Heq).
  eexists _, _, st'. split; [reflexivity|]. cbn.
  split; [apply added_is_difference|].
  split; [apply added_is_difference|].
  split; [apply added_NoDup|].
  split; [apply added_NoDup|].
  split; [|repeat split].
  intros x Ha Hr.
  apply list_elem_of_filter in Ha as [Ha _].
  apply list_elem_of_filter in Hr as [_ Hr].
  apply elem_of_elements in Hr. contradiction.
Qed.

Lemma detect_changed_set_witness :
  let w := sample_world (Ret "v2") (Ret None) no_fault in
  let fd := sample_state [Some "v1"] in
  exists fd' c st',
    detect w 0 sample_page fd (sample_st ∅) = (Ret (fd', Some c), st')
    /\ list_to_set (Change.added c)
         =@{gset Fragment} list_to_set [Some "v2"] ∖ list_to_set (State.content fd)
    /\ list_to_set (Change.removed c)
         =@{gset Fragment} list_to_set (State.content fd) ∖ list_to_set [Some "v2"]
    /\ NoDup (Change.added c) /\ NoDup (Change.removed c)
    /\ (forall x, x ∈ Change.added c -> x ∉ Change.removed c)
    /\ State.content fd' = [Some "v2"]
    /\ State.title fd' = browser_title w 0
    /\ State.last_content_change fd' = clock w 0
    /\ State.last_check fd' = clock w 0
    /\ Change.title c = browser_title w 0
    /\ Change.url c = State.url fd
    /\ Change.domain c = State.domain fd.
Proof.
  intros w fd.
  apply (detect_changed_set w 0 sample_page fd [Some "v2"]).
  - reflexivity.
  - apply (bool_decide_unpack _). vm_compute. exact I.
  - discriminate.
Defined.

(** C5.  After a failing fetch the page is in error.  A second failing
    fetch is then logged at severity INFO as a repeat, with no record of
    severity WARNING, and the page stays in error; a successful fetch
    instead leaves [error] false and [error_description] absent.  The
    first failure itself is logged at WARNING exactly when the page was
    not in error before. *)
Theorem error_hysteresis (w1 w2 : World) (i j : nat) (page : Page.t)
    (fd : State.t) (e1 : exn) (st : St) :
  fetch w1 i page = Raise e1 -> caught e1 = true ->
  exists fd1,
    detect w1 i page fd st
      = (Ret (fd1, None),
         logged [if State.error fd
                 then (INFO, "Query is still erroring out.")
                 else (WARNING, "Query erroring out!")] st)
    /\ State.error fd1 = true
    /\ (forall e2 st2, fetch w2 j page = Raise e2 -> caught e2 = true ->
          exists fd2,
            detect w2 j page fd1 st2
              = (Ret (fd2, None), logged [(INFO, "Query is still erroring out.")] st2)
            /\ State.error fd2 = true)
    /\ (forall content st2, fetch w2 j page = Ret content ->
          exists fd2 change st2',
            detect w2 j page fd1 st2 = (Ret (fd2, change), st2')
            /\ State.error fd2 = false
            /\ State.error_description fd2 = None).
Proof.
  intros Hf Hc. eexists. split; [apply (detect_failure _ _ _ _ _ _ Hf Hc)|].
  split; [reflexivity|]. split.
  - intros e2 st2 Hf2 Hc2. eexists.
    split; [rewrite (detect_failure _ _ _ _ _ _ Hf2 Hc2) | ]; reflexivity.
  - intros content st2 Hf2. unfold detect. rewrite Hf2.
    unfold clear_error. cbn [State.error State.error_description State.set_error].
    unfold bind at 1 2 3. rewrite _log_plain. unfold ret at 1.
    destruct (diff_content _ _ _ _ _) as [fd2 ch] eqn:Hd.
    exists (State.set_last_check (clock w2 j) fd2), ch. eexists.
    split; [reflexivity|].
    unfold diff_content in Hd. cbn [State.content] in Hd.
    destruct (decide _) in Hd; injection Hd as <- <-; split; reflexivity.
Qed.

Lemma error_hysteresis_witness :
  let down := sample_world (Raise NoSuchElementException) (Ret None) no_fault in
  let up := sample_world (Ret "v1") (Ret None) no_fault in
  let fd := sample_state [Some "v1"] in
  let st := sample_st ∅ in
  exists fd1,
    detect down 0 sample_page fd st
      = (Ret (fd1, None), logged [(WARNING, "Query erroring out!")] st)
    /\ State.error fd1 = true
    /\ (forall e2 st2, fetch down 0 sample_page = Raise e2 -> caught e2 = true ->
          exists fd2,
            detect down 0 sample_page fd1 st2
              = (Ret (fd2, None), logged [(INFO, "Query is still erroring out.")] st2)
            /\ State.error fd2 = true)
    /\ (forall content st2, fetch up 0 sample_page = Ret content ->
          exists fd2 change st2',
            detect up 0 sample_page fd1 st2 = (Ret (fd2, change), st2')
            /\ State.error fd2 = false
            /\ State.error_description fd2 = None).
Proof.
  intros down up fd st.
  destruct (error_hysteresis down down 0 0 sample_page fd NoSuchElementException st
              eq_refl eq_refl) as (fd1 & H1 & H2 & H3 & _).
  destruct (error_hysteresis down up 0 0 sample_page fd NoSuchElementException st
              eq_refl eq_refl) as (fd1' & H1' & _ & _ & H4).
  assert (fd1' = fd1) as -> by congruence.
  exists fd1. repeat split; assumption.
Defined.

(** C9.  When the selector yields empty text and no pattern is
    configured, and when a configured pattern does not match the text,
    the poll is a failure of the no-match kind: [error] is set with the
    description of a failed lookup, no change record is produced and the
    stored content stays as it was. *)
Theorem no_match_is_failure (w : World) (i : nat) (page : Page.t)
    (fd : State.t) (text : string) (st : St) :
  browser_get w i (Page.url page) = None ->
  find_text w i (Page.selector page) = Ret text ->
  (Page.regex page = None /\ text = "")
  \/ (exists rx, Page.regex page = Some rx /\ re_search w rx text = Ret None) ->
  fetch w i page = Raise LookupError
  /\ exists fd' st',
       detect w i page fd st = (Ret (fd', None), st')
       /\ State.error fd' = true
       /\ State.error_description fd' = Some "couldn't find what we were looking for"
       /\ State.content fd' = State.content fd
       /\ State.title fd' = State.title fd
       /\ State.last_content_change fd' = State.last_content_change fd
       /\ fs st' = fs st.
Proof.
  intros Hg Ht Hcase.
  assert (Hf : fetch w i page = Raise LookupError).
  { unfold fetch. rewrite Hg, Ht. cbn [res_bind].
    destruct Hcase as [[-> ->] | (rx & -> & Hs)].
    - reflexivity.
    - now rewrite Hs. }
  split; [exact Hf|].
  eexists _, _. split; [apply (detect_failure _ _ _ _ _ _ Hf eq_refl)|].
  repeat split.
Qed.

Lemma no_match_is_failure_witness :
  let w := sample_world (Ret "sold out") (Ret None) no_fault in
  let fd := sample_state [Some "3"; Some "7"] in
  let st := sample_st ∅ in
  fetch w 0 sample_page_rx = Raise LookupError
  /\ exists fd' st',
       detect w 0 sample_page_rx fd st = (Ret (fd', None), st')
       /\ State.error fd' = true
       /\ State.error_description fd' = Some "couldn't find what we were looking for"
       /\ State.content fd' = State.content fd
       /\ State.title fd' = State.title fd
       /\ State.last_content_change fd' = State.last_content_change fd
       /\ fs st' = fs st.
Proof.
  intros w fd st.
  apply (no_match_is_failure w 0 sample_page_rx fd "sold out" st).
  - reflexivity.
  - reflexivity.
  - right. eexists. split; reflexivity.
Defined.

(** ** The polling loop *)

Section Run.

Lemma bind_Ret_inv {A B} (m : M A) (f : A -> M B) (st st' : St) (b : B) :
  bind m f st = (Ret b, st') ->
  exists a st1, m st = (Ret a, st1) /\ f a st1 = (Ret b, st').
Proof.
  unfold bind. destruct (m st) as [[a|e] st1]; [eauto | discriminate].
Qed.

(** A page whose state has a url change pending stops the run. *)
Lemma react_to_url_change_raises (data_dir : string) (page : Page.t)
    (fd : State.t) (data_file : string) (old : option string) (st : St) :
  is_Some (State.new_url fd) ->
  react_to_url_change data_dir page fd data_file old st = (Raise TypeError, st).
Proof. intros [nu H]. unfold react_to_url_change. now rewrite H. Qed.

(** Lines 484 to 492 compute the new file name from [page['url']], as
    the name of the old file was: the state would be written to the old
    file, which line 590 then removes. *)
Lemma apply_url_change_same_file (data_dir : string) (page : Page.t)
    (new_url name : string) (fd fd' : State.t) (data_file data_file' : string)
    (old : option string) (st st' : St) :
  getSafeFilename (Page.url page) = Ret name ->
  data_file = path_join data_dir name ->
  apply_url_change data_dir page new_url fd data_file st = (Ret (fd', data_file', old), st') ->
  data_file' = data_file /\ old = Some data_file.
Proof.
  intros Hn -> H. unfold apply_url_change in H.
  apply bind_Ret_inv in H as (dom & s1 & _ & H).
  apply bind_Ret_inv in H as (name' & s2 & Hl & H).
  unfold lift in Hl. rewrite Hn in Hl. injection Hl as <- _.
  injection H as _ <- <- _. split; reflexivity.
Qed.

(** A refused write is never put aside: the handler itself raises, and
    the files stay as they were. *)
Lemma save_state_fault (w : World) (data_file : string) (old : option string)
    (fd : State.t) (ta : list (string * file)) (st : St) :
  disk_fault w (writes st) data_file = true ->
  exists st',
    save_state w data_file old fd ta st
      = (Raise (if has_handlers st then TypeError else NameError), st')
    /\ fs st' = fs st /\ writes st' = S (writes st).
Proof.
  intros Hd. unfold save_state, try_except, bind at 1, write_file. rewrite Hd.
  cbn [isinstance bool_decide decide_rel]. cbn.
  unfold bind, _log, change_data_in_run, raise. cbn.
  destruct (has_handlers st); cbn; eexists; split; try reflexivity; split; reflexivity.
Qed.

Lemma save_state_Ret (w : World) (data_file : string) (old : option string)
    (fd : State.t) (ta ta' : list (string * file)) (st st' : St) :
  save_state w data_file old fd ta st = (Ret ta', st') -> ta' = ta.
Proof.
  unfold save_state, try_except, bind at 1, write_file.
  destruct (disk_fault w (writes st) data_file).
  - cbn. unfold bind, _log, change_data_in_run, raise. cbn.
    destruct (has_handlers st); cbn; discriminate.
  - destruct old as [p|]; unfold bind, raise, os_remove, ret; cbn.
    + destruct (_ !! p); cbn; [now intros [= <- _]|].
      unfold _log. cbn. destruct (has_handlers st); cbn; discriminate.
    + now intros [= <- _].
Qed.

Lemma poll_page_tryAgain (w : World) (data_dir : string) (added : list string)
    (i : nat) (page : Page.t) (lp lp' : Loop) (st st' : St) :
  poll_page w data_dir added i page lp st = (Ret lp', st') ->
  tryAgain lp' = tryAgain lp.
Proof.
  unfold poll_page. intros H.
  apply bind_Ret_inv in H as (name & s1 & _ & H).
  apply bind_Ret_inv in H as (fd & s2 & _ & H).
  apply bind_Ret_inv in H as ([[fd' df] old] & s3 & _ & H).
  apply bind_Ret_inv in H as ([fd'' ch] & s4 & _ & H).
  apply bind_Ret_inv in H as (ta & s5 & Hs & H).
  apply save_state_Ret in Hs. injection H as <- _. exact Hs.
Qed.

Lemma poll_pages_tryAgain (w : World) (data_dir : string) (added : list string)
    (pages : list Page.t) (i : nat) (lp lp' : Loop) (st st' : St) :
  poll_pages w data_dir added i pages lp st = (Ret lp', st') ->
  tryAgain lp' = tryAgain lp.
Proof.
  revert i lp st. induction pages as [|page rest IH]; intros i lp st H.
  - injection H as <- _. reflexivity.
  - cbn [poll_pages] in H. apply bind_Ret_inv in H as (lp1 & s1 & Hp & H).
    apply IH in H. apply poll_page_tryAgain in Hp. congruence.
Qed.

(** Whenever [run] returns, [tryAgain] is empty: the second attempt of
    [main] has nothing to write. *)
Lemma run_tryAgain_empty (w : World) (pages : list Page.t) (data_dir : string)
    (added : list string) (changes : list Change.t) (ta : list (string * file))
    (st st' : St) :
  run w pages data_dir added st = (Ret (changes, ta), st') -> ta = [].
Proof.
  unfold run. destruct pages as [|page rest].
  - intros H. apply bind_Ret_inv in H as (? & ? & _ & H). now injection H as _ <- _.
  - intros H. apply bind_Ret_inv in H as (lp & s1 & Hp & H).
    apply poll_pages_tryAgain in Hp. injection H as _ <- _. exact Hp.
Qed.

End Run.

(** The two end-to-end scenarios of the design document: the page shows
    what is stored, and the page shows something new. *)
Example run_unchanged :
  fst (run (sample_world (Ret "v1") (Ret None) no_fault) [sample_page] "/data" []
         (sample_st {[ file_A := FState (sample_state [Some "v1"]) ]}))
  = Ret ([], []).
Proof. vm_compute. reflexivity. Qed.

Example run_changed :
  fst (run (sample_world (Ret "v2") (Ret None) no_fault) [sample_page] "/data" []
         (sample_st {[ file_A := FState (sample_state [Some "v1"]) ]}))
  = Ret ([Change.mk [Some "v2"] [Some "v1"] "Example" url_A "a.example.com"], []).
Proof. vm_compute. reflexivity. Qed.

(** A page without data file that fails with [NoSuchElementException]:
    one WARNING, and the stored state is in error. *)
Example run_new_page_fails :
  let r := run (sample_world (Raise NoSuchElementException) (Ret None) no_fault)
             [sample_page] "/data" [url_A] (sample_st ∅) in
  fst r = Ret ([], [])
  /\ log (snd r) = [(WARNING, "Query erroring out!")]
  /\ fs (snd r) !! file_A
     = Some (FState (State.mk 0 1700000000 "" url_A "a.example.com" [] true
                       (Some "element cannot be found") None)).
Proof. repeat split; vm_compute; reflexivity. Qed.

(** Two runs in a row against a page that keeps failing: the state
    written by the first run makes the second one log at INFO only. *)
Example run_twice_failing :
  let w := sample_world (Raise WebDriverException) (Ret None) no_fault in
  let st1 := snd (run w [sample_page] "/data" [url_A] (sample_st ∅)) in
  let st2 := snd (run w [sample_page] "/data" [] (mkSt (fs st1) [] 0 true)) in
  log st1 = [(WARNING, "Query erroring out!")]
  /\ log st2 = [(INFO, "Query is still erroring out.")].
Proof. split; vm_compute; reflexivity. Qed.

(** C3, on the code: the state of [url_A] is stored under the slug of
    [url_A] with a move to [url_B] pending, and the page loads fine.  The
    run stops at line 482 with a TypeError before anything is fetched or
    written: the files are as before, nothing is stored under the slug of
    [url_B], and the file of [url_A] still holds the old url and the
    pending move. *)
Theorem url_change_stops_the_run :
  let w := sample_world (Ret "v1") (Ret None) no_fault in
  let st0 := sample_st {[ file_A := FState moving_state ]} in
  getSafeFilename url_A = Ret "a.example.com_news"
  /\ getSafeFilename url_B = Ret "b.example.org_news"
  /\ main_run w [Page.mk url_A "h1" None] "/data" [] st0 = (Raise TypeError, st0)
  /\ fs st0 !! file_B = None
  /\ fs st0 !! file_A = Some (FState moving_state).
Proof. repeat split; vm_compute; reflexivity. Qed.

(** C4, on the code: the page changed from [v1] to [v2] and the disk
    refuses the first write only.  The handler of the refused write
    raises (TypeError from the keyword [file] given to [_log]; with the
    fallback logger NameError from [change_data]), so the run stops:
    nothing is kept for later, there is no second attempt (one write
    attempt in all), and the file still holds the old state, whereas a
    run whose first write succeeds stores the new state. *)
Theorem refused_write_is_not_retried :
  let page := Page.mk url_A "h1" None in
  let old := sample_state [Some "v1"] in
  let files : gmap string file := {[ file_A := FState old ]} in
  let w := sample_world (Ret "v2") (Ret None) first_write_fails in
  let w_ok := sample_world (Ret "v2") (Ret None) no_fault in
  main_run w [page] "/data" [] (mkSt files [] 0 true)
    = (Raise TypeError, mkSt files [] 1 true)
  /\ main_run w [page] "/data" [] (mkSt files [] 0 false)
     = (Raise NameError,
        mkSt files [(INFO, "Couldn't update data file! Trying again later.")] 1 false)
  /\ exists st',
       main_run w_ok [page] "/data" [] (mkSt files [] 0 true) = (Ret tt, st')
       /\ fs st' !! file_A
          = Some (FState (State.mk 1700000000 1700000000 "Example" url_A
                            "a.example.com" [Some "v2"] false None None))
       /\ writes st' = 1%nat.
Proof.
  split; [vm_compute; reflexivity|]. split; [vm_compute; reflexivity|].
  eexists. split; [vm_compute; reflexivity|]. split; vm_compute; reflexivity.
Qed.

(** ** The configuration *)

Section Config.

Lemma merge_key_unset (k : string) (fv : value) (conf : gmap string value)
    (added : list string) :
  merge_key [] k fv conf added = Ret (<[k := fv]> conf, added).
Proof. unfold merge_key. destruct (conf !! k); reflexivity. Qed.

Lemma merge_keys_unset (kvs : list (string * value)) (conf : gmap string value)
    (added : list string) :
  NoDup kvs.*1 ->
  merge_keys [] kvs conf added = Ret (list_to_map kvs ∪ conf, added).
Proof.
  revert conf. induction kvs as [|[k v] rest IH]; intros conf Hnd.
  - cbn. now rewrite (left_id_L ∅ (∪)).
  - apply NoDup_cons in Hnd as [Hk Hnd].
    cbn [merge_keys]. rewrite merge_key_unset. cbn [res_bind].
    rewrite (IH _ Hnd). cbn [list_to_map foldr uncurry].
    rewrite <- insert_union_l, insert_union_r; [reflexivity|].
    now apply not_elem_of_list_to_map_1.
Qed.

(** Without a key set on the command line the stored values win. *)
Lemma merge_config_unset (stored conf : gmap string value) :
  merge_config [] stored conf = Ret (stored ∪ conf, []).
Proof.
  unfold merge_config. rewrite merge_keys_unset by apply NoDup_fst_map_to_list.
  now rewrite list_to_map_to_list.
Qed.


(** [parseArgs] without any option. *)
Lemma parseArgs_empty (env : Env) :
  webdriver_has env _default_browser = true ->
  parseArgs env Args.empty
    = Ret (<["log_path" := VItem (IStr (home env +:+ "/" +:+ ".change-poller.log"))]>
             (<["event_list" := VList (IStr <$> _valid_notification_events)]>
                (<["use_xvfb" := VItem (IBool false)]>
                   (<["browser" := VItem (IStr _default_browser)]>
                      (<["verbosity" := VItem (INum 0)]>
                         {[ "pages" := VList [] ]})))),
           ["run"], []).
Proof.
  intros Hw. unfold parseArgs. cbn.
  rewrite !lookup_insert_ne by discriminate. rewrite lookup_insert_eq, Hw.
  reflexivity.
Qed.

(** A directory that is there or can be made: [ensure_dir] returns,
    and records at most the directory. *)
Lemma ensure_dir_ready (env : Env) (d : string) (st : St) :
  dir_ready env d ->
  exists st', ensure_dir env d st = (Ret tt, st')
    /\ fs st' = fs st /\ log st' = log st /\ writes st' = writes st
    /\ has_handlers st' = has_handlers st
    /\ (ops st' = ops st \/ ops st' = ops st ++ [Makedirs d]).
Proof.
  intros Hd. unfold ensure_dir.
  destruct (isdir env (ops st) d) eqn:Hi; [exists st; tauto|].
  destruct (Hd (ops st)) as [H|H]; [congruence|].
  unfold perform. rewrite H. eexists. split; [reflexivity|]. cbn. tauto.
Qed.

(** With a valid verbosity and a log file that can be opened
    [setupLogger] returns, and records at most the opening. *)
Lemma setupLogger_ready (env : Env) (conf : gmap string value) (p : string) (st : St) :
  conf !! "verbosity" = Some (VItem (INum 0)) ->
  conf !! "log_path" = Some (VItem (IStr p)) ->
  log_ready env p ->
  exists st', setupLogger env conf st = (Ret tt, st')
    /\ fs st' = fs st /\ log st' = log st /\ writes st' = writes st
    /\ (ops st' = ops st \/ ops st' = ops st ++ [OpenLog p]).
Proof.
  intros Hv Hp Hl. unfold setupLogger. rewrite Hv.
  destruct (has_handlers st); [exists st; tauto|].
  cbn [py_in existsb py_eq]. rewrite bool_decide_eq_false_2 by discriminate.
  rewrite bool_decide_eq_true_2 by reflexivity. cbn [orb].
  unfold bind, lift. rewrite Hp. cbn [as_str]. unfold perform. rewrite (Hl (ops st)).
  eexists. split; [reflexivity|]. cbn. tauto.
Qed.

Lemma written_configs_snoc (hist : list fs_op) (op : fs_op) :
  written_configs (hist ++ [op])
  = written_configs hist ++ match op with WriteConfig p _ => [p] | _ => [] end.
Proof.
  unfold written_configs. rewrite omap_app. cbn. now destruct op.
Qed.

Lemma bind_run {A B} (m : M A) (f : A -> M B) (st st1 : St) (a : A) :
  m st = (Ret a, st1) -> bind m f st = f a st1.
Proof. intros H. unfold bind. now rewrite H. Qed.

Lemma bind_lift_Ret {A B} (a : A) (f : A -> M B) (st : St) :
  bind (lift (Ret a)) f st = f a st.
Proof. reflexivity. Qed.

(** [getConfig] on a command line without [config_file] and without
    set keys, when the guessed file holds [stored]: the stored values
    win, nothing is written. *)
Lemma getConfig_loaded (env : Env) (conf stored : gmap string value)
    (data_dir : string) (st : St) :
  conf !! "config_file" = None ->
  read_config env (default_config_file env) = Ret stored ->
  dir_ready env (dirname (default_config_file env)) ->
  let merged := stored ∪ <["config_file" := VItem (IStr (default_config_file env))]> conf in
  default (VItem (IStr (default_data_dir env))) (merged !! "data_dir")
    = VItem (IStr data_dir) ->
  dir_ready env data_dir ->
  exists st',
    getConfig env conf [] st
    = (Ret (match merged !! "data_dir" with
            | Some _ => merged
            | None => <["data_dir" := VItem (IStr (default_data_dir env))]> merged
            end, [], false), st')
    /\ fs st' = fs st /\ log st' = log st
    /\ written_configs (ops st') = written_configs (ops st).
Proof.
  intros Hcf Hr Hcd merged Hdd Hdr.
  unfold getConfig. rewrite Hcf, lookup_insert_eq. cbn [as_str].
  rewrite bind_lift_Ret.
  destruct (ensure_dir_ready env _ st Hcd) as (st2 & He2 & Hfs2 & Hlog2 & _ & _ & Hops2).
  rewrite (bind_run _ _ _ _ _ He2).
  rewrite Hr, merge_config_unset. fold merged.
  cbn [bind lift ret].
  set (conf' := match merged !! "data_dir" with Some _ => merged | None => _ end).
  assert (Hcd' : conf' !! "data_dir" = Some (VItem (IStr data_dir))).
  { unfold conf'. destruct (merged !! "data_dir") as [v|] eqn:Hs.
    - rewrite Hs. cbn in Hdd. now subst v.
    - rewrite lookup_insert_eq. cbn in Hdd. now rewrite Hdd. }
  rewrite Hcd'. cbn [as_str].
  destruct (ensure_dir_ready env data_dir st2 Hdr) as (st3 & He3 & Hfs3 & Hlog3 & _ & _ & Hops3).
  rewrite (bind_run _ _ _ _ _ He3). cbn [bind ret].
  exists st3. split; [reflexivity|]. split; [congruence|]. split; [congruence|].
  destruct Hops3 as [-> | ->], Hops2 as [-> | ->];
    rewrite ?written_configs_snoc, ?app_nil_r; reflexivity.
Qed.

End Config.

(** C7.  Merged into itself a configuration is unchanged.  A stored
    configuration read back with nothing given on the command line keeps
    its page list, in the same order, and every other stored value; no
    page counts as newly added, no save of defaults is asked for and no
    configuration is written.  For the program to get that far the log
    file must open and the directory of the configuration file and the
    stored data directory must be there or be made. *)
Theorem merge_idempotent (env : Env) (stored : gmap string value) (st : St) :
  webdriver_has env _default_browser = true ->
  read_config env (default_config_file env) = Ret stored ->
  merge_config [] stored stored = Ret (stored, [])
  /\ forall data_dir,
       log_ready env (home env +:+ "/" +:+ ".change-poller.log") ->
       dir_ready env (dirname (default_config_file env)) ->
       default (VItem (IStr (default_data_dir env))) (stored !! "data_dir")
         = VItem (IStr data_dir) ->
       dir_ready env data_dir ->
       exists conf st',
         main_config env Args.empty st = (Ret (conf, ["run"], [], false), st')
         /\ page_items conf = page_items stored
         /\ (forall k v, stored !! k = Some v -> conf !! k = Some v)
         /\ fs st' = fs st /\ log st' = log st
         /\ written_configs (ops st') = written_configs (ops st).
Proof.
  intros Hw Hr. split.
  { rewrite merge_config_unset. now rewrite (idemp_L (∪)). }
  intros data_dir Hlog Hcd Hdd Hdr.
  unfold main_config. rewrite (parseArgs_empty env Hw), bind_lift_Ret.
  set (argConf := <["log_path" := _]> _).
  assert (Hcf : argConf !! "config_file" = None) by (subst argConf; simplify_map_eq; done).
  assert (Hpg : argConf !! "pages" = Some (VList [])) by (subst argConf; simplify_map_eq; done).
  assert (Hv : argConf !! "verbosity" = Some (VItem (INum 0))) by (subst argConf; simplify_map_eq; done).
  assert (Hlp : argConf !! "log_path"
                = Some (VItem (IStr (home env +:+ "/" +:+ ".change-poller.log"))))
    by (subst argConf; apply lookup_insert_eq).
  assert (Hdn : argConf !! "data_dir" = None) by (subst argConf; simplify_map_eq; done).
  destruct (setupLogger_ready env argConf _ st Hv Hlp Hlog)
    as (st1 & Hl & Hfs1 & Hlog1 & _ & Hops1).
  rewrite (bind_run _ _ _ _ _ Hl).
  set (merged := stored ∪ <["config_file" := VItem (IStr (default_config_file env))]> argConf).
  assert (Hst : forall k v, stored !! k = Some v -> merged !! k = Some v).
  { intros k v Hk. unfold merged. now apply lookup_union_Some_l. }
  assert (Hpi : page_items merged = page_items stored).
  { unfold page_items. destruct (stored !! "pages") as [v|] eqn:Hs.
    - now rewrite (Hst _ _ Hs).
    - unfold merged. rewrite lookup_union_r by exact Hs.
      rewrite lookup_insert_ne by discriminate. now rewrite Hpg. }
  assert (Hmd : merged !! "data_dir" = stored !! "data_dir").
  { destruct (stored !! "data_dir") as [v|] eqn:Hs; [now apply Hst|].
    unfold merged. rewrite lookup_union_r by exact Hs.
    now rewrite lookup_insert_ne by discriminate. }
  rewrite <- Hmd in Hdd.
  destruct (getConfig_loaded env argConf stored data_dir st1 Hcf Hr Hcd Hdd Hdr)
    as (st' & Hg & Hfs' & Hlog' & Hops').
  rewrite (bind_run _ _ _ _ _ Hg). fold merged. cbn [ret].
  eexists _, st'. split; [reflexivity|].
  split; [|split; [|split; [congruence|split; [congruence|]]]].
  - destruct (merged !! "data_dir"); [exact Hpi|].
    unfold page_items. rewrite lookup_insert_ne by discriminate. exact Hpi.
  - intros k v Hk. destruct (merged !! "data_dir") eqn:Hd; [now apply Hst|].
    rewrite lookup_insert_ne; [now apply Hst|].
    intros <-. apply Hst in Hk. congruence.
  - rewrite Hops'. destruct Hops1 as [-> | ->];
      rewrite ?written_configs_snoc, ?app_nil_r; reflexivity.
Qed.

Lemma merge_idempotent_witness :
  let stored : gmap string value :=
    {[ "pages" := VList [IPage (Page.mk url_A "h1" None); IPage (Page.mk url_B "h2" None)];
       "browser" := VItem (IStr "Chrome");
       "data_dir" := VItem (IStr "/data") ]} in
  let env := sample_env default_path stored in
  webdriver_has env _default_browser = true
  /\ read_config env (default_config_file env) = Ret stored
  /\ log_ready env (home env +:+ "/" +:+ ".change-poller.log")
  /\ dir_ready env (dirname (default_config_file env))
  /\ default (VItem (IStr (default_data_dir env))) (stored !! "data_dir")
       = VItem (IStr "/data")
  /\ dir_ready env "/data"
  /\ merge_config [] stored stored = Ret (stored, [])
  /\ exists conf st',
       main_config env Args.empty (start ∅) = (Ret (conf, ["run"], [], false), st')
       /\ page_items conf = page_items stored
       /\ (forall k v, stored !! k = Some v -> conf !! k = Some v)
       /\ fs st' = fs (start ∅) /\ log st' = log (start ∅)
       /\ written_configs (ops st') = written_configs (ops (start ∅)).
Proof.
  intros stored env.
  assert (Hw : webdriver_has env _default_browser = true) by reflexivity.
  assert (Hr : read_config env (default_config_file env) = Ret stored) by reflexivity.
  assert (Hl : log_ready env (home env +:+ "/" +:+ ".change-poller.log"))
    by (intros hist; reflexivity).
  assert (Hc : dir_ready env (dirname (default_config_file env)))
    by (intros hist; left; reflexivity).
  assert (Hd : default (VItem (IStr (default_data_dir env))) (stored !! "data_dir")
               = VItem (IStr "/data")) by reflexivity.
  assert (Hdr : dir_ready env "/data") by (intros hist; right; reflexivity).
  split; [exact Hw|]. split; [exact Hr|]. split; [exact Hl|]. split; [exact Hc|].
  split; [exact Hd|]. split; [exact Hdr|].
  destruct (merge_idempotent env stored (start ∅) Hw Hr) as [Hm Hmain].
  split; [exact Hm|].
  exact (Hmain "/data" Hl Hc Hd Hdr).
Defined.

(** C8, on the code: the command line gives [-c /tmp/my.conf], a file
    that lists one page, and no other file exists.  [parseArgs] stores
    the path under [data_dir] and sets no [config_file]; the program
    then reads the guessed default path, fails to load it, warns, and
    takes the given path for the data directory: [os.makedirs] raises
    [FileExistsError] where the file is, and the program ends.  Given a
    path at which nothing exists, the program makes a directory of that
    name and goes on with the defaults, which it writes to the guessed
    path: the page of a file given with [-c] is never loaded. *)
Theorem config_file_option_sets_data_dir :
  let stored : gmap string value :=
    {[ "pages" := VList [IPage (Page.mk url_A "h1" None)] ]} in
  let env := sample_env "/tmp/my.conf" stored in
  let args := Args.mk None None false None None false false
                (Some "/tmp/my.conf") None false 0 false in
  let fresh := Args.mk None None false None None false false
                 (Some "/tmp/new.conf") None false 0 false in
  let warning :=
    [(WARNING, "Failed to load config file, is this first time running? Using defaults and trying to save afterwards.")] in
  args_view (parseArgs env args)
    = Ret (None, Some (VItem (IStr "/tmp/my.conf")), [], ["run"], ["config_file"])
  /\ config_view (main_config env args (start ∅)) = (Raise OSError, warning)
  /\ written_configs (ops (snd (main_config env args (start ∅)))) = []
  /\ config_view (main_config env fresh (start ∅))
     = (Ret (Some (VItem (IStr default_path)), Some (VItem (IStr "/tmp/new.conf")),
             [], [], true),
        warning)
  /\ made_dirs (ops (snd (main_config env fresh (start ∅))))
     = ["/home/u/.config/change-poller"; "/tmp/new.conf"]
  /\ written_configs (ops (snd (main_config env fresh (start ∅)))) = [default_path].
Proof. repeat split; vm_compute; reflexivity. Qed.

(** C6, on the code: the stored configuration lists [url_A] with
    selector [h1], and the command line gives [-p url_A h2].  The merge
    tests membership on whole entries, so the page of the command line is
    appended and recorded as newly added, and the merged page list holds
    the url twice, although [parseArgs] refuses the same two pages when
    both come from the command line. *)
Theorem merge_duplicates_url :
  let stored : gmap string value :=
    {[ "pages" := VList [IPage (Page.mk url_A "h1" None)] ]} in
  let env := sample_env default_path stored in
  let one := Args.mk (Some [[url_A; "h2"]]) None false None None false false
               None None false 0 false in
  let both := Args.mk (Some [[url_A; "h1"]; [url_A; "h2"]]) None false None None
                false false None None false 0 false in
  parseArgs env both = Raise SystemExit
  /\ config_view (main_config env one (start ∅))
     = (Ret (Some (VItem (IStr default_path)),
             Some (VItem (IStr "/home/u/.local/share/change-poller")),
             [IPage (Page.mk url_A "h1" None); IPage (Page.mk url_A "h2" None)],
             [url_A], false),
        [])
  /\ ~ NoDup (urls_of [IPage (Page.mk url_A "h1" None); IPage (Page.mk url_A "h2" None)]).
Proof.
  split; [vm_compute; reflexivity|]. split; [vm_compute; reflexivity|].
  intros Hnd. apply NoDup_cons in Hnd as [Hn _]. apply Hn. constructor.
Qed.

(** The whole program on the configuration of C6: both entries of the
    merged page list are polled against the one data file of their
    url. *)
Example main_polls_one_file_twice :
  let stored : gmap string value :=
    {[ "pages" := VList [IPage (Page.mk url_A "h1" None)];
       "data_dir" := VItem (IStr "/data") ]} in
  let env := sample_env default_path stored in
  let one := Args.mk (Some [[url_A; "h2"]]) None false None None false false
               None None false 0 false in
  let r := main env (sample_world (Ret "v1") (Ret None) no_fault) one (start ∅) in
  fst r = Ret tt
  /\ writes (snd r) = 2%nat
  /\ dom (fs (snd r)) = {[ file_A ]}.
Proof. repeat split; vm_compute; reflexivity. Qed.

(** * Further properties of the code *)

(** ** The slug function and the patterns *)

Section SlugMore.

Lemma str_mem_app (c : ascii) (a b : string) :
  str_mem c (a +:+ b) = str_mem c a || str_mem c b.
Proof.
  induction a as [|x a IH]; [reflexivity|].
  rewrite str_app_cons. cbn [str_mem]. now rewrite IH, orb_assoc.
Qed.

Lemma re_sub_suspicious_safe (c : ascii) (t : string) :
  str_mem c (re_sub_suspicious t) = true -> safe_char c = true.
Proof.
  unfold re_sub_suspicious.
  induction t as [|x t IH]; cbn [str_map str_mem]; [discriminate|].
  intros H. apply orb_true_iff in H as [H|H]; [|now apply IH].
  apply Ascii.eqb_eq in H. subst c. unfold suspicious.
  destruct (is_word x || one_of "-_. " x) eqn:E; [exact E | reflexivity].
Qed.

Lemma safe_char_excludes (c : ascii) :
  safe_char c = true -> c <> "/"%char /\ c <> LF.
Proof. intros H. split; intros ->; vm_compute in H; discriminate. Qed.

Lemma str_length_app (a b : string) :
  String.length (a +:+ b) = (String.length a + String.length b)%nat.
Proof.
  induction a as [|x a IH]; [reflexivity|].
  rewrite str_app_cons. cbn [String.length]. now rewrite IH.
Qed.

Lemma str_take_app (a b : string) : str_take (String.length a) (a +:+ b) = a.
Proof.
  induction a as [|x a IH]; [now destruct b|].
  rewrite str_app_cons. cbn [String.length str_take]. now rewrite IH.
Qed.

Lemma captured_app (a b : string) : captured (a +:+ b) b = a.
Proof.
  unfold captured. rewrite str_length_app.
  replace (String.length a + String.length b - String.length b)%nat
    with (String.length a) by lia.
  apply str_take_app.
Qed.

Lemma after_sep_search {A} (k : string -> option A) (s rest : string) :
  after_sep s = Some rest ->
  is_Some (k rest) ->
  search_from (run_re (lit "://") k) s = k rest.
Proof.
  induction s as [|c s IH]; intros Ha Hk; [discriminate|].
  cbn [after_sep] in Ha.
  destruct (strip_prefix "://" (String c s)) as [r|] eqn:Hp.
  - injection Ha as ->. cbn [search_from]. rewrite run_lit, Hp.
    destruct Hk as [x Hx]. now rewrite Hx.
  - rewrite remove_protocol_skip by exact Hp. now apply IH.
Qed.

(** On [r] followed by one line feed, the group of [remove_protocol]
    takes [r]. *)
Lemma star_dot_eol_nl {A} (f : string -> A) (r : string) :
  str_mem LF r = false ->
  star dot (fun s2 => at_eol (fun _ => Some (f s2)) s2) (r +:+ nl) = Some (f nl).
Proof.
  induction r as [|c r IH]; intros H.
  - reflexivity.
  - rewrite str_app_cons. cbn [str_mem] in H.
    apply orb_false_elim in H as [Hc Hr].
    cbn [star]. unfold dot at 1. rewrite Hc. cbn [negb].
    now rewrite (IH Hr).
Qed.

End SlugMore.

(** X1.  Whatever [getSafeFilename] returns consists of word
    characters, hyphens, underscores, dots and spaces only: it holds no
    slash and no line feed.  (The names [.] and [..] and the empty name
    are of that kind, and are returned for [x://.], [x://..] and
    [x://].) *)
Theorem slug_chars_safe (s slug : string) :
  getSafeFilename s = Ret slug ->
  (forall c, str_mem c slug = true -> safe_char c = true)
  /\ str_mem "/" slug = false /\ str_mem LF slug = false.
Proof.
  unfold getSafeFilename. destruct (remove_protocol_search s) as [g|]; [|discriminate].
  intros [= <-].
  assert (Hall : forall c, str_mem c (strip "_" (re_sub_suspicious g)) = true ->
                           safe_char c = true).
  { intros c Hc. destruct (strip_spec (re_sub_suspicious g)) as (a & b & Heq & _).
    apply (re_sub_suspicious_safe c g). rewrite Heq, !str_mem_app, Hc.
    now rewrite orb_true_r. }
  split; [exact Hall|].
  split.
  - destruct (str_mem "/" _) eqn:E; [|reflexivity].
    apply Hall, safe_char_excludes in E. now destruct E.
  - destruct (str_mem LF _) eqn:E; [|reflexivity].
    apply Hall, safe_char_excludes in E. now destruct E.
Qed.

Lemma slug_chars_safe_witness :
  getSafeFilename "https://example.com/a?b=1" = Ret "example.com_a_b_1"
  /\ (forall c, str_mem c "example.com_a_b_1" = true -> safe_char c = true)
  /\ str_mem "/" "example.com_a_b_1" = false
  /\ str_mem LF "example.com_a_b_1" = false.
Proof.
  split; [reflexivity|].
  apply (slug_chars_safe "https://example.com/a?b=1"). reflexivity.
Defined.

(** The character set does not keep the data file inside the data
    directory: these names are returned as well. *)
Example slug_dot_names :
  getSafeFilename "x://.." = Ret ".."
  /\ getSafeFilename "x://." = Ret "."
  /\ getSafeFilename "x://" = Ret "".
Proof. repeat split; reflexivity. Qed.

(** X2.  The slug depends only on what follows the first separator:
    two inputs that agree there, such as the [http] and the [https]
    address of a page, get the same file name. *)
Theorem slug_ignores_scheme (s1 s2 rest : string) :
  after_sep s1 = Some rest -> after_sep s2 = Some rest ->
  str_mem LF rest = false ->
  getSafeFilename s1 = getSafeFilename s2
  /\ getSafeFilename s1 = Ret (strip "_" (re_sub_suspicious rest)).
Proof.
  intros H1 H2 Hnl. unfold getSafeFilename.
  rewrite (remove_protocol_found s1 rest H1 Hnl).
  now rewrite (remove_protocol_found s2 rest H2 Hnl).
Qed.

Lemma slug_ignores_scheme_witness :
  after_sep "http://example.com/a" = Some "example.com/a"
  /\ after_sep "https://example.com/a" = Some "example.com/a"
  /\ str_mem LF "example.com/a" = false
  /\ getSafeFilename "http://example.com/a" = getSafeFilename "https://example.com/a"
  /\ getSafeFilename "http://example.com/a"
     = Ret (strip "_" (re_sub_suspicious "example.com/a")).
Proof.
  split; [reflexivity|]. split; [reflexivity|]. split; [reflexivity|].
  apply (slug_ignores_scheme "http://example.com/a" "https://example.com/a"
           "example.com/a"); reflexivity.
Defined.

(** X3.  One line feed at the very end of the input is dropped by the
    [$] of the pattern: the slug is that of the input without it. *)
Theorem slug_drops_final_line_feed (s rest : string) :
  after_sep s = Some (rest +:+ nl) ->
  str_mem LF rest = false ->
  getSafeFilename s = Ret (strip "_" (re_sub_suspicious rest)).
Proof.
  intros Ha Hnl. unfold getSafeFilename, remove_protocol_search, search_group1.
  rewrite (after_sep_search _ s (rest +:+ nl) Ha);
    cbn [run_re]; rewrite (star_dot_eol_nl (captured (rest +:+ nl)) rest Hnl),
      captured_app; [reflexivity | eauto].
Qed.

Lemma slug_drops_final_line_feed_witness :
  after_sep ("http://ab.cd/x" +:+ nl) = Some ("ab.cd/x" +:+ nl)
  /\ str_mem LF "ab.cd/x" = false
  /\ getSafeFilename ("http://ab.cd/x" +:+ nl)
     = Ret (strip "_" (re_sub_suspicious "ab.cd/x")).
Proof.
  split; [reflexivity|]. split; [reflexivity|].
  apply (slug_drops_final_line_feed ("http://ab.cd/x" +:+ nl) "ab.cd/x"); reflexivity.
Defined.

Section Patterns.

Lemma is_Some_orelse {A} (x y : option A) :
  is_Some (orelse x y) <-> is_Some x \/ is_Some y.
Proof.
  destruct x; simpl; split; eauto.
  intros [H|H]; [now destruct H | exact H].
Qed.

Context {A : Type} (t : string).

Lemma star_accepts (p : ascii -> bool) (k : string -> option A) (s : string) :
  is_Some (k s) -> is_Some (star p k s).
Proof.
  intros H. destruct s as [|c s]; [exact H|]. cbn [star].
  destruct (p c); [|exact H]. apply is_Some_orelse. now right.
Qed.

Lemma star_ext (p : ascii -> bool) (k k' : string -> option A) :
  ext t k k' -> ext t (star p k) (star p k').
Proof.
  intros Hk s. induction s as [|c s IH]; intros H.
  - apply star_accepts, Hk, H.
  - rewrite str_app_cons. cbn [star] in *. destruct (p c).
    + apply is_Some_orelse in H as [H|H]; apply is_Some_orelse.
      * left. now apply IH.
      * right. rewrite <- str_app_cons. now apply Hk.
    + rewrite <- str_app_cons. now apply Hk.
Qed.

Lemma exactly_ext (m : (string -> option A) -> string -> option A) (n : nat)
    (k k' : string -> option A) :
  (forall k k' : string -> option A, ext t k k' -> ext t (m k) (m k')) ->
  ext t k k' -> ext t (exactly m n k) (exactly m n k').
Proof.
  intros Hm Hk. induction n as [|n IH]; [exact Hk|]. cbn [exactly]. now apply Hm.
Qed.

Lemma at_most_ext (m : (string -> option A) -> string -> option A) (n : nat)
    (k k' : string -> option A) :
  (forall k k' : string -> option A, ext t k k' -> ext t (m k) (m k')) ->
  ext t k k' -> ext t (at_most m n k) (at_most m n k').
Proof.
  intros Hm Hk. induction n as [|n IH]; [exact Hk|].
  intros s H. cbn [at_most] in *.
  apply is_Some_orelse in H as [H|H]; apply is_Some_orelse.
  - left. revert H. now apply Hm.
  - right. now apply Hk.
Qed.

(** A pattern without [$] that matches a prefix of [s] matches a prefix
    of [s] followed by anything. *)
Lemma run_re_ext (r : regex) :
  no_eol r = true ->
  forall k k' : string -> option A, ext t k k' -> ext t (run_re r k) (run_re r k').
Proof.
  induction r as [|p|r1 IH1 r2 IH2|r1 IH1|r1 IH1 lo hi|p|]; cbn [no_eol run_re];
    intros Hr k k' Hk.
  - exact Hk.
  - intros [|c s] H; [now destruct H|].
    rewrite str_app_cons. destruct (p c); [now apply Hk | now destruct H].
  - apply andb_true_iff in Hr as [H1 H2]. apply IH1; [exact H1|]. now apply IH2.
  - intros s H. apply is_Some_orelse in H as [H|H]; apply is_Some_orelse.
    + left. revert H. now apply IH1.
    + right. now apply Hk.
  - apply exactly_ext; [now apply IH1|]. apply at_most_ext; [now apply IH1 | exact Hk].
  - now apply star_ext.
  - discriminate.
Qed.

End Patterns.

(** X4.  The url check of the command line is a prefix match: a string
    that starts with an accepted url is accepted, whatever follows. *)
Theorem url_regex_accepts_extensions (u t : string) :
  re_match url_regex u = true -> re_match url_regex (u +:+ t) = true.
Proof.
  unfold re_match. intros H. apply bool_decide_eq_true in H.
  apply bool_decide_eq_true.
  apply (run_re_ext t url_regex eq_refl (fun rest => Some rest) (fun rest => Some rest));
    [|exact H].
  intros x _. eauto.
Qed.

Lemma url_regex_accepts_extensions_witness :
  re_match url_regex "http://ab.cd" = true
  /\ re_match url_regex ("http://ab.cd" +:+ " not a url") = true.
Proof.
  split; [reflexivity|].
  apply (url_regex_accepts_extensions "http://ab.cd" " not a url"). reflexivity.
Defined.

Section Domain.

Lemma all_not_slash (h : string) :
  str_mem "/" h = false -> all_chars not_slash h = true.
Proof.
  induction h as [|c h IH]; cbn [str_mem all_chars]; [reflexivity|].
  intros H. apply orb_false_elim in H as [Hc Hh].
  unfold not_slash at 1. now rewrite Hc, (IH Hh).
Qed.

Lemma not_slash_all (h : string) :
  all_chars not_slash h = true -> str_mem "/" h = false.
Proof.
  induction h as [|c h IH]; cbn [str_mem all_chars]; [reflexivity|].
  intros H. apply andb_true_iff in H as [Hc Hh].
  unfold not_slash in Hc. apply negb_true_iff in Hc. now rewrite Hc, (IH Hh).
Qed.

(** A greedy star whose continuation accepts everything takes the whole
    run. *)
Lemma star_greedy {A} (p : ascii -> bool) (f : string -> A) (h tail : string) :
  all_chars p h = true ->
  tail = "" \/ (exists c tl, tail = String c tl /\ p c = false) ->
  star p (fun s => Some (f s)) (h +:+ tail) = Some (f tail).
Proof.
  intros Hh Ht. induction h as [|c h IH].
  - rewrite str_app_nil_l. destruct Ht as [->|(c & tl & -> & Hc)]; [reflexivity|].
    cbn [star]. now rewrite Hc.
  - cbn [all_chars] in Hh. apply andb_true_iff in Hh as [Hc Hh].
    rewrite str_app_cons. cbn [star]. now rewrite Hc, (IH Hh).
Qed.

Lemma star_capture {A} (p : ascii -> bool) (f : string -> A) (s : string) (x : A) :
  star p (fun s => Some (f s)) s = Some x ->
  exists pre post, s = pre +:+ post /\ all_chars p pre = true /\ x = f post.
Proof.
  revert x. induction s as [|c s IH]; intros x H.
  - injection H as <-. exists "", "". repeat split.
  - cbn [star] in H. destruct (p c) eqn:Hc.
    + destruct (star p (fun s => Some (f s)) s) as [y|] eqn:Hs.
      * injection H as <-. destruct (IH y eq_refl) as (pre & post & -> & Hp & ->).
        exists (String c pre), post. cbn [all_chars]. rewrite Hc, Hp.
        repeat split.
      * injection H as <-. exists "", (String c s). repeat split.
    + injection H as <-. exists "", (String c s). repeat split.
Qed.

Lemma search_from_inv {A} (m : string -> option A) (s : string) (a : A) :
  search_from m s = Some a ->
  exists pre s', s = pre +:+ s' /\ m s' = Some a.
Proof.
  induction s as [|c s IH]; cbn [search_from]; intros H.
  - destruct (m "") eqn:E; [|discriminate]. exists "", "". split; [reflexivity|].
    congruence.
  - destruct (m (String c s)) eqn:E.
    + exists "", (String c s). split; [reflexivity | congruence].
    + destruct (IH H) as (pre & s' & -> & Hm).
      exists (String c pre), s'. split; [reflexivity | exact Hm].
Qed.

Lemma search_from_suffix {A} (m : string -> option A) (pre s' : string) :
  is_Some (m s') -> is_Some (search_from m (pre +:+ s')).
Proof.
  intros H. induction pre as [|c pre IH].
  - rewrite str_app_nil_l. destruct s'; cbn [search_from]; destruct H as [x ->]; eauto.
  - rewrite str_app_cons. cbn [search_from].
    destruct (m (String c (pre +:+ s'))); [eauto | exact IH].
Qed.

Lemma url_host_class_plain (c : ascii) :
  url_host_class c = true -> dot c = true /\ not_slash c = true.
Proof.
  intros H. split.
  - unfold dot. apply negb_true_iff. destruct (Ascii.eqb_spec c LF) as [->|]; [|reflexivity].
    vm_compute in H. discriminate.
  - unfold not_slash. apply negb_true_iff.
    destruct (Ascii.eqb_spec c "/") as [->|]; [|reflexivity].
    vm_compute in H. discriminate.
Qed.

Lemma strip_prefix_append (p r : string) : strip_prefix p (p +:+ r) = Some r.
Proof.
  induction p as [|a p IH]; [reflexivity|].
  rewrite str_app_cons. cbn [strip_prefix]. now rewrite Ascii.eqb_refl.
Qed.

End Domain.

(** X5.  [domain_of] returns what stands between the first separator
    and the next slash, user name and port included: for a url whose
    first separator is followed by a character [c] other than line feed,
    a non-empty run [h] without slash, and then a slash or the end, the
    domain is [c] followed by [h]. *)
Theorem domain_of_host (u h tail : string) (c : ascii) :
  after_sep u = Some (String c (h +:+ tail)) ->
  c <> LF -> h <> "" -> str_mem "/" h = false ->
  tail = "" \/ starts_with "/" tail = true ->
  domain_of u = Ret (String c h).
Proof.
  intros Ha Hc Hh Hs Ht. unfold domain_of, search_group1.
  assert (Hk : run_re (Seq (Chr dot) (Seq (Chr not_slash) (Star not_slash)))
                 (fun s2 => run_re Eps
                    (fun _ => Some (captured (String c (h +:+ tail)) s2)) s2)
                 (String c (h +:+ tail)) = Some (String c h)).
  { cbn [run_re]. unfold dot. apply Ascii.eqb_neq in Hc. rewrite Hc. cbn [negb].
    destruct h as [|c2 h']; [congruence|]. rewrite str_app_cons.
    cbn [str_mem] in Hs. apply orb_false_elim in Hs as [Hc2 Hs].
    unfold not_slash at 1. rewrite Hc2. cbn [negb].
    rewrite (star_greedy not_slash _ h' tail (all_not_slash _ Hs)).
    - f_equal. change (String c (String c2 (h' +:+ tail)))
        with (String c (String c2 h') +:+ tail). apply captured_app.
    - destruct Ht as [->|Ht]; [now left | right].
      destruct tail as [|d tl]; [discriminate|]. exists d, tl. split; [reflexivity|].
      cbn [starts_with] in Ht. unfold not_slash. now rewrite Ht. }
  rewrite (after_sep_search _ u _ Ha); rewrite Hk; [reflexivity | eauto].
Qed.

Lemma domain_of_host_witness :
  after_sep "https://bob@example.com:8080/a/b" = Some (String "b" ("ob@example.com:8080" +:+ "/a/b"))
  /\ "b"%char <> LF /\ "ob@example.com:8080" <> ""
  /\ str_mem "/" "ob@example.com:8080" = false
  /\ ("/a/b" = "" \/ starts_with "/" "/a/b" = true)
  /\ domain_of "https://bob@example.com:8080/a/b" = Ret "bob@example.com:8080".
Proof.
  assert (H1 : after_sep "https://bob@example.com:8080/a/b"
               = Some (String "b" ("ob@example.com:8080" +:+ "/a/b"))) by reflexivity.
  assert (H2 : "b"%char <> LF) by discriminate.
  assert (H3 : "ob@example.com:8080" <> "") by discriminate.
  assert (H4 : str_mem "/" "ob@example.com:8080" = false) by reflexivity.
  assert (H5 : "/a/b" = "" \/ starts_with "/" "/a/b" = true) by (right; reflexivity).
  repeat (split; [assumption|]).
  exact (domain_of_host _ _ _ _ H1 H2 H3 H4 H5).
Defined.

(** X6.  A domain returned by [domain_of] has at least two characters,
    no line feed in front and no slash after its first character; and
    for every url that the check of the command line accepts [domain_of]
    returns one, so the default state of a page given on the command
    line can always be built. *)
Theorem domain_of_shape (u : string) :
  (forall d, domain_of u = Ret d ->
     exists c r, d = String c r /\ c <> LF /\ r <> "" /\ str_mem "/" r = false)
  /\ (re_match url_regex u = true -> exists d, domain_of u = Ret d).
Proof.
  split.
  - unfold domain_of, search_group1. intros d H.
    destruct (search_from _ u) as [g|] eqn:Hs; [|discriminate]. injection H as ->.
    apply search_from_inv in Hs as (pre & s' & _ & Hm).
    rewrite run_lit in Hm. destruct (strip_prefix "://" s') as [s1|]; [|discriminate].
    cbn [run_re] in Hm. destruct s1 as [|c s2]; [discriminate|].
    destruct (dot c) eqn:Hc; [|discriminate].
    destruct s2 as [|c2 s3]; [discriminate|].
    destruct (not_slash c2) eqn:Hc2; [|discriminate].
    apply star_capture in Hm as (h & post & -> & Hh & ->).
    exists c, (String c2 h). split.
    + change (String c (String c2 (h +:+ post))) with (String c (String c2 h) +:+ post).
      apply captured_app.
    + split; [|split; [discriminate|]].
      * unfold dot in Hc. apply negb_true_iff in Hc. now apply Ascii.eqb_neq.
      * apply not_slash_all. cbn [all_chars]. now rewrite Hc2, Hh.
  - unfold re_match, url_regex. intros H. apply bool_decide_eq_true in H.
    cbn [run_re] in H. rewrite run_lit in H.
    destruct (strip_prefix "http" u) as [r1|] eqn:Hh; [|now destruct H].
    apply strip_prefix_app in Hh. subst u.
    assert (Hpos : exists pre r3 c1 c2 r4,
               "http" +:+ r1 = pre +:+ ("://" +:+ r3)
               /\ r3 = String c1 (String c2 r4)
               /\ url_host_class c1 = true /\ url_host_class c2 = true).
    { assert (Hk : forall r,
          is_Some (run_re (lit "://")
            (exactly (run_re (Chr url_host_class)) 2
               (at_most (run_re (Chr url_host_class)) (256 - 2)
                  (run_re (Seq (Chr (Ascii.eqb ".")) (Seq (Rep (Chr is_lower) 2 63)
                     (Seq (Opt (Chr (Ascii.eqb "/"))) (Star url_path_class)))) (fun rest => Some rest)))) r) ->
          exists r3 c1 c2 r4, r = "://" +:+ r3 /\ r3 = String c1 (String c2 r4)
            /\ url_host_class c1 = true /\ url_host_class c2 = true).
      { intros r Hr. rewrite run_lit in Hr.
        destruct (strip_prefix "://" r) as [r3|] eqn:Hs; [|now destruct Hr].
        apply strip_prefix_app in Hs. cbn [exactly run_re] in Hr.
        destruct r3 as [|c1 r3]; [now destruct Hr|].
        destruct (url_host_class c1) eqn:H1; [|now destruct Hr].
        destruct r3 as [|c2 r4]; [now destruct Hr|].
        destruct (url_host_class c2) eqn:H2; [|now destruct Hr].
        exists (String c1 (String c2 r4)), c1, c2, r4. repeat split; assumption. }
      apply orelse_is_Some in H as [H|H].
      - destruct r1 as [|c r2]; [now destruct H|].
        destruct (Ascii.eqb_spec "s" c) as [<-|]; [|now destruct H].
        destruct (Hk _ H) as (r3 & c1 & c2 & r4 & -> & -> & H1 & H2).
        exists "https", (String c1 (String c2 r4)), c1, c2, r4.
        repeat split; assumption.
      - destruct (Hk _ H) as (r3 & c1 & c2 & r4 & -> & -> & H1 & H2).
        exists "http", (String c1 (String c2 r4)), c1, c2, r4.
        repeat split; assumption. }
    destruct Hpos as (pre & r3 & c1 & c2 & r4 & Heq & -> & H1 & H2).
    unfold domain_of, search_group1. rewrite Heq.
    match goal with |- context [search_from ?m _] =>
      destruct (search_from_suffix m pre ("://" +:+ String c1 (String c2 r4))) as [g Hg]
    end.
    + rewrite run_lit, strip_prefix_append. cbn [run_re].
      destruct (url_host_class_plain _ H1) as [-> _].
      destruct (url_host_class_plain _ H2) as [_ ->].
      apply star_accepts. eauto.
    + rewrite Hg. eauto.
Qed.

Lemma domain_of_shape_witness :
  re_match url_regex "http://a.example.com/news" = true
  /\ exists d, domain_of "http://a.example.com/news" = Ret d.
Proof.
  split; [reflexivity|].
  apply (proj2 (domain_of_shape "http://a.example.com/news")). reflexivity.
Defined.

(** ** The detector and the loop *)

Section Frames.

Lemma bind_inv {A B} (m : M A) (f : A -> M B) (st st' : St) (r : res B) :
  bind m f st = (r, st') ->
  (exists a st1, m st = (Ret a, st1) /\ f a st1 = (r, st'))
  \/ (exists e, m st = (Raise e, st') /\ r = Raise e).
Proof.
  unfold bind. destruct (m st) as [[a|e] st1]; intros H.
  - left. eauto.
  - right. injection H as <- <-. eauto.
Qed.

Lemma _log_frame (lv : level) (msg : string) (kw : bool) (st st' : St) (r : res unit) :
  _log lv msg kw st = (r, st') ->
  fs st' = fs st /\ writes st' = writes st /\ has_handlers st' = has_handlers st.
Proof.
  unfold _log. destruct (has_handlers st && kw); intros [= <- <-]; repeat split.
Qed.

Lemma detect_uncaught (w : World) (i : nat) (page : Page.t) (fd : State.t)
    (e : exn) (st : St) :
  fetch w i page = Raise e -> caught e = false ->
  detect w i page fd st = (Raise e, st).
Proof. intros Hf Hc. unfold detect. now rewrite Hf, Hc. Qed.

(** [detect] touches neither the files nor the write counter, whatever
    its outcome. *)
Lemma detect_fs (w : World) (i : nat) (page : Page.t) (fd : State.t)
    (st st' : St) (r : res (State.t * option Change.t)) :
  detect w i page fd st = (r, st') ->
  fs st' = fs st /\ writes st' = writes st /\ has_handlers st' = has_handlers st.
Proof.
  unfold detect. destruct (fetch w i page) as [content|e].
  - unfold clear_error. destruct (State.error fd).
    + unfold bind. rewrite _log_plain. cbn [State.error_description State.set_error].
      destruct (State.error_description fd); cbn; intros [= <- <-]; repeat split.
    + cbn. intros [= <- <-]. repeat split.
  - destruct (caught e).
    + unfold on_fetch_error, bind. destruct (State.error fd); cbn [negb];
        rewrite _log_plain; cbn; intros [= <- <-]; repeat split.
    + intros [= <- <-]. repeat split.
Qed.

End Frames.

(** X7.  Whatever the fetch gives, a state returned by [detect] has the
    [url], [domain] and [new_url] of the old one and the time of the poll
    as [last_check], and an error flag only together with a description;
    the files are not touched.  Without a change record [content],
    [title] and [last_content_change] are the old ones; a change record
    comes only with a cleared error flag, with [last_content_change] set
    to the time of the poll, and is never empty: something was added or
    something was removed. *)
Theorem detect_frame (w : World) (i : nat) (page : Page.t) (fd fd' : State.t)
    (change : option Change.t) (st st' : St) :
  detect w i page fd st = (Ret (fd', change), st') ->
  State.url fd' = State.url fd
  /\ State.domain fd' = State.domain fd
  /\ State.new_url fd' = State.new_url fd
  /\ State.last_check fd' = clock w i
  /\ described fd'
  /\ fs st' = fs st
  /\ match change with
     | None =>
         State.content fd' = State.content fd
         /\ State.title fd' = State.title fd
         /\ State.last_content_change fd' = State.last_content_change fd
     | Some c =>
         State.error fd' = false
         /\ State.last_content_change fd' = clock w i
         /\ (Change.added c <> [] \/ Change.removed c <> [])
         /\ Change.url c = State.url fd /\ Change.domain c = State.domain fd
     end.
Proof.
  intros H. destruct (detect_fs _ _ _ _ _ _ _ H) as (Hfs & _).
  unfold detect in H. destruct (fetch w i page) as [content|e] eqn:Hf.
  - unfold clear_error in H.
    assert (Hc : exists fd1 st1,
               State.error fd1 = false
               /\ State.url fd1 = State.url fd /\ State.domain fd1 = State.domain fd
               /\ State.new_url fd1 = State.new_url fd
               /\ State.content fd1 = State.content fd /\ State.title fd1 = State.title fd
               /\ State.last_content_change fd1 = State.last_content_change fd
               /\ (Ret (State.set_last_check (clock w i)
                          (fst (diff_content w i (clock w i) content fd1)),
                        snd (diff_content w i (clock w i) content fd1)), st1)
                  = (Ret (fd', change), st')).
    { destruct fd as [lcc lc ti u dom c e ed nu]. cbn in *. destruct e.
      - unfold bind in H. rewrite _log_plain in H. destruct ed; cbn in H; [|discriminate].
        eexists _, _. repeat split; [..|exact H]; reflexivity.
      - cbn in H. eexists _, _. repeat split; [..|exact H]; reflexivity. }
    destruct Hc as (fd1 & st1 & He & Hu & Hd & Hn & Hco & Hti & Hl & Heq).
    injection Heq as <- <- _. unfold diff_content.
    destruct (decide _) as [Hs|Hs]; cbn.
    + repeat split; try assumption.
      unfold described. cbn. rewrite He. discriminate.
    + repeat split; try assumption;
        [unfold described; cbn; rewrite He; discriminate | ].
      destruct (filter _ (elements (list_to_set content))) eqn:Ha; [|left; discriminate].
      destruct (filter _ (elements (list_to_set (State.content fd1)))) eqn:Hr;
        [|right; discriminate].
      exfalso. apply Hs.
      pose proof (added_is_difference (list_to_set (State.content fd1)) (list_to_set content)) as Hx.
      pose proof (added_is_difference (list_to_set content) (list_to_set (State.content fd1))) as Hy.
      rewrite Ha in Hx. rewrite Hr in Hy. cbn [list_to_set] in Hx, Hy.
      apply set_eq. intros x. split; intros Hin.
      * destruct (decide (x ∈ (list_to_set content : gset Fragment))) as [|Hnot];
          [assumption|].
        exfalso. apply (not_elem_of_empty (C:=gset Fragment) x).
        rewrite Hy. apply elem_of_difference. now split.
      * destruct (decide (x ∈ (list_to_set (State.content fd1) : gset Fragment))) as [|Hnot];
          [assumption|].
        exfalso. apply (not_elem_of_empty (C:=gset Fragment) x).
        rewrite Hx. apply elem_of_difference. now split.
  - destruct (caught e) eqn:Hc; [|discriminate].
    pose proof (detect_failure w i page fd e st Hf Hc) as Hd.
    unfold detect in Hd. rewrite Hf, Hc in Hd. rewrite Hd in H.
    injection H as <- <- _. cbn.
    repeat split; [intros _; eexists; reflexivity | exact Hfs].
Qed.

Lemma detect_frame_witness :
  let w := sample_world (Ret "v2") (Ret None) no_fault in
  let fd := sample_state [Some "v1"] in
  exists fd' c st',
    detect w 0 sample_page fd (sample_st ∅) = (Ret (fd', Some c), st')
    /\ State.url fd' = State.url fd
    /\ State.domain fd' = State.domain fd
    /\ State.new_url fd' = State.new_url fd
    /\ State.last_check fd' = clock w 0
    /\ described fd'
    /\ fs st' = fs (sample_st ∅)
    /\ State.error fd' = false
    /\ State.last_content_change fd' = clock w 0
    /\ (Change.added c <> [] \/ Change.removed c <> [])
    /\ Change.url c = State.url fd /\ Change.domain c = State.domain fd.
Proof.
  intros w fd.
  assert (Hr : fst (detect w 0 sample_page fd (sample_st ∅))
               = Ret (State.mk 1700000000 1700000000 "Example" url_A "a.example.com"
                        [Some "v2"] false None None,
                      Some (Change.mk [Some "v2"] [Some "v1"] "Example" url_A
                              "a.example.com")))
    by (vm_compute; reflexivity).
  destruct (detect w 0 sample_page fd (sample_st ∅)) as [r st'] eqn:Hd.
  cbn [fst] in Hr. subst r.
  eexists _, _, st'. split; [reflexivity|].
  exact (detect_frame w 0 sample_page fd _ (Some _) (sample_st ∅) st' Hd).
Defined.

Section Poll.

(** Evaluate the test of an [except] clause on a known exception. *)
Ltac eval_guard :=
  match goal with
  | |- context [if ?b then Some _ else None] =>
      let v := eval vm_compute in b in change b with v; cbv iota
  end.

Lemma load_state_frame (added : list string) (page : Page.t) (path : string)
    (st st' : St) (r : res State.t) :
  load_state added page path st = (r, st') ->
  fs st' = fs st /\ writes st' = writes st /\ has_handlers st' = has_handlers st.
Proof.
  unfold load_state, try_except, read_state.
  destruct (fs st !! path) as [[d|t]|]; cbn;
    [intros H; injection H as <- <-; repeat split | | ];
    eval_guard; destruct (decide (Page.url page ∈ added));
    unfold bind, ret, lift; rewrite ?_log_plain;
    destruct (domain_of _); cbn; intros H; injection H as <- <-; repeat split.
Qed.

Lemma load_state_present (added : list string) (page : Page.t) (path : string)
    (st : St) (fd : State.t) :
  fs st !! path = Some (FState fd) ->
  load_state added page path st = (Ret fd, st).
Proof. intros H. unfold load_state, try_except, read_state. now rewrite H. Qed.

Lemma react_to_url_change_inv (data_dir : string) (page : Page.t) (fd : State.t)
    (data_file : string) (old : option string) (st st' : St)
    (r : res (State.t * string * option string)) :
  react_to_url_change data_dir page fd data_file old st = (r, st') ->
  st' = st
  /\ (r = Raise TypeError /\ is_Some (State.new_url fd)
      \/ r = Ret (fd, data_file, old) /\ State.new_url fd = None).
Proof.
  unfold react_to_url_change. destruct (State.new_url fd) as [nu|].
  - unfold bind, _log_without_msg, raise. intros [= <- <-]. split; [reflexivity|].
    left. eauto.
  - intros [= <- <-]. split; [reflexivity|]. now right.
Qed.

Lemma save_state_unbound (w : World) (data_file : string) (fd : State.t)
    (ta : list (string * file)) (st st' : St) (r : res (list (string * file))) :
  save_state w data_file None fd ta st = (r, st') ->
  writes st' = S (writes st)
  /\ (r = Ret ta /\ disk_fault w (writes st) data_file = false
      /\ fs st' = <[data_file := FState fd]> (fs st)
      \/ (exists e, r = Raise e) /\ disk_fault w (writes st) data_file = true
         /\ fs st' = fs st).
Proof.
  unfold save_state, try_except, bind at 1, write_file.
  destruct (disk_fault w (writes st) data_file).
  - cbn. unfold bind, _log, change_data_in_run, raise. cbn.
    destruct (has_handlers st); cbn; intros [= <- <-]; (split; [reflexivity|]);
      right; repeat split; eauto.
  - unfold bind, raise, ret. cbn. intros [= <- <-]. split; [reflexivity|].
    left. repeat split.
Qed.

(** What one iteration does when no url change has happened before. *)
Lemma poll_page_inv (w : World) (data_dir : string) (added : list string)
    (i : nat) (page : Page.t) (lp : Loop) (st st' : St) (r : res Loop) :
  old_data_file lp = None ->
  poll_page w data_dir added i page lp st = (r, st') ->
  (fs st' = fs st
   \/ exists name fd',
        getSafeFilename (Page.url page) = Ret name
        /\ fs st' = <[path_join data_dir name := FState fd']> (fs st))
  /\ (forall lp', r = Ret lp' ->
        old_data_file lp' = None /\ tryAgain lp' = tryAgain lp
        /\ writes st' = S (writes st)
        /\ exists change, allChanges lp' = allChanges lp ++ change_list change).
Proof.
  intros Hold H. unfold poll_page in H.
  apply bind_inv in H as [(name & s1 & Hn & H)|(e & Hn & ->)];
    unfold lift in Hn; injection Hn as Hn <-; [|split; [now left | discriminate]].
  apply bind_inv in H as [(fd & s2 & Hl & H)|(e & Hl & ->)];
    apply load_state_frame in Hl as (Hfs2 & Hw2 & _);
    [|split; [now left | discriminate]].
  apply bind_inv in H as [([[fd1 df] old] & s3 & Hr & H)|(e & Hr & ->)];
    apply react_to_url_change_inv in Hr as (-> & Hr);
    [|split; [now left | discriminate]].
  destruct Hr as [[[=] _]|[[= -> -> ->] Hnu]]. rewrite Hold in H.
  apply bind_inv in H as [([fd2 ch] & s4 & Hd & H)|(e & Hd & ->)];
    apply detect_fs in Hd as (Hfs4 & Hw4 & _);
    [|split; [left; congruence | discriminate]].
  apply bind_inv in H as [(ta & s5 & Hs & H)|(e & Hs & ->)];
    apply save_state_unbound in Hs as (Hw5 & Hs).
  - injection H as <- <-.
    destruct Hs as [([= ->] & _ & Hfs5)|([e' [=]] & _)].
    split.
    + right. exists name, fd2. split; [exact Hn|]. rewrite Hfs5. congruence.
    + intros lp' [= <-]. cbn. repeat split; [congruence|].
      exists ch. now destruct ch; rewrite ?app_nil_r.
  - destruct Hs as [([=] & _)|(_ & _ & Hfs5)].
    split; [left; congruence | discriminate].
Qed.

End Poll.

(** X8.  A page whose data file is missing or cannot be parsed is
    polled from the default state: empty content, both times zero, no
    error, the url of the page and its domain.  A WARNING is logged for
    it unless the page was added by this command line.  Nothing is
    written at this point. *)
Theorem load_state_default (added : list string) (page : Page.t) (path d : string)
    (st : St) :
  fs st !! path = None \/ (exists t, fs st !! path = Some (FText t)) ->
  domain_of (Page.url page) = Ret d ->
  load_state added page path st
    = (Ret (default_state (Page.url page) d),
       if decide (Page.url page ∈ added) then st
       else logged [(WARNING, "Data file load failed, please fix your configuration! Using defaults.")] st).
Proof.
  intros Hf Hd. unfold load_state, try_except, read_state.
  destruct Hf as [->|[t ->]]; cbn;
    (match goal with
     | |- context [if ?b then Some _ else None] =>
         let v := eval vm_compute in b in change b with v; cbv iota
     end);
    destruct (decide (Page.url page ∈ added));
    unfold bind, ret, lift; rewrite ?_log_plain, Hd; reflexivity.
Qed.

Lemma load_state_default_witness :
  (sample_st ∅).(fs) !! file_A = None
  /\ domain_of (Page.url sample_page) = Ret "a.example.com"
  /\ load_state [] sample_page file_A (sample_st ∅)
     = (Ret (default_state (Page.url sample_page) "a.example.com"),
        logged [(WARNING, "Data file load failed, please fix your configuration! Using defaults.")]
          (sample_st ∅)).
Proof.
  split; [reflexivity|]. split; [reflexivity|].
  apply (load_state_default [] sample_page file_A "a.example.com" (sample_st ∅)).
  - left. reflexivity.
  - reflexivity.
Defined.

(** X9.  A poll whose write succeeds leaves in the data file of the
    page exactly the state that [detect] returned, so that the next load
    reads it back; the change record, if any, is appended to
    [allChanges], and [tryAgain] is left alone. *)
Theorem poll_page_persists (w : World) (data_dir : string) (added : list string)
    (i : nat) (page : Page.t) (lp : Loop) (name : string) (fd fd' : State.t)
    (change : option Change.t) (st st0 st1 : St) :
  old_data_file lp = None ->
  getSafeFilename (Page.url page) = Ret name ->
  load_state added page (path_join data_dir name) st = (Ret fd, st0) ->
  State.new_url fd = None ->
  detect w i page fd st0 = (Ret (fd', change), st1) ->
  disk_fault w (writes st) (path_join data_dir name) = false ->
  exists st2,
    poll_page w data_dir added i page lp st
      = (Ret (mkLoop (allChanges lp ++ change_list change) (tryAgain lp) None), st2)
    /\ fs st2 = <[path_join data_dir name := FState fd']> (fs st)
    /\ read_state (path_join data_dir name) st2 = (Ret fd', st2)
    /\ load_state [] page (path_join data_dir name) st2 = (Ret fd', st2).
Proof.
  intros Hold Hn Hl Hnu Hd Hw.
  destruct (load_state_frame _ _ _ _ _ _ Hl) as (Hfs0 & Hw0 & _).
  destruct (detect_fs _ _ _ _ _ _ _ Hd) as (Hfs1 & Hw1 & _).
  unfold poll_page. unfold bind at 1, lift at 1. rewrite Hn.
  unfold bind at 1. rewrite Hl.
  unfold bind at 1, react_to_url_change. rewrite Hnu. unfold ret at 1.
  unfold bind at 1. rewrite Hd.
  unfold bind at 1, save_state, try_except, bind at 1, write_file.
  rewrite Hw1, Hw0, Hw, Hold. cbn.
  eexists. split; [destruct change; rewrite ?app_nil_r; reflexivity|].
  cbn. split; [unfold formatJSON; now rewrite Hfs1, Hfs0|].
  assert (Hlook : (<[path_join data_dir name := formatJSON (FState fd')]> (fs st1))
                  !! path_join data_dir name = Some (FState fd'))
    by apply lookup_insert_eq.
  split.
  - unfold read_state. cbn. now rewrite Hlook.
  - apply load_state_present. exact Hlook.
Qed.

Lemma poll_page_persists_witness :
  let w := sample_world (Ret "v2") (Ret None) no_fault in
  let st := sample_st {[ file_A := FState (sample_state [Some "v1"]) ]} in
  let fd' := State.mk 1700000000 1700000000 "Example" url_A "a.example.com"
               [Some "v2"] false None None in
  let c := Change.mk [Some "v2"] [Some "v1"] "Example" url_A "a.example.com" in
  exists st2,
    poll_page w "/data" [] 0 sample_page (mkLoop [] [] None) st
      = (Ret (mkLoop ([] ++ change_list (Some c)) [] None), st2)
    /\ fs st2 = <[path_join "/data" "a.example.com_news" := FState fd']> (fs st)
    /\ read_state (path_join "/data" "a.example.com_news") st2 = (Ret fd', st2)
    /\ load_state [] sample_page (path_join "/data" "a.example.com_news") st2
       = (Ret fd', st2).
Proof.
  intros w st fd' c.
  apply (poll_page_persists w "/data" [] 0 sample_page (mkLoop [] [] None)
           "a.example.com_news" (sample_state [Some "v1"]) fd' (Some c) st st st).
  - reflexivity.
  - reflexivity.
  - reflexivity.
  - reflexivity.
  - vm_compute. reflexivity.
  - reflexivity.
Defined.

(** X10.  An exception of the fetch that the [except] clause does not
    list, such as the [re.error] of a stored pattern that does not
    compile, ends the run at that page: [run] raises it, the state of the
    page is not written and the pages after it are not polled. *)
Theorem uncaught_exception_ends_run (w : World) (data_dir : string)
    (added : list string) (i : nat) (page : Page.t) (rest : list Page.t)
    (lp : Loop) (name : string) (fd : State.t) (e : exn) (st st0 : St) :
  getSafeFilename (Page.url page) = Ret name ->
  load_state added page (path_join data_dir name) st = (Ret fd, st0) ->
  State.new_url fd = None ->
  fetch w i page = Raise e -> caught e = false ->
  poll_pages w data_dir added i (page :: rest) lp st = (Raise e, st0)
  /\ fs st0 = fs st /\ writes st0 = writes st.
Proof.
  intros Hn Hl Hnu Hf Hc.
  destruct (load_state_frame _ _ _ _ _ _ Hl) as (Hfs0 & Hw0 & _).
  split; [|split; assumption].
  cbn [poll_pages]. unfold bind at 1, poll_page.
  unfold bind at 1, lift at 1. rewrite Hn.
  unfold bind at 1. rewrite Hl.
  unfold bind at 1, react_to_url_change. rewrite Hnu. unfold ret at 1.
  unfold bind at 1. rewrite (detect_uncaught w i page fd e st0 Hf Hc).
  reflexivity.
Qed.

Lemma uncaught_exception_ends_run_witness :
  let w := sample_world (Ret "3 of 7") (Raise ReError) no_fault in
  let st := sample_st {[ file_A := FState (sample_state [Some "3"]) ]} in
  poll_pages w "/data" [] 0 [sample_page_rx; Page.mk url_B "h1" None]
    (mkLoop [] [] None) st = (Raise ReError, st)
  /\ fs st = fs st /\ writes st = writes st.
Proof.
  intros w st.
  apply (uncaught_exception_ends_run w "/data" [] 0 sample_page_rx
           [Page.mk url_B "h1" None] (mkLoop [] [] None) "a.example.com_news"
           (sample_state [Some "3"]) ReError st st); reflexivity.
Defined.

Section RunMore.

Lemma data_file_of_cons (data_dir : string) (page : Page.t) (rest : list Page.t)
    (p : string) :
  data_file_of data_dir rest p -> data_file_of data_dir (page :: rest) p.
Proof.
  intros (pg & name & Hin & Hn & ->). exists pg, name.
  split; [now apply list_elem_of_further | now split].
Qed.

Lemma poll_pages_frame (w : World) (data_dir : string) (added : list string)
    (pages : list Page.t) (i : nat) (lp : Loop) (st st' : St) (r : res Loop) :
  old_data_file lp = None ->
  poll_pages w data_dir added i pages lp st = (r, st') ->
  forall p,
    fs st' !! p = fs st !! p
    \/ data_file_of data_dir pages p /\ exists d, fs st' !! p = Some (FState d).
Proof.
  revert i lp st. induction pages as [|page rest IH]; intros i lp st Hold H p.
  - injection H as _ <-. now left.
  - cbn [poll_pages] in H.
    assert (Hstep : forall s1 r1, poll_page w data_dir added i page lp st = (r1, s1) ->
              fs s1 !! p = fs st !! p
              \/ data_file_of data_dir (page :: rest) p
                 /\ exists d, fs s1 !! p = Some (FState d)).
    { intros s1 r1 Hp. destruct (poll_page_inv _ _ _ _ _ _ _ _ _ Hold Hp) as [[Hfs|Hfs] _].
      - left. now rewrite Hfs.
      - destruct Hfs as (name & fd' & Hn & Hfs). rewrite Hfs.
        destruct (decide (path_join data_dir name = p)) as [<-|Hne].
        + right. split.
          * exists page, name. split; [apply list_elem_of_here | now split].
          * exists fd'. apply lookup_insert_eq.
        + left. now apply lookup_insert_ne. }
    apply bind_inv in H as [(lp1 & s1 & Hp & H)|(e & Hp & ->)].
    + destruct (poll_page_inv _ _ _ _ _ _ _ _ _ Hold Hp) as [_ Hret].
      destruct (Hret lp1 eq_refl) as (Hold1 & _).
      destruct (IH _ _ _ Hold1 H p) as [Heq|[Hdf Hd]].
      * rewrite Heq. exact (Hstep _ _ Hp).
      * right. split; [now apply data_file_of_cons | exact Hd].
    + exact (Hstep _ _ Hp).
Qed.

Lemma poll_pages_Ret (w : World) (data_dir : string) (added : list string)
    (pages : list Page.t) (i : nat) (lp lp' : Loop) (st st' : St) :
  old_data_file lp = None ->
  poll_pages w data_dir added i pages lp st = (Ret lp', st') ->
  tryAgain lp' = tryAgain lp
  /\ writes st' = (writes st + length pages)%nat
  /\ (length (allChanges lp') <= length (allChanges lp) + length pages)%nat.
Proof.
  revert i lp st. induction pages as [|page rest IH]; intros i lp st Hold H.
  - injection H as <- <-. cbn. repeat split; lia.
  - cbn [poll_pages] in H.
    apply bind_inv in H as [(lp1 & s1 & Hp & H)|(e & _ & [=])].
    destruct (poll_page_inv _ _ _ _ _ _ _ _ _ Hold Hp) as [_ Hret].
    destruct (Hret lp1 eq_refl) as (Hold1 & Hta & Hw & ch & Hch).
    destruct (IH _ _ _ Hold1 H) as (Hta' & Hw' & Hlen).
    rewrite Hch, length_app in Hlen. cbn [length].
    repeat split; [congruence | lia |].
    destruct ch; cbn in Hlen; lia.
Qed.

Lemma retry_each_spec (w : World) (ta : list (string * file)) (st : St) :
  exists st',
    retry_each w ta st = (Ret tt, st')
    /\ writes st' = (writes st + length ta)%nat
    /\ (forall p, p ∉ ta.*1 -> fs st' !! p = fs st !! p)
    /\ (NoDup ta.*1 ->
        forall n path payload, ta !! n = Some (path, payload) ->
          fs st' !! path
          = if disk_fault w (writes st + n) path then fs st !! path else Some payload).
Proof.
  revert st. induction ta as [|[df pl] rest IH]; intros st.
  - exists st. split; [reflexivity|]. split; [cbn; lia|].
    split; [reflexivity|]. intros _ n path payload Hn.
    rewrite lookup_nil in Hn. discriminate.
  - cbn [retry_each].
    assert (Hfirst : exists s1,
              try_except
                (write_file w df pl ;;; _log INFO "Previously errored file saved now happily." false)
                (fun err => if isinstance err OSError
                            then Some (_log WARNING "Cannot save data file!" false)
                            else None) st = (Ret tt, s1)
              /\ writes s1 = S (writes st)
              /\ fs s1 = if disk_fault w (writes st) df then fs st
                         else <[df := pl]> (fs st)).
    { unfold try_except, bind, write_file. destruct (disk_fault w (writes st) df).
      - change (isinstance OSError OSError) with true. cbv iota.
        rewrite _log_plain. eexists. repeat split.
      - rewrite _log_plain. eexists. repeat split. }
    destruct Hfirst as (s1 & H1 & Hw1 & Hfs1).
    destruct (IH s1) as (st' & Hr & Hw & Hout & Hin).
    exists st'. unfold bind at 1. rewrite H1. split; [exact Hr|].
    split; [cbn [length]; lia|]. split.
    + intros p Hp. cbn in Hp. apply not_elem_of_cons in Hp as [Hne Hp].
      rewrite (Hout p Hp), Hfs1.
      destruct (disk_fault w (writes st) df); [reflexivity|].
      now apply lookup_insert_ne.
    + intros Hnd n path payload Hn. cbn in Hnd. apply NoDup_cons in Hnd as [Hdf Hnd].
      destruct n as [|n]; cbn in Hn.
      * injection Hn as <- <-. rewrite (Hout df Hdf), Hfs1, Nat.add_0_r.
        destruct (disk_fault w (writes st) df); [reflexivity | apply lookup_insert_eq].
      * rewrite (Hin Hnd n path payload Hn), Hw1.
        replace (S (writes st) + n)%nat with (writes st + S n)%nat by lia.
        destruct (disk_fault w (writes st + S n) path); [|reflexivity].
        rewrite Hfs1. destruct (disk_fault w (writes st) df); [reflexivity|].
        apply lookup_insert_ne. intros <-. apply Hdf.
        apply list_elem_of_fmap. exists (df, payload). split; [reflexivity|].
        eapply list_elem_of_lookup_2. exact Hn.
Qed.

End RunMore.

(** X11.  [run] writes nothing but the data files of the configured
    pages and removes no file: after it, returning or raising, every path
    holds what it held before, or is the data file of a configured page
    and holds a state. *)
Theorem run_writes_only_data_files (w : World) (pages : list Page.t)
    (data_dir : string) (added : list string) (st st' : St)
    (r : res (list Change.t * list (string * file))) :
  run w pages data_dir added st = (r, st') ->
  forall p,
    fs st' !! p = fs st !! p
    \/ data_file_of data_dir pages p /\ exists d, fs st' !! p = Some (FState d).
Proof.
  unfold run. destruct pages as [|page rest].
  - unfold bind. rewrite _log_plain. intros [= _ <-] p. now left.
  - intros H p.
    apply bind_inv in H as [(lp & s1 & Hp & H)|(e & Hp & ->)].
    + injection H as _ <-. exact (poll_pages_frame _ _ _ _ _ (mkLoop [] [] None) _ _ _ eq_refl Hp p).
    + exact (poll_pages_frame _ _ _ _ _ (mkLoop [] [] None) _ _ _ eq_refl Hp p).
Qed.

Lemma run_writes_only_data_files_witness :
  let w := sample_world (Ret "v2") (Ret None) no_fault in
  let st := sample_st {[ file_A := FState (sample_state [Some "v1"]);
                         file_B := FText "not json" ]} in
  exists r st',
    run w [sample_page] "/data" [] st = (r, st')
    /\ (fs st' !! file_B = fs st !! file_B
        \/ data_file_of "/data" [sample_page] file_B
           /\ exists d, fs st' !! file_B = Some (FState d)).
Proof.
  intros w st.
  destruct (run w [sample_page] "/data" [] st) as [r st'] eqn:H.
  exists r, st'. split; [reflexivity|].
  exact (run_writes_only_data_files w [sample_page] "/data" [] st st' r H file_B).
Defined.

(** X12.  When [run] returns, it returns an empty [tryAgain] and at most
    one change record per page, and it has opened a file for writing
    exactly once per page. *)
Theorem run_result_bounds (w : World) (pages : list Page.t) (data_dir : string)
    (added : list string) (changes : list Change.t) (ta : list (string * file))
    (st st' : St) :
  run w pages data_dir added st = (Ret (changes, ta), st') ->
  ta = []
  /\ (length changes <= length pages)%nat
  /\ writes st' = (writes st + length pages)%nat.
Proof.
  unfold run. destruct pages as [|page rest].
  - unfold bind. rewrite _log_plain. intros [= <- <- <-]. cbn. repeat split; lia.
  - intros H. apply bind_inv in H as [(lp & s1 & Hp & H)|(e & _ & [=])].
    injection H as <- <- <-.
    destruct (poll_pages_Ret _ _ _ _ _ (mkLoop [] [] None) _ _ _ eq_refl Hp) as (Hta & Hw & Hlen).
    cbn in Hta, Hlen. repeat split; assumption.
Qed.

Lemma run_result_bounds_witness :
  let w := sample_world (Ret "v2") (Ret None) no_fault in
  let st := sample_st {[ file_A := FState (sample_state [Some "v1"]) ]} in
  exists changes ta st',
    run w [sample_page] "/data" [] st = (Ret (changes, ta), st')
    /\ ta = []
    /\ (length changes <= length [sample_page])%nat
    /\ writes st' = (writes st + length [sample_page])%nat.
Proof.
  intros w st.
  assert (Hr : fst (run w [sample_page] "/data" [] st)
               = Ret ([Change.mk [Some "v2"] [Some "v1"] "Example" url_A "a.example.com"], []))
    by (vm_compute; reflexivity).
  destruct (run w [sample_page] "/data" [] st) as [r st'] eqn:H.
  cbn [fst] in Hr. subst r.
  eexists _, _, st'. split; [reflexivity|].
  exact (run_result_bounds w [sample_page] "/data" [] _ _ st st' H).
Defined.

(** X13.  The second attempt of [main] never raises and opens each kept
    path exactly once, whether earlier ones failed or not: a path whose
    write is accepted then holds its payload, a path whose write is
    refused again keeps what it held, and no other file changes. *)
Theorem retry_pass_independent (w : World) (ta : list (string * file)) (st : St) :
  exists st',
    retry_pass w ta st = (Ret tt, st')
    /\ writes st' = (writes st + length ta)%nat
    /\ (forall p, p ∉ ta.*1 -> fs st' !! p = fs st !! p)
    /\ (NoDup ta.*1 ->
        forall n path payload, ta !! n = Some (path, payload) ->
          fs st' !! path
          = if disk_fault w (writes st + n) path then fs st !! path else Some payload).
Proof.
  unfold retry_pass. destruct ta as [|e rest].
  - exact (retry_each_spec w [] st).
  - unfold bind. rewrite _log_plain.
    exact (retry_each_spec w (e :: rest) (logged _ st)).
Qed.

(** ** The configuration: [parseArgs], [getConfig], and the notification *)

Section Merge.

Lemma py_eq_refl (a : item) : py_eq a a = true.
Proof. destruct a; cbn; now apply bool_decide_eq_true. Qed.

Lemma py_in_page (p : Page.t) (l : list item) :
  py_in (IPage p) l = true <-> IPage p ∈ l.
Proof.
  unfold py_in. rewrite existsb_exists. split.
  - intros (x & Hin & Hx). apply list_elem_of_In in Hin.
    destruct x; cbn in Hx; apply bool_decide_eq_true in Hx; try discriminate.
    now rewrite Hx.
  - intros Hin. exists (IPage p). split; [now apply list_elem_of_In | apply py_eq_refl].
Qed.

Lemma py_in_app_l (a : item) (l l' : list item) :
  py_in a l = true -> py_in a (l ++ l') = true.
Proof. unfold py_in. rewrite existsb_app. now intros ->. Qed.

Lemma py_in_snoc (a : item) (l : list item) : py_in a (l ++ [a]) = true.
Proof. unfold py_in. rewrite existsb_app. cbn. now rewrite py_eq_refl, orb_true_r. Qed.

(** What the loop of lines 372 to 381 returns: the stored list is a
    prefix of the merged one, and every item of the command line is in
    it. *)
Lemma merge_list_Ret (k : string) (cli stored merged : list item)
    (added added' : list string) :
  merge_list k cli stored added = Ret (merged, added') ->
  stored `prefix_of` merged
  /\ (forall i, i ∈ cli -> py_in i merged = true)
  /\ (forall i, py_in i stored = true -> py_in i merged = true)
  /\ (k <> "pages" -> added' = added).
Proof.
  revert stored added. induction cli as [|i rest IH]; intros stored added H.
  - injection H as <- <-. repeat split; [reflexivity | | auto ..].
    intros i Hi. now apply elem_of_nil in Hi.
  - cbn [merge_list] in H. destruct (py_in i stored) eqn:Hin.
    + destruct (IH _ _ H) as (Hp & Hc & Hs & Ha). repeat split; [exact Hp | | exact Hs | exact Ha].
      intros j Hj. apply elem_of_cons in Hj as [->|Hj]; [now apply Hs | now apply Hc].
    + destruct (decide (k = "pages")) as [->|Hk].
      * destruct (item_url i) as [u|e]; cbn [res_bind] in H; [|discriminate].
        destruct (IH _ _ H) as (Hp & Hc & Hs & Ha).
        repeat split.
        -- etransitivity; [|exact Hp]. now apply prefix_app_r.
        -- intros j Hj. apply elem_of_cons in Hj as [->|Hj]; [|now apply Hc].
           apply Hs, py_in_snoc.
        -- intros j Hj. now apply Hs, py_in_app_l.
        -- congruence.
      * cbn [res_bind] in H. destruct (IH _ _ H) as (Hp & Hc & Hs & Ha).
        repeat split.
        -- etransitivity; [|exact Hp]. now apply prefix_app_r.
        -- intros j Hj. apply elem_of_cons in Hj as [->|Hj]; [|now apply Hc].
           apply Hs, py_in_snoc.
        -- intros j Hj. now apply Hs, py_in_app_l.
        -- exact Ha.
Qed.

Lemma merge_list_known (k : string) (cli stored : list item) (added : list string) :
  (forall i, i ∈ cli -> py_in i stored = true) ->
  merge_list k cli stored added = Ret (stored, added).
Proof.
  induction cli as [|i rest IH]; intros H; [reflexivity|].
  cbn [merge_list]. rewrite (H i) by apply list_elem_of_here.
  apply IH. intros j Hj. apply H. now apply list_elem_of_further.
Qed.

End Merge.

Lemma merge_list_pages (cli : list Page.t) (stored : list item) (added : list string) :
  exists new,
    merge_list "pages" (IPage <$> cli) stored added
      = Ret (stored ++ (IPage <$> new), added ++ (Page.url <$> new))
    /\ sublist new cli
    /\ NoDup new
    /\ (forall p, p ∈ new -> IPage p ∉ stored)
    /\ (forall p, p ∈ cli -> IPage p ∈ stored ++ (IPage <$> new)).
Proof.
  revert stored added. induction cli as [|p rest IH]; intros stored added.
  - exists []. cbn. rewrite !app_nil_r. repeat split; [constructor | constructor | |].
    + intros p Hp. now apply elem_of_nil in Hp.
    + intros p Hp. now apply elem_of_nil in Hp.
  - cbn [fmap list_fmap merge_list]. destruct (py_in (IPage p) stored) eqn:Hin.
    + destruct (IH stored added) as (new & Hm & Hsub & Hnd & Hnew & Hall).
      exists new. split; [exact Hm|]. split; [now apply sublist_cons|].
      split; [exact Hnd|]. split; [exact Hnew|].
      intros q Hq. apply elem_of_cons in Hq as [->|Hq]; [|now apply Hall].
      apply elem_of_app. left. now apply py_in_page.
    + cbn [item_url res_bind decide]. rewrite decide_True by reflexivity. cbn [res_bind].
      destruct (IH (stored ++ [IPage p]) (added ++ [Page.url p]))
        as (new & Hm & Hsub & Hnd & Hnew & Hall).
      exists (p :: new). rewrite Hm. cbn [fmap list_fmap]. rewrite <- !app_assoc. cbn [app].
      split; [reflexivity|]. split; [now apply sublist_skip|].
      assert (Hp : p ∉ new).
      { intros Hp. apply (Hnew p Hp). apply elem_of_app. right. apply list_elem_of_here. }
      split; [now apply NoDup_cons|]. split.
      * intros q Hq. apply elem_of_cons in Hq as [->|Hq].
        -- intros Hs. apply py_in_page in Hs. congruence.
        -- intros Hs. apply (Hnew q Hq). apply elem_of_app. now left.
      * intros q Hq. apply elem_of_cons in Hq as [->|Hq].
        -- apply elem_of_app. right. apply list_elem_of_here.
        -- specialize (Hall q Hq). rewrite <- app_assoc in Hall. exact Hall.
Qed.

(** X17.  Merging the same command-line list a second time changes
    nothing: once a merge has returned, every item of the command line
    is in the merged list, and merging it again returns the merged list
    and records no url. *)
Theorem merge_list_idempotent (k : string) (cli stored merged : list item)
    (added added' added2 : list string) :
  merge_list k cli stored added = Ret (merged, added') ->
  merge_list k cli merged added2 = Ret (merged, added2).
Proof.
  intros H. apply merge_list_known.
  now destruct (merge_list_Ret _ _ _ _ _ _ H) as (_ & Hc & _).
Qed.



Section MergeConfig.

Lemma merge_key_spec (sp : list string) (k : string) (fv : value)
    (conf conf' : gmap string value) (a a' : list string) :
  merge_key sp k fv conf a = Ret (conf', a') ->
  key_merged sp conf k fv conf'
  /\ (forall k', k' <> k -> conf' !! k' = conf !! k')
  /\ (k <> "pages" -> a' = a)
  /\ (forall cv stored, conf !! k = Some cv -> k ∈ sp -> fv = VList stored ->
        exists cli m, py_iter cv = Ret cli
          /\ merge_list k cli stored a = Ret (m, a') /\ conf' !! k = Some (VList m))
  /\ ((conf !! k = None \/ k ∉ sp \/ exists x, fv = VItem x) -> a' = a).
Proof.
  unfold merge_key, key_merged. intros H.
  destruct (conf !! k) as [cv|] eqn:Hck.
  - destruct (bool_decide (k ∈ sp)) eqn:Hsp.
    + apply bool_decide_eq_true in Hsp. destruct fv as [x|stored].
      * injection H as <- <-. repeat split; auto.
        intros cv' stored' _ _ [=].
      * destruct (py_iter cv) as [cli|e] eqn:Hit; cbn [res_bind] in H; [|discriminate].
        destruct (merge_list k cli stored a) as [[m a1]|e] eqn:Hm; cbn [res_bind] in H;
          [|discriminate].
        injection H as <- <-.
        destruct (merge_list_Ret _ _ _ _ _ _ Hm) as (Hp & _ & _ & Ha).
        split; [exists m; split; [apply lookup_insert_eq | exact Hp]|].
        split; [intros k' Hk'; now apply lookup_insert_ne|].
        split; [exact Ha|]. split.
        -- intros cv' stored' [= <-] _ [= <-]. exists cli, m.
           repeat split; [exact Hit | exact Hm | apply lookup_insert_eq].
        -- intros [[=]|[Hn|[x [=]]]]. contradiction.
    + apply bool_decide_eq_false in Hsp. injection H as <- <-.
      split; [apply lookup_insert_eq|].
      split; [intros k' Hk'; now apply lookup_insert_ne|].
      split; [reflexivity|]. split; [intros; contradiction | reflexivity].
  - injection H as <- <-.
    split; [apply lookup_insert_eq|].
    split; [intros k' Hk'; now apply lookup_insert_ne|].
    split; [reflexivity|]. split; [intros ? ? [=] | reflexivity].
Qed.

Lemma key_merged_frame (sp : list string) (conf conf1 conf' conf'' : gmap string value)
    (k : string) (fv : value) :
  conf1 !! k = conf !! k -> conf'' !! k = conf' !! k ->
  key_merged sp conf1 k fv conf' -> key_merged sp conf k fv conf''.
Proof. unfold key_merged. intros -> ->. auto. Qed.

Lemma merge_keys_spec (sp : list string) (kvs : list (string * value))
    (conf conf' : gmap string value) (a a' : list string) :
  NoDup kvs.*1 ->
  merge_keys sp kvs conf a = Ret (conf', a') ->
  (forall k, k ∉ kvs.*1 -> conf' !! k = conf !! k)
  /\ (forall k fv, (k, fv) ∈ kvs -> key_merged sp conf k fv conf')
  /\ (forall cv stored, ("pages", VList stored) ∈ kvs ->
        conf !! "pages" = Some cv -> "pages" ∈ sp ->
        exists cli m, py_iter cv = Ret cli
          /\ merge_list "pages" cli stored a = Ret (m, a')
          /\ conf' !! "pages" = Some (VList m))
  /\ (("pages" ∉ kvs.*1 \/ conf !! "pages" = None \/ "pages" ∉ sp) -> a' = a).
Proof.
  revert conf a. induction kvs as [|[k0 fv0] rest IH]; intros conf a Hnd H.
  - injection H as <- <-. repeat split; auto.
    + intros k fv Hin. now apply elem_of_nil in Hin.
    + intros cv stored Hin. now apply elem_of_nil in Hin.
  - cbn [merge_keys] in H. cbn in Hnd. apply NoDup_cons in Hnd as [Hk0 Hnd].
    destruct (merge_key sp k0 fv0 conf a) as [[conf1 a1]|e] eqn:Hk; cbn [res_bind] in H;
      [|discriminate].
    destruct (merge_key_spec _ _ _ _ _ _ _ Hk) as (Hkm & Hfr & Hne & Hpg & Hsame).
    destruct (IH _ _ Hnd H) as (Hout & Hin & Hpages & Ha).
    split; [|split; [|split]].
    + intros k Hk'. cbn in Hk'. apply not_elem_of_cons in Hk' as [Hne' Hk'].
      rewrite (Hout k Hk'). now apply Hfr.
    + intros k fv Hkv. apply elem_of_cons in Hkv as [[= -> ->]|Hkv].
      * eapply key_merged_frame; [reflexivity | now apply Hout | exact Hkm].
      * assert (k <> k0).
        { intros ->. apply Hk0. apply list_elem_of_fmap. now exists (k0, fv). }
        eapply key_merged_frame; [now apply Hfr | reflexivity | now apply Hin].
    + intros cv stored Hkv Hc Hsp. apply elem_of_cons in Hkv as [[= <- <-]|Hkv].
      * destruct (Hpg cv stored Hc Hsp eq_refl) as (cli & m & Hit & Hm & Hl).
        exists cli, m. rewrite (Ha (or_introl Hk0)) . rewrite (Hout _ Hk0).
        repeat split; assumption.
      * assert (Hn : "pages" <> k0).
        { intros <-. apply Hk0. apply list_elem_of_fmap. now exists ("pages", VList stored). }
        rewrite <- (Hne (not_eq_sym Hn)).
        apply (Hpages cv stored Hkv); [|exact Hsp]. rewrite (Hfr _ Hn). exact Hc.
    + intros Hcase. destruct (decide (k0 = "pages")) as [->|Hn].
      * rewrite (Ha (or_introl Hk0)). apply Hsame.
        destruct Hcase as [Hc|[Hc|Hc]]; [|now left | right; now left].
        exfalso. apply Hc. cbn. apply list_elem_of_here.
      * rewrite <- (Hne Hn). apply Ha.
        destruct Hcase as [Hc|[Hc|Hc]].
        -- left. intros Hin'. apply Hc. cbn. now apply list_elem_of_further.
        -- right. left. rewrite (Hfr _ (not_eq_sym Hn)). exact Hc.
        -- right. now right.
Qed.

End MergeConfig.

(** X18.  After the merge each key of the stored configuration has the
    stored value, unless the command line set it: then a scalar keeps the
    value of the command line, and a list becomes the stored list with
    items appended.  Keys absent from the stored configuration keep the
    value of the command line. *)
Theorem merge_config_precedence (sp : list string) (fileConf conf conf' : gmap string value)
    (added : list string) :
  merge_config sp fileConf conf = Ret (conf', added) ->
  forall k,
    match fileConf !! k with
    | Some fv => key_merged sp conf k fv conf'
    | None => conf' !! k = conf !! k
    end.
Proof.
  unfold merge_config. intros H k.
  destruct (merge_keys_spec _ _ _ _ _ _ (NoDup_fst_map_to_list fileConf) H)
    as (Hout & Hin & _).
  destruct (fileConf !! k) as [fv|] eqn:Hk.
  - apply Hin. now apply elem_of_map_to_list.
  - apply Hout. intros Hin'. apply list_elem_of_fmap in Hin' as ([k' fv] & -> & Hkv).
    apply elem_of_map_to_list in Hkv. cbn in Hk. congruence.
Qed.

(** X19.  When both the command line and the stored configuration
    list pages, the merged list is the stored one, in its order, followed
    by those pages of the command line that are not stored entries, in
    the order of the command line and without repetition; the recorded
    urls are exactly the urls of the appended pages, in that order; and
    every page of the command line is in the merged list. *)
Theorem merge_config_pages (sp : list string) (fileConf conf conf' : gmap string value)
    (cli : list Page.t) (stored : list item) (added : list string) :
  conf !! "pages" = Some (VList (IPage <$> cli)) ->
  "pages" ∈ sp ->
  fileConf !! "pages" = Some (VList stored) ->
  merge_config sp fileConf conf = Ret (conf', added) ->
  exists new,
    conf' !! "pages" = Some (VList (stored ++ (IPage <$> new)))
    /\ added = Page.url <$> new
    /\ sublist new cli /\ NoDup new
    /\ (forall p, p ∈ new -> IPage p ∉ stored)
    /\ (forall p, p ∈ cli -> IPage p ∈ stored ++ (IPage <$> new)).
Proof.
  unfold merge_config. intros Hc Hsp Hf H.
  destruct (merge_keys_spec _ _ _ _ _ _ (NoDup_fst_map_to_list fileConf) H)
    as (_ & _ & Hpages & _).
  apply elem_of_map_to_list in Hf.
  destruct (Hpages _ _ Hf Hc Hsp) as (cli' & m & Hit & Hm & Hl).
  injection Hit as <-.
  destruct (merge_list_pages cli stored []) as (new & Hm' & Hrest).
  rewrite Hm' in Hm. injection Hm as <- <-.
  exists new. split; [exact Hl|]. split; [reflexivity | exact Hrest].
Qed.

(** X20.  No url is recorded as newly added when the stored
    configuration lists no pages or when no page was given on the command
    line. *)
Theorem merge_config_no_new_pages (sp : list string) (fileConf conf conf' : gmap string value)
    (added : list string) :
  fileConf !! "pages" = None \/ "pages" ∉ sp ->
  merge_config sp fileConf conf = Ret (conf', added) ->
  added = [].
Proof.
  unfold merge_config. intros Hcase H.
  destruct (merge_keys_spec _ _ _ _ _ _ (NoDup_fst_map_to_list fileConf) H)
    as (_ & _ & _ & Ha).
  apply Ha. destruct Hcase as [Hf|Hs]; [left | right; now right].
  intros Hin. apply list_elem_of_fmap in Hin as ([k' fv] & Hk & Hkv).
  apply elem_of_map_to_list in Hkv. cbn in Hk. subst k'. congruence.
Qed.

Section ParseArgs.

Lemma parseArgs_stages (env : Env) (args : Args.t) (argConf : gmap string value)
    (whatToDo setParams : list string) :
  parseArgs env args = Ret (argConf, whatToDo, setParams) ->
  exists (pages : list Page.t) (events : list item),
    let base : gmap string value :=
      if Args.quiet args
      then <["verbosity" := VItem (INum (-1))]> {[ "pages" := VList [] ]}
      else <["verbosity" := VItem (INum (Z.of_nat (Args.verbose args)))]>
             {[ "pages" := VList [] ]} in
    let a1 := match truthy_list (Args.page args) with
              | Some _ => <["pages" := VList (IPage <$> pages)]> base
              | None => base
              end in
    let a2 := <["browser" := VItem (IStr (default _default_browser
                                            (truthy_str (Args.browser args))))]> a1 in
    let a3 := <["event_list" := VList events]>
                (<["use_xvfb" := VItem (IBool (Args.use_xvfb args))]> a2) in
    let a4 := <["log_path" := VItem (IStr (default (home env +:+ "/" +:+ ".change-poller.log")
                                             (truthy_str (Args.log_path args))))]> a3 in
    let a5 := match truthy_str (Args.config_file args) with
              | Some c => <["data_dir" := VItem (IStr c)]> a4
              | None => a4
              end in
    let a6 := match truthy_str (Args.data_dir args) with
              | Some d => <["data_dir" := VItem (IStr d)]> a5
              | None => a5
              end in
    let w0 : list string := [] in
    let w1 := if Args.save_config args then w0 ++ ["save-config"] else w0 in
    let w2 := if Args.print_config args then w1 ++ ["print-config"] else w1 in
    let w3 := if bool_decide (w2 = []) && negb (Args.no_run args)
              then w2 ++ ["run"] else w2 in
    argConf = a6
    /\ match truthy_list (Args.page args) with
       | Some ps => exists sp1, parse_pages env ps [] ([] ++ ["pages"]) = Ret (pages, sp1)
       | None => pages = []
       end
    /\ match truthy_list (Args.event_list args) with
       | Some es => check_events es = Ret events
       | None => events = IStr <$> _valid_notification_events
       end
    /\ whatToDo = w3
    /\ ("run" ∈ whatToDo ->
        webdriver_has env (default _default_browser (truthy_str (Args.browser args))) = true).
Proof.
  unfold parseArgs. intros H.
  destruct (truthy_list (Args.page args)) as [ps|] eqn:Hps; cbn [res_bind] in H.
  all: try (destruct (parse_pages env ps [] ([] ++ ["pages"])) as [[pages sp1]|] eqn:Hpp;
         cbn [res_bind] in H; [|discriminate]).
  all: destruct (truthy_str (Args.browser args)) as [b|] eqn:Hb.
  all: destruct (truthy_list (Args.event_list args)) as [es|] eqn:Hes; cbn [res_bind] in H.
  all: try (destruct (check_events es) as [events|] eqn:Hce; cbn [res_bind] in H; [|discriminate]).
  all: destruct (truthy_str (Args.log_path args)) as [l|] eqn:Hl.
  all: destruct (truthy_str (Args.config_file args)) as [c|] eqn:Hc.
  all: destruct (truthy_str (Args.data_dir args)) as [d|] eqn:Hd.
  all: cbv zeta beta iota in H.
  all: rewrite ?lookup_insert_ne in H by discriminate.
  all: rewrite lookup_insert_eq in H.
  all: match type of H with
       | (if ?c && negb ?wh then _ else _) = _ =>
           destruct (c && negb wh) eqn:E; [discriminate|]
       end.
  all: injection H as <- <- <-.
  all: first [exists pages | exists []]; first [exists events | exists (IStr <$> _valid_notification_events)].
  all: cbv zeta; cbn [default].
  all: (split; [reflexivity|]).
  all: (split; [first [now exists sp1 | reflexivity]|]).
  all: (split; [reflexivity|]).
  all: (split; [reflexivity|]).
  all: intros Hrun; apply andb_false_iff in E as [E|E];
       [apply bool_decide_eq_false in E; contradiction
       |now apply negb_false_iff in E].
Qed.

Lemma parse_page_Ret (env : Env) (p : list string) (pages pages' : list Page.t) :
  parse_page env p pages = Ret pages' ->
  exists pg, pages' = pages ++ [pg] /\ good_page env pg
    /\ (Page.url pg ∉ (Page.url <$> pages))
    /\ (p = [Page.url pg; Page.selector pg] /\ Page.regex pg = None
        \/ exists rx, p = [Page.url pg; Page.selector pg; rx] /\ Page.regex pg = Some rx).
Proof.
  unfold parse_page. destruct p as [|url [|sel more]]; try discriminate.
  destruct ((3 <? length (url :: sel :: more))%nat) eqn:Hlen; [discriminate|].
  destruct (re_match url_regex url) eqn:Hu; [|discriminate]. cbn [negb].
  destruct (existsb _ pages) eqn:Hex; [discriminate|].
  assert (Hnew : url ∉ (Page.url <$> pages)).
  { intros Hin. apply list_elem_of_fmap in Hin as (q & -> & Hq).
    apply not_true_iff_false in Hex. apply Hex. apply existsb_exists.
    exists q. split; [now apply list_elem_of_In | now apply bool_decide_eq_true]. }
  destruct more as [|rx [|x more]].
  - intros [= <-]. exists (Page.mk url sel None). repeat split; try assumption.
    + discriminate.
    + now left.
  - destruct (re_compiles env rx) eqn:Hrx; [|discriminate].
    intros [= <-]. exists (Page.mk url sel (Some rx)). repeat split; try assumption.
    + now intros ? [= <-].
    + right. now exists rx.
  - cbn in Hlen. discriminate.
Qed.

Lemma parse_pages_Ret (env : Env) (ps : list (list string)) (pages pages' : list Page.t)
    (sp sp' : list string) :
  parse_pages env ps pages sp = Ret (pages', sp') ->
  NoDup (Page.url <$> pages) -> Forall (good_page env) pages ->
  NoDup (Page.url <$> pages') /\ Forall (good_page env) pages'
  /\ length pages' = (length pages + length ps)%nat.
Proof.
  revert pages sp. induction ps as [|p rest IH]; intros pages sp H Hnd Hg.
  - injection H as <- <-. cbn. repeat split; [assumption | assumption | lia].
  - cbn [parse_pages] in H.
    destruct (parse_page env p pages) as [pages1|e] eqn:Hp; cbn [res_bind] in H;
      [|discriminate].
    apply parse_page_Ret in Hp as (pg & -> & Hgp & Hnew & _).
    destruct (IH _ _ H) as (Hnd' & Hg' & Hlen).
    + rewrite fmap_app. apply NoDup_app. split; [exact Hnd|]. split.
      * intros x Hx Hx'. cbn in Hx'. apply list_elem_of_singleton in Hx'. now subst x.
      * cbn. apply NoDup_singleton.
    + apply Forall_app. split; [exact Hg | now constructor].
    + rewrite length_app in Hlen. cbn in *. repeat split; [assumption | assumption | lia].
Qed.

End ParseArgs.

(** X14.  Every command line that [parseArgs] accepts yields a page
    list with pairwise distinct urls, each accepted by the url pattern,
    each pattern compiling, one page per [--page] option. *)
Theorem parseArgs_pages (env : Env) (args : Args.t) (argConf : gmap string value)
    (whatToDo setParams : list string) :
  parseArgs env args = Ret (argConf, whatToDo, setParams) ->
  exists pages,
    argConf !! "pages" = Some (VList (IPage <$> pages))
    /\ NoDup (Page.url <$> pages)
    /\ Forall (good_page env) pages
    /\ length pages = length (default [] (Args.page args)).
Proof.
  intros H. apply parseArgs_stages in H as (pages & events & H). cbv zeta in H.
  destruct H as (-> & Hpages & _).
  exists pages. split.
  - destruct (truthy_str (Args.data_dir args)), (truthy_str (Args.config_file args));
      rewrite ?lookup_insert_ne by discriminate;
      destruct (truthy_list (Args.page args));
      try apply lookup_insert_eq;
      subst pages; destruct (Args.quiet args);
      rewrite lookup_insert_ne by discriminate; apply lookup_singleton_eq.
  - destruct (Args.page args) as [[|p ps]|]; cbn [truthy_list] in Hpages;
      try (subst pages; cbn; repeat split; constructor).
    destruct Hpages as [sp1 Hpp].
    apply parse_pages_Ret in Hpp as (Hnd & Hg & Hlen); [|constructor|constructor].
    repeat split; assumption.
Qed.

(** X15.  What an accepted command line asks for: saving and printing
    the configuration as requested, and the run only when neither is
    requested and [--no-run] is absent; and the run is only scheduled
    when Selenium knows the browser. *)
Theorem parseArgs_whatToDo (env : Env) (args : Args.t) (argConf : gmap string value)
    (whatToDo setParams : list string) :
  parseArgs env args = Ret (argConf, whatToDo, setParams) ->
  whatToDo
  = (if Args.save_config args then ["save-config"] else [])
    ++ (if Args.print_config args then ["print-config"] else [])
    ++ (if Args.save_config args || Args.print_config args || Args.no_run args
        then [] else ["run"])
  /\ ("run" ∈ whatToDo ->
      exists b, argConf !! "browser" = Some (VItem (IStr b)) /\ webdriver_has env b = true).
Proof.
  intros H. apply parseArgs_stages in H as (pages & events & H). cbv zeta in H.
  destruct H as (-> & _ & _ & -> & Hrun). split.
  - destruct (Args.save_config args), (Args.print_config args), (Args.no_run args);
      reflexivity.
  - intros Hr. eexists. split; [|exact (Hrun Hr)].
    destruct (truthy_str (Args.data_dir args)), (truthy_str (Args.config_file args));
      rewrite ?lookup_insert_ne by discriminate; apply lookup_insert_eq.
Qed.

Lemma parseArgs_verbosity (env : Env) (args : Args.t)
    (argConf : gmap string value) (whatToDo setParams : list string) :
  parseArgs env args = Ret (argConf, whatToDo, setParams) ->
  argConf !! "verbosity"
  = Some (VItem (INum (if Args.quiet args then -1 else Z.of_nat (Args.verbose args)))).
Proof.
  intros H. apply parseArgs_stages in H as (pages & events & H). cbv zeta in H.
  destruct H as (-> & _).
  destruct (truthy_str (Args.data_dir args)), (truthy_str (Args.config_file args));
    rewrite ?lookup_insert_ne by discriminate;
    destruct (truthy_list (Args.page args)); rewrite ?lookup_insert_ne by discriminate;
    destruct (Args.quiet args); apply lookup_insert_eq.
Qed.

Lemma parseArgs_log_path (env : Env) (args : Args.t)
    (argConf : gmap string value) (whatToDo setParams : list string) :
  parseArgs env args = Ret (argConf, whatToDo, setParams) ->
  argConf !! "log_path"
  = Some (VItem (IStr (default (home env +:+ "/" +:+ ".change-poller.log")
                         (truthy_str (Args.log_path args))))).
Proof.
  intros H. apply parseArgs_stages in H as (pages & events & H). cbv zeta in H.
  destruct H as (-> & _).
  destruct (truthy_str (Args.data_dir args)), (truthy_str (Args.config_file args));
    rewrite ?lookup_insert_ne by discriminate; apply lookup_insert_eq.
Qed.

(** X16.  On a logger without handlers [setupLogger], applied to a
    parsed command line, leaves the program for three or more [-v].
    For [--quiet] and for at most two [-v] the file handler opens the
    log file, the one given with [-l] or else [.change-poller.log] in
    the home directory: the two handlers are installed when that
    succeeds, and when it raises the exception leaves [setupLogger] and
    no handler is installed. *)
Theorem verbosity_decides_setupLogger (env : Env) (args : Args.t)
    (argConf : gmap string value) (whatToDo setParams : list string) (st : St) :
  parseArgs env args = Ret (argConf, whatToDo, setParams) ->
  has_handlers st = false ->
  let log_path := default (home env +:+ "/" +:+ ".change-poller.log")
                    (truthy_str (Args.log_path args)) in
  setupLogger env argConf st
  = if Args.quiet args || (Args.verbose args <=? 2)%nat
    then match fs_fault env (ops st) (OpenLog log_path) with
         | Some e => (Raise e, st)
         | None => (Ret tt, MkSt (fs st) (log st) (writes st) true
                              (ops st ++ [OpenLog log_path]))
         end
    else (Raise SystemExit, st).
Proof.
  intros H Hh log_path. unfold setupLogger.
  rewrite Hh, (parseArgs_verbosity _ _ _ _ _ H), (parseArgs_log_path _ _ _ _ _ H).
  fold log_path.
  assert (Hopen : (path <- lift (as_str (VItem (IStr log_path))) ;;
                   perform env (OpenLog path) ;;; add_handlers) st
                  = match fs_fault env (ops st) (OpenLog log_path) with
                    | Some e => (Raise e, st)
                    | None => (Ret tt, MkSt (fs st) (log st) (writes st) true
                                         (ops st ++ [OpenLog log_path]))
                    end).
  { unfold bind, lift, perform, add_handlers. cbn [as_str].
    destruct (fs_fault env (ops st) (OpenLog log_path)); reflexivity. }
  destruct (Args.quiet args); [exact Hopen|]. cbn [orb].
  destruct (Args.verbose args) as [|[|[|n]]]; try exact Hopen.
  replace (Z.of_nat (S (S (S n)))) with (Z.of_nat n + 3) by lia.
  unfold py_in, py_eq. cbn [existsb].
  rewrite !bool_decide_eq_false_2; [reflexivity | | | |]; intros [=]; lia.
Qed.

(** * The site list of the desktop notification *)

Section Sites.

Lemma sites_loop_spec (changes : list Change.t) (m : nat) :
  forall fuel i sites,
    (i < length changes)%nat -> (length changes - i <= fuel)%nat ->
    NoDup sites -> (length sites <= m)%nat ->
    (forall d, d ∈ sites -> exists c, c ∈ changes /\ Change.domain c = d) ->
    exists shown,
      sites_loop fuel changes m i sites = Some (Ret shown)
      /\ NoDup shown /\ (length shown <= m)%nat
      /\ (forall d, d ∈ shown -> exists c, c ∈ changes /\ Change.domain c = d)
      /\ sites `prefix_of` shown.
Proof.
  induction fuel as [|fuel IH]; intros i sites Hi Hf Hnd Hlen Hdom; [lia|].
  cbn [sites_loop]. destruct (length sites <? m)%nat eqn:Hlt.
  - apply Nat.ltb_lt in Hlt.
    destruct (changes !! i) as [c|] eqn:Hc;
      [|apply lookup_ge_None in Hc; lia].
    set (sites' := if bool_decide (Change.domain c ∈ sites) then sites
                   else sites ++ [Change.domain c]).
    assert (Hs' : NoDup sites' /\ (length sites' <= m)%nat
                  /\ (forall d, d ∈ sites' -> exists c, c ∈ changes /\ Change.domain c = d)
                  /\ sites `prefix_of` sites').
    { unfold sites'. destruct (bool_decide (Change.domain c ∈ sites)) eqn:Hin.
      - repeat split; try assumption. reflexivity.
      - apply bool_decide_eq_false in Hin. repeat split.
        + apply NoDup_app. split; [exact Hnd|]. split; [|apply NoDup_singleton].
          intros x Hx Hx'. apply list_elem_of_singleton in Hx'. now subst x.
        + rewrite length_app. cbn. lia.
        + intros d Hd. apply elem_of_app in Hd as [Hd|Hd]; [now apply Hdom|].
          apply list_elem_of_singleton in Hd. subst d. exists c. split; [|reflexivity].
          eapply list_elem_of_lookup_2. exact Hc.
        + now apply prefix_app_r. }
    destruct Hs' as (Hnd' & Hlen' & Hdom' & Hpre).
    destruct (length changes <=? S i)%nat eqn:Hend.
    + exists sites'. repeat split; assumption.
    + apply Nat.leb_gt in Hend.
      destruct (IH (S i) sites') as (shown & Hr & H1 & H2 & H3 & H4);
        try assumption; try lia.
      exists shown. repeat split; try assumption.
      etransitivity; [exact Hpre | exact H4].
  - exists sites. repeat split; try assumption. reflexivity.
Qed.

End Sites.

(** X22.  The list of sites of the desktop notification is always
    built, without running past the end of [changes]: it names at most
    three domains of changed pages, each once, the domain of the first
    change first, and ends with [...] exactly when more changes were
    found than domains are named. *)
Theorem notify_sites_spec (changes : list Change.t) :
  exists shown,
    notify_sites changes
      = Some (Ret (if (length shown <? length changes)%nat then shown ++ ["..."]
                   else shown))
    /\ NoDup shown /\ (length shown <= 3)%nat
    /\ (forall d, d ∈ shown -> exists c, c ∈ changes /\ Change.domain c = d)
    /\ (forall c, changes !! 0%nat = Some c -> shown !! 0%nat = Some (Change.domain c)).
Proof.
  unfold notify_sites. destruct changes as [|c0 rest].
  - exists []. cbn. repeat split; [constructor | lia | |];
      [intros d Hd; now apply elem_of_nil in Hd | discriminate].
  - set (changes := c0 :: rest).
    assert (H0 : exists shown,
               sites_loop (S (length changes)) changes (Nat.min (length changes) 3) 0 []
                 = Some (Ret shown)
               /\ NoDup shown /\ (length shown <= Nat.min (length changes) 3)%nat
               /\ (forall d, d ∈ shown -> exists c, c ∈ changes /\ Change.domain c = d)
               /\ shown !! 0%nat = Some (Change.domain c0)).
    { cbn [sites_loop]. replace (length [] <? Nat.min (length changes) 3)%nat with true
        by (symmetry; apply Nat.ltb_lt; cbn; lia).
      cbn [lookup list_lookup changes]. cbn [bool_decide].
      rewrite bool_decide_eq_false_2 by apply not_elem_of_nil. cbn [app].
      destruct (length changes <=? 1)%nat eqn:Hend.
      - exists [Change.domain c0]. repeat split.
        + apply NoDup_singleton.
        + cbn. lia.
        + intros d Hd. apply list_elem_of_singleton in Hd. subst d.
          exists c0. split; [apply list_elem_of_here | reflexivity].
      - apply Nat.leb_gt in Hend.
        destruct (sites_loop_spec changes (Nat.min (length changes) 3)
                    (length changes) 1 [Change.domain c0])
          as (shown & Hr & H1 & H2 & H3 & H4); try lia.
        + apply NoDup_singleton.
        + cbn. lia.
        + intros d Hd. apply list_elem_of_singleton in Hd. subst d.
          exists c0. split; [apply list_elem_of_here | reflexivity].
        + exists shown. repeat split; try assumption.
          destruct H4 as [k ->]. reflexivity. }
    destruct H0 as (shown & Hr & H1 & H2 & H3 & H4).
    exists shown. rewrite Hr. repeat split; try assumption; [lia|].
    intros c [= <-]. exact H4.
Qed.


Lemma merge_list_idempotent_witness :
  merge_list "event_list" [IStr "log"; IStr "print"] [IStr "notify"] []
    = Ret ([IStr "notify"; IStr "log"; IStr "print"], [])
  /\ merge_list "event_list" [IStr "log"; IStr "print"]
       [IStr "notify"; IStr "log"; IStr "print"] ["x"]
     = Ret ([IStr "notify"; IStr "log"; IStr "print"], ["x"]).
Proof.
  split; [reflexivity|].
  apply (merge_list_idempotent "event_list" [IStr "log"; IStr "print"] [IStr "notify"]
           [IStr "notify"; IStr "log"; IStr "print"] [] [] ["x"]).
  reflexivity.
Defined.

Lemma merge_config_precedence_witness :
  let sp := ["browser"] in
  let fileConf : gmap string value :=
    {[ "browser" := VItem (IStr "Chrome"); "log_path" := VItem (IStr "/var/log/cp") ]} in
  let conf : gmap string value :=
    {[ "browser" := VItem (IStr "Firefox"); "log_path" := VItem (IStr "/home/u/cp.log");
       "use_xvfb" := VItem (IBool false) ]} in
  exists conf' added,
    merge_config sp fileConf conf = Ret (conf', added)
    /\ forall k,
         match fileConf !! k with
         | Some fv => key_merged sp conf k fv conf'
         | None => conf' !! k = conf !! k
         end.
Proof.
  intros sp fileConf conf.
  assert (Hv : res_map snd (merge_config sp fileConf conf) = Ret [])
    by (vm_compute; reflexivity).
  destruct (merge_config sp fileConf conf) as [[conf' added]|e] eqn:H; [|discriminate].
  exists conf', added. split; [reflexivity|].
  exact (merge_config_precedence sp fileConf conf conf' added H).
Defined.

Lemma merge_config_pages_witness :
  let cli := [Page.mk url_A "h1" None; Page.mk url_B "h2" None] in
  let stored := [IPage (Page.mk url_A "h1" None)] in
  let fileConf : gmap string value := {[ "pages" := VList stored ]} in
  let conf : gmap string value := {[ "pages" := VList (IPage <$> cli) ]} in
  exists conf' added new,
    merge_config ["pages"] fileConf conf = Ret (conf', added)
    /\ conf' !! "pages" = Some (VList (stored ++ (IPage <$> new)))
    /\ added = Page.url <$> new
    /\ sublist new cli /\ NoDup new
    /\ (forall p, p ∈ new -> IPage p ∉ stored)
    /\ (forall p, p ∈ cli -> IPage p ∈ stored ++ (IPage <$> new)).
Proof.
  intros cli stored fileConf conf.
  assert (Hv : res_map snd (merge_config ["pages"] fileConf conf) = Ret [url_B])
    by (vm_compute; reflexivity).
  destruct (merge_config ["pages"] fileConf conf) as [[conf' added]|e] eqn:H;
    [|discriminate].
  assert (Hc : conf !! "pages" = Some (VList (IPage <$> cli))) by apply lookup_singleton_eq.
  assert (Hs : "pages" ∈ ["pages"]) by apply list_elem_of_here.
  assert (Hf : fileConf !! "pages" = Some (VList stored)) by apply lookup_singleton_eq.
  destruct (merge_config_pages ["pages"] fileConf conf conf' cli stored added Hc Hs Hf H)
    as (new & Hnew).
  exists conf', added, new. split; [reflexivity | exact Hnew].
Defined.

Lemma merge_config_no_new_pages_witness :
  let fileConf : gmap string value := {[ "browser" := VItem (IStr "Chrome") ]} in
  let conf : gmap string value :=
    {[ "pages" := VList [IPage (Page.mk url_A "h1" None)] ]} in
  exists conf' added,
    merge_config ["pages"] fileConf conf = Ret (conf', added) /\ added = [].
Proof.
  intros fileConf conf.
  assert (Hv : res_map snd (merge_config ["pages"] fileConf conf) = Ret [])
    by (vm_compute; reflexivity).
  destruct (merge_config ["pages"] fileConf conf) as [[conf' added]|e] eqn:H;
    [|discriminate].
  exists conf', added. split; [reflexivity|].
  apply (merge_config_no_new_pages ["pages"] fileConf conf conf' added); [|exact H].
  left. apply lookup_singleton_ne. discriminate.
Defined.

Lemma parseArgs_pages_witness :
  let env := sample_env default_path ∅ in
  let args := Args.mk (Some [[url_A; "h1"]; [url_B; "h2"; "v(.)"]]) None false None None
                false false None None false 0 false in
  exists argConf whatToDo setParams pages,
    parseArgs env args = Ret (argConf, whatToDo, setParams)
    /\ argConf !! "pages" = Some (VList (IPage <$> pages))
    /\ NoDup (Page.url <$> pages)
    /\ Forall (good_page env) pages
    /\ length pages = length (default [] (Args.page args)).
Proof.
  intros env args.
  assert (Hv : args_view (parseArgs env args)
               = Ret (None, None,
                      [IPage (Page.mk url_A "h1" None); IPage (Page.mk url_B "h2" (Some "v(.)"))],
                      ["run"], ["pages"; "pages"; "pages"]))
    by (vm_compute; reflexivity).
  destruct (parseArgs env args) as [[[argConf whatToDo] setParams]|e] eqn:H;
    [|discriminate].
  destruct (parseArgs_pages env args argConf whatToDo setParams H) as (pages & Hp).
  exists argConf, whatToDo, setParams, pages. split; [reflexivity | exact Hp].
Defined.

Lemma parseArgs_whatToDo_witness :
  let env := sample_env default_path ∅ in
  let args := Args.mk None None false None None true false None None false 0 false in
  exists argConf whatToDo setParams,
    parseArgs env args = Ret (argConf, whatToDo, setParams)
    /\ whatToDo
       = (if Args.save_config args then ["save-config"] else [])
         ++ (if Args.print_config args then ["print-config"] else [])
         ++ (if Args.save_config args || Args.print_config args || Args.no_run args
             then [] else ["run"])
    /\ ("run" ∈ whatToDo ->
        exists b, argConf !! "browser" = Some (VItem (IStr b)) /\ webdriver_has env b = true).
Proof.
  intros env args.
  assert (Hv : args_view (parseArgs env args) = Ret (None, None, [], ["save-config"], []))
    by (vm_compute; reflexivity).
  destruct (parseArgs env args) as [[[argConf whatToDo] setParams]|e] eqn:H;
    [|discriminate].
  exists argConf, whatToDo, setParams. split; [reflexivity|].
  exact (parseArgs_whatToDo env args argConf whatToDo setParams H).
Defined.

Lemma verbosity_decides_setupLogger_witness :
  let env := sample_env default_path ∅ in
  let args := Args.mk None None false None (Some "/var/log/cp.log") false false None None
                false 2 false in
  exists argConf whatToDo setParams,
    parseArgs env args = Ret (argConf, whatToDo, setParams)
    /\ has_handlers (start ∅) = false
    /\ setupLogger env argConf (start ∅)
       = (Ret tt, MkSt ∅ [] 0 true [OpenLog "/var/log/cp.log"]).
Proof.
  intros env args.
  assert (Hv : args_view (parseArgs env args) = Ret (None, None, [], ["run"], ["log_path"]))
    by (vm_compute; reflexivity).
  destruct (parseArgs env args) as [[[argConf whatToDo] setParams]|e] eqn:H;
    [|discriminate].
  exists argConf, whatToDo, setParams. split; [reflexivity|]. split; [reflexivity|].
  exact (verbosity_decides_setupLogger env args argConf whatToDo setParams (start ∅)
           H eq_refl).
Defined.

Section FirstRun.




End FirstRun.



(** ** File names of accepted urls, and the events *)

Section SlugNonEmpty.

Lemma at_most_chr_inv {A} (p : ascii -> bool) (n : nat) (k : string -> option A)
    (s : string) :
  is_Some (at_most (run_re (Chr p)) n k s) ->
  exists pre post, s = pre +:+ post /\ is_Some (k post).
Proof.
  revert s. induction n as [|n IH]; intros s H.
  - exists "", s. split; [reflexivity | exact H].
  - cbn [at_most] in H. apply is_Some_orelse in H as [H|H].
    + cbn [run_re] in H. destruct s as [|c s]; [now destruct H|].
      destruct (p c); [|now destruct H].
      destruct (IH _ H) as (pre & post & -> & Hk).
      exists (String c pre), post. split; [reflexivity | exact Hk].
    + exists "", s. split; [reflexivity | exact H].
Qed.

Lemma is_lower_word (c : ascii) :
  is_lower c = true -> is_word c = true /\ c <> "_"%char.
Proof.
  intros H. split.
  - unfold is_word. now rewrite H.
  - intros ->. vm_compute in H. discriminate.
Qed.

Lemma underscores_all (n : nat) (c : ascii) :
  str_mem c (underscores n) = true -> c = "_"%char.
Proof.
  induction n as [|n IH]; cbn [underscores str_mem]; [discriminate|].
  intros H. apply orb_true_iff in H as [H|H]; [|now apply IH].
  apply Ascii.eqb_eq in H. now subst.
Qed.

Lemma re_sub_keeps (c : ascii) (t : string) :
  str_mem c t = true -> safe_char c = true -> str_mem c (re_sub_suspicious t) = true.
Proof.
  unfold re_sub_suspicious. intros H Hs.
  induction t as [|x t IH]; cbn [str_map str_mem] in *; [discriminate|].
  apply orb_true_iff in H as [H|H].
  - apply Ascii.eqb_eq in H. subst x. unfold suspicious.
    unfold safe_char in Hs. rewrite Hs. cbn [negb]. now rewrite Ascii.eqb_refl.
  - rewrite (IH H). now rewrite orb_true_r.
Qed.

(** The text after the separator of an accepted url holds a lower-case
    letter. *)
Lemma url_regex_rest (u : string) :
  re_match url_regex u = true ->
  exists rest l, after_sep u = Some rest /\ str_mem l rest = true /\ is_lower l = true
    /\ exists pre, u = pre +:+ rest.
Proof.
  unfold re_match, url_regex. intros H. apply bool_decide_eq_true in H.
  cbn [run_re] in H. rewrite run_lit in H.
  destruct (strip_prefix "http" u) as [r1|] eqn:Hh; [|now destruct H].
  apply strip_prefix_app in Hh. subst u.
  assert (Hk : forall r,
    is_Some (run_re (lit "://")
      (exactly (run_re (Chr url_host_class)) 2
         (at_most (run_re (Chr url_host_class)) (256 - 2)
            (run_re (Seq (Chr (Ascii.eqb ".")) (Seq (Rep (Chr is_lower) 2 63)
               (Seq (Opt (Chr (Ascii.eqb "/"))) (Star url_path_class))))
               (fun rest => Some rest)))) r) ->
    exists rest l, r = "://" +:+ rest /\ str_mem l rest = true /\ is_lower l = true).
  { intros r Hr. rewrite run_lit in Hr.
    destruct (strip_prefix "://" r) as [r3|] eqn:Hs; [|now destruct Hr].
    apply strip_prefix_app in Hs. subst r. cbn [exactly run_re] in Hr.
    destruct r3 as [|c1 r3]; [now destruct Hr|].
    destruct (url_host_class c1); [|now destruct Hr].
    destruct r3 as [|c2 r4]; [now destruct Hr|].
    destruct (url_host_class c2); [|now destruct Hr].
    apply (at_most_chr_inv url_host_class) in Hr as (pre & post & -> & Hr).
    destruct post as [|d post]; [now destruct Hr|].
    destruct (Ascii.eqb "." d); [|now destruct Hr].
    destruct post as [|l post]; [now destruct Hr|].
    destruct (is_lower l) eqn:Hl; [|now destruct Hr].
    exists (String c1 (String c2 (pre +:+ String d (String l post)))), l.
    split; [reflexivity|]. split; [|exact Hl].
    cbn [str_mem]. rewrite str_mem_app. cbn [str_mem]. rewrite Ascii.eqb_refl.
    now rewrite !orb_true_r. }
  apply orelse_is_Some in H as [H|H].
  - destruct r1 as [|c r2]; [now destruct H|].
    destruct (Ascii.eqb_spec "s" c) as [<-|]; [|now destruct H].
    destruct (Hk _ H) as (rest & l & -> & Hm & Hl).
    exists rest, l. split; [|split; [exact Hm|split; [exact Hl|]]].
    + apply (after_sep_here ("://" +:+ rest)). apply strip_prefix_append.
    + now exists "https://".
  - destruct (Hk _ H) as (rest & l & -> & Hm & Hl).
    exists rest, l. split; [|split; [exact Hm|split; [exact Hl|]]].
    + apply (after_sep_here ("://" +:+ rest)). apply strip_prefix_append.
    + now exists "http://".
Qed.

End SlugNonEmpty.

(** X23.  For every url that the check of the command line accepts and
    that holds no line feed, [getSafeFilename] returns a name, and the
    name is not empty. *)
Theorem accepted_url_has_file_name (u : string) :
  re_match url_regex u = true -> str_mem LF u = false ->
  exists slug, getSafeFilename u = Ret slug /\ slug <> "".
Proof.
  intros Hm Hnl.
  destruct (url_regex_rest u Hm) as (rest & l & Ha & Hl & Hlow & pre & Hu).
  assert (Hr : str_mem LF rest = false).
  { subst u. rewrite str_mem_app in Hnl. now apply orb_false_elim in Hnl as [_ ?]. }
  exists (strip "_" (re_sub_suspicious rest)). split.
  - unfold getSafeFilename. now rewrite (remove_protocol_found u rest Ha Hr).
  - intros He.
    destruct (strip_spec (re_sub_suspicious rest)) as (a & b & Heq & _).
    rewrite He, str_app_nil_l in Heq.
    destruct (is_lower_word l Hlow) as [Hw Hne].
    assert (Hin : str_mem l (re_sub_suspicious rest) = true).
    { apply re_sub_keeps; [exact Hl|]. unfold safe_char. now rewrite Hw. }
    rewrite Heq, str_mem_app in Hin.
    apply orb_true_iff in Hin as [Hin|Hin]; apply underscores_all in Hin; contradiction.
Qed.

Lemma accepted_url_has_file_name_witness :
  re_match url_regex "http://a.example.com/news" = true
  /\ str_mem LF "http://a.example.com/news" = false
  /\ exists slug, getSafeFilename "http://a.example.com/news" = Ret slug /\ slug <> "".
Proof.
  split; [reflexivity|]. split; [reflexivity|].
  apply accepted_url_has_file_name; reflexivity.
Defined.

Section Events.

Lemma check_events_Ret (es : list string) (l : list item) :
  check_events es = Ret l ->
  l = IStr <$> es /\ Forall (fun e => e ∈ _valid_notification_events) es.
Proof.
  revert l. induction es as [|e rest IH]; intros l H.
  - injection H as <-. split; [reflexivity | constructor].
  - cbn [check_events] in H.
    destruct (bool_decide (e ∈ _valid_notification_events)) eqn:He; [|discriminate].
    apply bool_decide_eq_true in He.
    destruct (check_events rest) as [l'|] eqn:Hr; cbn [res_bind] in H; [|discriminate].
    injection H as <-. destruct (IH _ eq_refl) as [-> Hall].
    split; [reflexivity | now constructor].
Qed.

End Events.

(** X24.  The events of an accepted command line are valid
    notification events: those given with [--event-list], in their
    order, or all of them when none is given. *)
Theorem parseArgs_events (env : Env) (args : Args.t) (argConf : gmap string value)
    (whatToDo setParams : list string) :
  parseArgs env args = Ret (argConf, whatToDo, setParams) ->
  exists evs,
    argConf !! "event_list" = Some (VList (IStr <$> evs))
    /\ Forall (fun e => e ∈ _valid_notification_events) evs
    /\ evs = default _valid_notification_events (truthy_list (Args.event_list args)).
Proof.
  intros H. apply parseArgs_stages in H as (pages & events & H). cbv zeta in H.
  destruct H as (-> & _ & Hev & _).
  assert (He : exists evs, events = IStr <$> evs
                 /\ Forall (fun e => e ∈ _valid_notification_events) evs
                 /\ evs = default _valid_notification_events
                            (truthy_list (Args.event_list args))).
  { destruct (truthy_list (Args.event_list args)) as [es|].
    - apply check_events_Ret in Hev as [-> Hall]. now exists es.
    - exists _valid_notification_events. split; [exact Hev|]. split; [|reflexivity].
      repeat constructor. }
  destruct He as (evs & -> & Hall & Heq).
  exists evs. split; [|now split].
  destruct (truthy_str (Args.data_dir args)), (truthy_str (Args.config_file args));
    rewrite ?lookup_insert_ne by discriminate; apply lookup_insert_eq.
Qed.

Lemma parseArgs_events_witness :
  let env := sample_env default_path ∅ in
  let args := Args.mk None None false (Some ["log"; "print"]) None
                false false None None false 0 false in
  exists argConf whatToDo setParams evs,
    parseArgs env args = Ret (argConf, whatToDo, setParams)
    /\ argConf !! "event_list" = Some (VList (IStr <$> evs))
    /\ Forall (fun e => e ∈ _valid_notification_events) evs
    /\ evs = default _valid_notification_events (truthy_list (Args.event_list args)).
Proof.
  intros env args.
  assert (Hv : args_view (parseArgs env args) = Ret (None, None, [], ["run"], ["event_list"]))
    by (vm_compute; reflexivity).
  destruct (parseArgs env args) as [[[argConf whatToDo] setParams]|e] eqn:H;
    [|discriminate].
  destruct (parseArgs_events env args argConf whatToDo setParams H) as (evs & He).
  exists argConf, whatToDo, setParams, evs. split; [reflexivity | exact He].
Defined.

Example notify_sites_same_domain :
  notify_sites [Change.mk [Some "a"] [] "T" "http://x.org/1" "x.org";
                Change.mk [Some "b"] [] "T" "http://x.org/2" "x.org"]
  = Some (Ret ["x.org"; "..."]).
Proof. reflexivity. Qed.

Example notify_sites_five_changes :
  notify_sites [Change.mk [] [] "" "" "a"; Change.mk [] [] "" "" "b";
                Change.mk [] [] "" "" "a"; Change.mk [] [] "" "" "c";
                Change.mk [] [] "" "" "d"]
  = Some (Ret ["a"; "b"; "c"; "..."]).
Proof. reflexivity. Qed.

(** * The configuration [getConfig] hands to [run] *)

Section ConfigKeys.



End ConfigKeys.


